(** * The automatic dispatch cycle of the likes bot

    A shallow embedding of [scheduler.py] (the cycle
    [LikesScheduler.send_automatic_likes] with its two notifiers),
    of the parts of [api_client.py] ([load_key], [send_likes],
    [format_number]) and of [database.py] ([get_all_active_game_ids],
    [update_game_id_info], [log_send]) that the cycle calls, and of the
    handlers of [bot.py] that write to the same tables.

    Conventions of the embedding.
    - Python values that come out of the remote JSON payload are kept
      dynamically typed ([pyval]); the operations the source applies to
      them ([.get], truthiness, [>=], [+=], the [,] format) raise the
      exceptions Python raises.  JSON numbers are integers, as in the
      remote contract; fractional numbers are not represented.  A text is
      the sequence of its UTF-8 bytes; a text with a lone surrogate, which
      has no such sequence, is not represented.
    - The cycle runs in a state-and-exception monad over [world]: the two
      SQLite tables it touches, the calls made to [bot.send_message], the
      calls made to the remote endpoint, the printed lines and a clock.
    - Everything the cycle cannot control is read from an [env]: the key
      file, the answer of the remote endpoint to the n-th call, whether
      the n-th [bot.send_message] is delivered, the n-th reading of the
      wall clock, and what SQLite and Unicode decide on values that are
      not computed here.
    - A statement of [update_game_id_info] or [log_send] runs when
      [sqlite3] can bind its parameters; when it cannot (a list, a dict, an
      integer beyond 64 bits), the accessor catches the exception, prints
      it and writes nothing.  The values stored are those the columns
      hold, with their affinities; Telegram ids are integers of 64 bits.
      The faults of the database file itself (a locked or unwritable
      file), which the accessors catch in the same way, are not
      represented.
    - A message is represented by its content (kind, entries, totals), not
      by the text of its template; [escape_markdown] and the templates
      themselves, which cannot raise, are not represented.  The exact
      quotient stands for the floating-point success rate. *)

From Stdlib Require Import List ZArith String Ascii Bool QArith Lia.
From Stdlib Require Import Permutation Sorted DecimalString DecimalZ DecimalPos.
Import ListNotations.
Local Open Scope string_scope.
Local Open Scope list_scope.
Local Open Scope Z_scope.

(** ** Python values *)

#[local] Set Warnings "-register-all".

Inductive pyval : Type :=
| JNull
| JBool (b : bool)
| JNum (n : Z)
| JStr (s : string)
| JArr (items : list pyval)
| JObj (fields : list (string * pyval)).

Inductive exn : Type :=
| AttributeError
| TypeError
| ValueError
| ZeroDivisionError
| TelegramError
| InterfaceError
| OverflowError
| OSError
| UnicodeEncodeError.

Inductive outcome (A : Type) : Type :=
| Ok (a : A)
| Raise (e : exn).
Arguments Ok {A} a.
Arguments Raise {A} e.

(** [d[k]] for a dict in insertion order. *)
Fixpoint dict_lookup (fields : list (string * pyval)) (k : string) : option pyval :=
  match fields with
  | [] => None
  | (k', v) :: rest => if String.eqb k' k then Some v else dict_lookup rest k
  end.

(** [d.get(k, default)]: the stored value when the key is present (even a
    stored [None]), the default otherwise. *)
Definition dict_get (fields : list (string * pyval)) (k : string) (default : pyval) : pyval :=
  match dict_lookup fields k with
  | Some v => v
  | None => default
  end.

(** [v.get(k, default)]: only a dict has the method. *)
Definition py_get (v : pyval) (k : string) (default : pyval) : outcome pyval :=
  match v with
  | JObj fields => Ok (dict_get fields k default)
  | _ => Raise AttributeError
  end.

(** Truth value of [v] in a condition. *)
Definition py_truthy (v : pyval) : bool :=
  match v with
  | JNull => false
  | JBool b => b
  | JNum n => negb (n =? 0)
  | JStr s => negb (String.eqb s "")
  | JArr items => match items with [] => false | _ => true end
  | JObj fields => match fields with [] => false | _ => true end
  end.

(** The integer a value stands for in arithmetic ([bool] is a subclass of
    [int]); [None] for the values that make [>=] and [+] raise. *)
Definition py_num (v : pyval) : option Z :=
  match v with
  | JNum n => Some n
  | JBool b => Some (if b then 1 else 0)
  | _ => None
  end.

(** [v >= n] *)
Definition py_ge (v : pyval) (n : Z) : outcome bool :=
  match py_num v with
  | Some m => Ok (n <=? m)
  | None => Raise TypeError
  end.

(** [n + v], as in [total += v] *)
Definition py_add (n : Z) (v : pyval) : outcome Z :=
  match py_num v with
  | Some m => Ok (n + m)
  | None => Raise TypeError
  end.

(** [v == s] for a string literal [s]; never raises. *)
Definition py_eq_str (v : pyval) (s : string) : bool :=
  match v with
  | JStr s' => String.eqb s' s
  | _ => false
  end.

(** [str(number)] *)
Definition py_str_int (number : Z) : string :=
  DecimalString.NilZero.string_of_int (Z.to_int number).

Definition is_digit (c : ascii) : bool :=
  existsb (Ascii.eqb c) ["0"; "1"; "2"; "3"; "4"; "5"; "6"; "7"; "8"; "9"]%char.

(** The integer that a plain decimal text reads as: digits, with a minus
    sign before them or not. *)
Definition decimal_text (s : string) : option Z :=
  let digits := match s with
                | String sign rest => if Ascii.eqb sign "-" then rest else s
                | EmptyString => s
                end in
  if negb (String.eqb digits "") && forallb is_digit (list_ascii_of_string digits)
  then option_map Z.of_int (DecimalString.NilZero.int_of_string s)
  else None.

(** [a / b] on integers; the quotient is kept exact. *)
Definition py_truediv (a b : Z) : outcome Q :=
  if b =? 0 then Raise ZeroDivisionError else Ok (Qmake a 1 / Qmake b 1)%Q.

(** ** config.py *)

Definition MIN_LIKES_REQUIRED : Z := 100.

(** ** The tables of database.py *)

Record game_id_row : Type := mk_game_id_row {
  g_telegram_id : Z;
  g_game_id : string;
  g_player_name : pyval;
  g_added_at : string;
  g_last_likes_sent : pyval;
  g_total_likes_received : Z;
  g_active : bool
}.

Record history_row : Type := mk_history_row {
  h_telegram_id : Z;
  h_game_id : string;
  h_likes_sent : pyval;
  h_success : bool;
  h_error_message : pyval;
  h_player_name : pyval;
  h_timestamp : string;
  h_is_auto : bool
}.

(** ** Messages, printed lines *)

(** One element of [user_results]. *)
Inductive status : Type := StSuccess | StPartial | StError.

Record result : Type := mk_result {
  r_status : status;
  r_game_id : string;
  r_data : pyval
}.

Inductive report_entry : Type :=
| EntrySuccess (idx : Z) (game_id : string) (player region : pyval)
    (initial final : Z) (added level : pyval) (exp : Z)
| EntryPartial (idx : Z) (game_id : string) (player added : pyval)
| EntryError (idx : Z) (game_id : string) (error_msg : pyval).

Inductive message : Type :=
| ConfigErrorNotice
| UserReport (entries : list report_entry) (n_ids total_likes success_count : Z)
    (ts : string)
| AdminReport (total_users total_ids total_likes successes failures : Z)
    (rate : Q) (ts : string).

Record sent_message : Type := mk_sent {
  m_chat_id : Z;
  m_body : message;
  m_delivered : bool
}.

Inductive log_line : Type :=
| LogStart (ts : string)
| LogNoKey
| LogKeyError
| LogSaveKeyError (e : exn)
| LogNoIds
| LogSending (game_id : string) (telegram_id : Z)
| LogNotifyError (telegram_id : Z) (e : exn)
| LogAdminError (e : exn)
| LogUpdateError (e : exn)
| LogHistoryError (e : exn)
| LogDone
| LogForce.

(** ** World and environment *)

Record world : Type := mk_world {
  game_ids : list game_id_row;
  send_history : list history_row;
  outbox : list sent_message;
  api_calls : list (string * string);
  stdout : list log_line;
  clock : nat
}.

Inductive key_file_state : Type :=
| KeyMissing
| KeyUnreadable
| KeyContent (s : string).

(** What [requests.get(...)] followed by [response.json()] does. *)
Inductive http_outcome : Type :=
| HttpTimeout
| HttpRequestException (detail : string)
| HttpOtherException (detail : string)
| HttpJson (payload : pyval).

(** Beside the key file, the remote endpoint, Telegram and the wall clock,
    the environment answers what is not computed here: what SQLite stores
    for a text other than a plain decimal one bound to a column of INTEGER
    affinity ([numeric_text]: the number the text reads as, or the text
    itself), the value SQLite goes on
    with when a sum of integers leaves 64 bits ([real_sum]: it switches to
    floating point), and what [str.isdigit] answers on a text that has
    characters beyond ASCII ([unicode_isdigit]). *)
Record env : Type := mk_env {
  key_file : key_file_state;
  http : nat -> string -> string -> http_outcome;
  telegram : nat -> bool;
  now : nat -> string;
  numeric_text : string -> pyval;
  real_sum : Z -> Z -> Z;
  unicode_isdigit : string -> bool
}.

(** ** The monad of the cycle *)

Definition M (A : Type) : Type := world -> outcome A * world.

Definition ret {A} (a : A) : M A := fun w => (Ok a, w).

Definition bind {A B} (c : M A) (k : A -> M B) : M B :=
  fun w => match c w with
           | (Ok a, w') => k a w'
           | (Raise e, w') => (Raise e, w')
           end.

Definition lift {A} (o : outcome A) : M A := fun w => (o, w).

(** [try: c except Exception as e: h e] *)
Definition try_except (c : M unit) (h : exn -> M unit) : M unit :=
  fun w => match c w with
           | (Ok tt, w') => (Ok tt, w')
           | (Raise e, w') => h e w'
           end.

Declare Scope cycle_scope.
Delimit Scope cycle_scope with cycle.
Notation "x <- c ;; k" := (bind c (fun x => k))
  (at level 100, c at next level, right associativity) : cycle_scope.
Notation "c ;; k" := (bind c (fun _ => k))
  (at level 100, right associativity) : cycle_scope.
Local Open Scope cycle_scope.

Definition print (l : log_line) : M unit :=
  fun w => (Ok tt, mk_world (game_ids w) (send_history w) (outbox w) (api_calls w)
                            (stdout w ++ [l]) (clock w)).

(** [datetime.now().strftime(...)] *)
Definition datetime_now (e : env) : M string :=
  fun w => (Ok (now e (clock w)),
            mk_world (game_ids w) (send_history w) (outbox w) (api_calls w)
                     (stdout w) (S (clock w))).

(** [await bot.send_message(chat_id=..., text=...)] *)
Definition bot_send_message (e : env) (chat_id : Z) (body : message) : M unit :=
  fun w =>
    let ok := telegram e (List.length (outbox w)) in
    let w' := mk_world (game_ids w) (send_history w)
                       (outbox w ++ [mk_sent chat_id body ok])
                       (api_calls w) (stdout w) (clock w) in
    if ok then (Ok tt, w') else (Raise TelegramError, w').

(** ** api_client.py *)

(** The characters [str.strip()] removes, as they are written in UTF-8.
    One byte: U+0009 to U+000D, U+001C to U+001F and the space. *)
Definition is_space (c : ascii) : bool :=
  let n := nat_of_ascii c in
  ((9 <=? n)%nat && (n <=? 13)%nat) || ((28 <=? n)%nat && (n <=? 32)%nat).

(** Two bytes: U+0085 and U+00A0. *)
Definition is_space2 (c1 c2 : ascii) : bool :=
  let n2 := nat_of_ascii c2 in
  (nat_of_ascii c1 =? 194)%nat && ((n2 =? 133)%nat || (n2 =? 160)%nat).

(** Three bytes: U+1680, U+2000 to U+200A, U+2028, U+2029, U+202F, U+205F
    and U+3000. *)
Definition is_space3 (c1 c2 c3 : ascii) : bool :=
  let n1 := nat_of_ascii c1 in
  let n2 := nat_of_ascii c2 in
  let n3 := nat_of_ascii c3 in
  ((n1 =? 225)%nat && (n2 =? 154)%nat && (n3 =? 128)%nat)
  || ((n1 =? 226)%nat && (n2 =? 128)%nat
      && (((128 <=? n3)%nat && (n3 <=? 138)%nat)
          || (n3 =? 168)%nat || (n3 =? 169)%nat || (n3 =? 175)%nat))
  || ((n1 =? 226)%nat && (n2 =? 129)%nat && (n3 =? 159)%nat)
  || ((n1 =? 227)%nat && (n2 =? 128)%nat && (n3 =? 128)%nat).

Fixpoint lstrip (s : string) : string :=
  match s with
  | EmptyString => EmptyString
  | String c1 rest1 =>
      if is_space c1 then lstrip rest1
      else
        match rest1 with
        | EmptyString => s
        | String c2 rest2 =>
            if is_space2 c1 c2 then lstrip rest2
            else
              match rest2 with
              | EmptyString => s
              | String c3 rest3 => if is_space3 c1 c2 c3 then lstrip rest3 else s
              end
        end
  end.

(** From the right: what follows a character goes when it is whitespace
    to the end. *)
Fixpoint rstrip (s : string) : string :=
  match s with
  | EmptyString => EmptyString
  | String c rest =>
      match lstrip s with
      | EmptyString => EmptyString
      | _ => String c (rstrip rest)
      end
  end.

Definition strip (s : string) : string := rstrip (lstrip s).

(** [load_key]: [None] when the file is missing or cannot be read, the
    stripped content otherwise. *)
Definition load_key (e : env) : M (option string) :=
  match key_file e with
  | KeyMissing => ret None
  | KeyUnreadable => print LogKeyError ;; ret None
  | KeyContent s => ret (Some (strip s))
  end.

(** The value [load_key] returns, apart from the line it may print. *)
Definition stored_key (e : env) : option string :=
  match key_file e with
  | KeyContent s => Some (strip s)
  | _ => None
  end.

(** [not api_key] for the [str | None] that [load_key] returns. *)
Definition key_missing (api_key : option string) : bool :=
  match api_key with
  | None => true
  | Some s => String.eqb s ""
  end.

Definition timeout_response : pyval :=
  JObj [("error", JStr "timeout");
        ("message", JStr "Tempo de resposta esgotado. Tente novamente.");
        ("usageCounted", JBool false)].

Definition connection_error_response (detail : string) : pyval :=
  JObj [("error", JStr "connection_error");
        ("message", JStr (String.append "Erro de conexão: " detail));
        ("usageCounted", JBool false)].

Definition unknown_error_response (detail : string) : pyval :=
  JObj [("error", JStr "unknown_error");
        ("message", JStr (String.append "Erro desconhecido: " detail));
        ("usageCounted", JBool false)].

(** The value [send_likes] returns for each way the request can end. *)
Definition response_of (o : http_outcome) : pyval :=
  match o with
  | HttpJson payload => payload
  | HttpTimeout => timeout_response
  | HttpRequestException detail => connection_error_response detail
  | HttpOtherException detail => unknown_error_response detail
  end.

(** [send_likes(game_id, api_key)]: one request, never raises. *)
Definition send_likes (e : env) (game_id api_key : string) : M pyval :=
  fun w =>
    let o := http e (List.length (api_calls w)) game_id api_key in
    (Ok (response_of o),
     mk_world (game_ids w) (send_history w) (outbox w)
              (api_calls w ++ [(game_id, api_key)]) (stdout w) (clock w)).

(** [format_number(number)]: the [,] format accepts integers only; the
    grouping of the digits is not represented. *)
Definition format_number (number : pyval) : outcome Z :=
  match number with
  | JNum n => Ok n
  | JBool b => Ok (if b then 1 else 0)
  | JStr _ => Raise ValueError
  | _ => Raise TypeError
  end.

(** ** database.py *)

(** [ORDER BY telegram_id], keeping the table order among equal keys. *)
Fixpoint insert_by_telegram_id (r : Z * string) (rows : list (Z * string))
  : list (Z * string) :=
  match rows with
  | [] => [r]
  | x :: rest =>
      if fst r <=? fst x then r :: x :: rest
      else x :: insert_by_telegram_id r rest
  end.

Definition order_by_telegram_id (rows : list (Z * string)) : list (Z * string) :=
  fold_right insert_by_telegram_id [] rows.

(** [SELECT telegram_id, game_id FROM game_ids WHERE active = 1 ORDER BY telegram_id] *)
Definition select_active (table : list game_id_row) : list (Z * string) :=
  order_by_telegram_id
    (map (fun r => (g_telegram_id r, g_game_id r)) (filter g_active table)).

(** [if tid not in grouped: grouped[tid] = []] then [grouped[tid].append(gid)],
    on a dict in insertion order. *)
Fixpoint group_append (tid : Z) (gid : string) (grouped : list (Z * list string))
  : list (Z * list string) :=
  match grouped with
  | [] => [(tid, [gid])]
  | (t, gids) :: rest =>
      if t =? tid then (t, gids ++ [gid]) :: rest
      else (t, gids) :: group_append tid gid rest
  end.

Definition group_rows (rows : list (Z * string)) : list (Z * list string) :=
  fold_left (fun grouped row => group_append (fst row) (snd row) grouped) rows [].

Definition get_all_active_game_ids : M (list (Z * list string)) :=
  fun w => (Ok (group_rows (select_active (game_ids w))), w).

(** The integers SQLite stores: 64 bits, signed. *)
Definition int64 (n : Z) : bool := (- 2 ^ 63 <=? n) && (n <? 2 ^ 63).

(** Binding a value to a [?] of a statement: [sqlite3] takes [None], a
    [bool], an [int] of 64 bits and a [str]; it raises [OverflowError] for a
    larger [int] and [InterfaceError] ([ProgrammingError] from Python 3.12)
    for a list or a dict. *)
Definition bind_parameter (v : pyval) : outcome unit :=
  match v with
  | JNull | JBool _ | JStr _ => Ok tt
  | JNum n => if int64 n then Ok tt else Raise OverflowError
  | JArr _ | JObj _ => Raise InterfaceError
  end.

(** The parameters are bound in order; the first that cannot be bound
    raises. *)
Fixpoint bind_parameters (vs : list pyval) : outcome unit :=
  match vs with
  | [] => Ok tt
  | v :: rest =>
      match bind_parameter v with
      | Ok _ => bind_parameters rest
      | Raise x => Raise x
      end
  end.

(** What a TEXT column holds for a bound value: a number is stored as its
    text ([True] and [False] are bound as 1 and 0). *)
Definition text_affinity (v : pyval) : pyval :=
  match v with
  | JNum n => JStr (py_str_int n)
  | JBool b => JStr (if b then "1" else "0")
  | _ => v
  end.

(** What an INTEGER column holds for a bound value: a text that reads as a
    number is stored as that number.  A plain decimal text of an integer of
    64 bits is read here; on any other text ([numeric_text]) SQLite
    decides: it stores a number for a text with blanks around, an exponent
    or a fraction, and keeps the text otherwise. *)
Definition integer_affinity (e : env) (v : pyval) : pyval :=
  match v with
  | JBool b => JNum (if b then 1 else 0)
  | JStr s =>
      match decimal_text s with
      | Some n => if int64 n then JNum n else numeric_text e s
      | None => numeric_text e s
      end
  | _ => v
  end.

(** [total_likes_received + ?]: the sum of two integers of 64 bits; when it
    leaves 64 bits, or the column has left them before, SQLite goes on in
    floating point, where rounding does not take the sum to the other side
    of the old total. *)
Definition sqlite_add (e : env) (total n : Z) : Z :=
  if int64 total && int64 (total + n) then total + n
  else if 0 <=? n then Z.max total (real_sum e total n)
  else Z.min total (real_sum e total n).

(** The [WHERE] clause of [update_game_id_info]. *)
Definition registration_of (telegram_id : Z) (game_id : string) (r : game_id_row) : bool :=
  (g_telegram_id r =? telegram_id) && String.eqb (g_game_id r) game_id && g_active r.

Definition update_row (e : env) (player_name : pyval) (ts : string) (likes_added : Z)
  (r : game_id_row) : game_id_row :=
  mk_game_id_row (g_telegram_id r) (g_game_id r) (text_affinity player_name)
                 (g_added_at r) (JStr ts)
                 (sqlite_add e (g_total_likes_received r) likes_added) (g_active r).

(** [update_game_id_info]: the statement runs when its parameters can be
    bound; otherwise the handler of the function prints the exception and
    no row is touched. *)
Definition update_game_id_info (e : env) (telegram_id : Z) (game_id : string)
  (player_name : pyval) (likes_added : Z) : M unit :=
  ts <- datetime_now e ;;
  match bind_parameters [player_name; JNum likes_added] with
  | Raise x => print (LogUpdateError x)
  | Ok _ =>
      fun w =>
        (Ok tt,
         mk_world (map (fun r => if registration_of telegram_id game_id r
                                 then update_row e player_name ts likes_added r else r)
                       (game_ids w))
                  (send_history w) (outbox w) (api_calls w) (stdout w) (clock w))
  end.

(** The row that [log_send] inserts, with the affinities of its columns. *)
Definition logged_row (e : env) (telegram_id : Z) (game_id : string) (likes_sent : pyval)
  (success : bool) (error_message player_name : pyval) (ts : string) (is_auto : bool)
  : history_row :=
  mk_history_row telegram_id game_id (integer_affinity e likes_sent) success
                 (text_affinity error_message) (text_affinity player_name) ts is_auto.

(** [log_send]: the row is inserted when the parameters can be bound;
    otherwise the handler of the function prints the exception and no row
    is written. *)
Definition log_send (e : env) (telegram_id : Z) (game_id : string) (likes_sent : pyval)
  (success : bool) (error_message player_name : pyval) (is_auto : bool) : M unit :=
  ts <- datetime_now e ;;
  match bind_parameters [likes_sent; error_message; player_name] with
  | Raise x => print (LogHistoryError x)
  | Ok _ =>
      fun w =>
        (Ok tt,
         mk_world (game_ids w)
                  (send_history w ++
                     [logged_row e telegram_id game_id likes_sent success error_message
                                 player_name ts is_auto])
                  (outbox w) (api_calls w) (stdout w) (clock w))
  end.

(** ** scheduler.py *)

(** The local variables of [send_automatic_likes] that the loops update. *)
Record locals : Type := mk_locals {
  total_likes_sent : Z;
  total_successes : Z;
  total_failures : Z;
  user_results : list result
}.

(** [response.get("success") and response.get("likesAdded", 0) >= MIN_LIKES_REQUIRED] *)
Definition success_rule (response : pyval) : outcome bool :=
  match py_get response "success" JNull with
  | Raise x => Raise x
  | Ok success =>
      if py_truthy success then
        match py_get response "likesAdded" (JNum 0) with
        | Raise x => Raise x
        | Ok likes => py_ge likes MIN_LIKES_REQUIRED
        end
      else Ok false
  end.

(** [not response.get("success") and response.get("error") == "INSUFFICIENT_LIKES"] *)
Definition partial_rule (response : pyval) : outcome bool :=
  match py_get response "success" JNull with
  | Raise x => Raise x
  | Ok success =>
      if negb (py_truthy success) then
        match py_get response "error" JNull with
        | Raise x => Raise x
        | Ok err => Ok (py_eq_str err "INSUFFICIENT_LIKES")
        end
      else Ok false
  end.

(** The body of the inner loop, for one identifier. *)
Definition process_game_id (e : env) (api_key : string) (telegram_id : Z)
  (game_id : string) (l : locals) : M locals :=
  print (LogSending game_id telegram_id) ;;
  response <- send_likes e game_id api_key ;;
  is_success <- lift (success_rule response) ;;
  if is_success : bool then
    likes_added <- lift (py_get response "likesAdded" (JNum 0)) ;;
    player_name <- lift (py_get response "player" (JStr "N/A")) ;;
    match py_num likes_added with
    | None => lift (Raise TypeError)
    | Some n =>
        update_game_id_info e telegram_id game_id player_name n ;;
        log_send e telegram_id game_id likes_added true JNull player_name true ;;
        ret (mk_locals (total_likes_sent l + n) (total_successes l + 1)
                       (total_failures l)
                       (user_results l ++ [mk_result StSuccess game_id response]))
    end
  else
    is_partial <- lift (partial_rule response) ;;
    if is_partial : bool then
      likes_added <- lift (py_get response "likesAdded" (JNum 0)) ;;
      player_name <- lift (py_get response "player" (JStr "N/A")) ;;
      log_send e telegram_id game_id likes_added false (JStr "Menos de 100 likes")
               player_name true ;;
      ret (mk_locals (total_likes_sent l) (total_successes l) (total_failures l + 1)
                     (user_results l ++ [mk_result StPartial game_id response]))
    else
      error_msg <- lift (py_get response "message" (JStr "Erro desconhecido")) ;;
      log_send e telegram_id game_id (JNum 0) false error_msg JNull true ;;
      ret (mk_locals (total_likes_sent l) (total_successes l) (total_failures l + 1)
                     (user_results l ++ [mk_result StError game_id response])).

(** [for game_id in game_ids: ...] *)
Fixpoint process_game_ids (e : env) (api_key : string) (telegram_id : Z)
  (ids : list string) (l : locals) : M locals :=
  match ids with
  | [] => ret l
  | game_id :: rest =>
      l' <- process_game_id e api_key telegram_id game_id l ;;
      process_game_ids e api_key telegram_id rest l'
  end.

(** One entry of the user's message; the running [total_likes] and
    [success_count] are threaded through. *)
Definition render_result (idx : Z) (r : result) (total_likes success_count : Z)
  : outcome (report_entry * Z * Z) :=
  let data := r_data r in
  match r_status r with
  | StSuccess =>
      match py_get data "player" (JStr "N/A"), py_get data "region" (JStr "N/A"),
            py_get data "initialLikes" (JNum 0), py_get data "finalLikes" (JNum 0),
            py_get data "likesAdded" (JNum 0), py_get data "level" (JStr "N/A"),
            py_get data "exp" (JNum 0) with
      | Ok player, Ok region, Ok initial_v, Ok final_v, Ok added, Ok level, Ok exp_v =>
          match format_number initial_v with
          | Raise x => Raise x
          | Ok initial =>
          match format_number final_v with
          | Raise x => Raise x
          | Ok final =>
          match format_number exp_v with
          | Raise x => Raise x
          | Ok exp =>
          match py_add total_likes added with
          | Raise x => Raise x
          | Ok total_likes' =>
              Ok (EntrySuccess idx (r_game_id r) player region initial final added level exp,
                  total_likes', success_count + 1)
          end end end end
      | _, _, _, _, _, _, _ => Raise AttributeError
      end
  | StPartial =>
      match py_get data "player" (JStr "N/A"), py_get data "likesAdded" (JNum 0) with
      | Ok player, Ok added =>
          Ok (EntryPartial idx (r_game_id r) player added, total_likes, success_count)
      | _, _ => Raise AttributeError
      end
  | StError =>
      match py_get data "message" (JStr "Erro desconhecido") with
      | Ok error_msg => Ok (EntryError idx (r_game_id r) error_msg, total_likes, success_count)
      | Raise x => Raise x
      end
  end.

(** [for idx, result in enumerate(results, 1): ...] *)
Fixpoint render_results (idx : Z) (results : list result) (total_likes success_count : Z)
  : outcome (list report_entry * Z * Z) :=
  match results with
  | [] => Ok ([], total_likes, success_count)
  | r :: rest =>
      match render_result idx r total_likes success_count with
      | Raise x => Raise x
      | Ok (entry, total_likes', success_count') =>
          match render_results (idx + 1) rest total_likes' success_count' with
          | Raise x => Raise x
          | Ok (entries, t, s) => Ok (entry :: entries, t, s)
          end
      end
  end.

Definition send_user_notification (e : env) (telegram_id : Z) (results : list result)
  : M unit :=
  try_except
    (rendered <- lift (render_results 1 results 0 0) ;;
     ts <- datetime_now e ;;
     let '(entries, total_likes, success_count) := rendered in
     bot_send_message e telegram_id
       (UserReport entries (Z.of_nat (List.length results)) total_likes success_count ts))
    (fun x => print (LogNotifyError telegram_id x)).

Definition send_admin_report (e : env) (admin_id : Z)
  (total_users total_ids total_likes successes failures : Z) : M unit :=
  try_except
    (ts <- datetime_now e ;;
     lift (format_number (JNum total_likes)) ;;
     ratio <- lift (py_truediv successes (successes + failures)) ;;
     bot_send_message e admin_id
       (AdminReport total_users total_ids total_likes successes failures
                    (ratio * 100)%Q ts))
    (fun x => print (LogAdminError x)).

(** [for telegram_id, game_ids in users_ids.items(): ...] *)
Fixpoint process_users (e : env) (api_key : string) (users_ids : list (Z * list string))
  (l : locals) : M locals :=
  match users_ids with
  | [] => ret l
  | (telegram_id, ids) :: rest =>
      l' <- process_game_ids e api_key telegram_id ids
              (mk_locals (total_likes_sent l) (total_successes l) (total_failures l) []) ;;
      send_user_notification e telegram_id (user_results l') ;;
      process_users e api_key rest l'
  end.

(** [sum(len(ids) for ids in users_ids.values())] *)
Definition count_ids (users_ids : list (Z * list string)) : Z :=
  fold_right (fun u acc => Z.of_nat (List.length (snd u)) + acc) 0 users_ids.

(** The aggregation of a run, as the spec names it.  The source never builds
    this value; it is the type of the result the spec gives to the cycle. *)
Record DispatchSummary : Type := mk_summary {
  s_total_users : Z;
  s_total_ids : Z;
  s_total_likes : Z;
  s_successes : Z;
  s_failures : Z
}.

(** [send_automatic_likes]; every path ends in a bare [return] or falls off
    the end of the function, so the value returned is [None]. *)
Definition send_automatic_likes (e : env) (admin_id : Z) : M (option DispatchSummary) :=
  ts <- datetime_now e ;;
  print (LogStart ts) ;;
  api_key <- load_key e ;;
  if key_missing api_key then
    bot_send_message e admin_id ConfigErrorNotice ;;
    print LogNoKey ;;
    ret None
  else
    let key := match api_key with Some k => k | None => "" end in
    users_ids <- get_all_active_game_ids ;;
    match users_ids with
    | [] => print LogNoIds ;; ret None
    | _ :: _ =>
        let total_users := Z.of_nat (List.length users_ids) in
        let total_ids := count_ids users_ids in
        l <- process_users e key users_ids (mk_locals 0 0 0 []) ;;
        send_admin_report e admin_id total_users total_ids
          (total_likes_sent l) (total_successes l) (total_failures l) ;;
        print LogDone ;;
        ret None
    end.


(** ** Vocabulary of the properties *)

(** The world after [print] and [send_likes], where the branches start. *)
Definition after_call (game_id api_key : string) (telegram_id : Z) (w : world) : world :=
  mk_world (game_ids w) (send_history w) (outbox w)
           (api_calls w ++ [(game_id, api_key)])
           (stdout w ++ [LogSending game_id telegram_id]) (clock w).

Definition raw_response (e : env) (w : world) (game_id api_key : string) : pyval :=
  response_of (http e (List.length (api_calls w)) game_id api_key).

(** Likes that an audit row counts: those of a successful send. *)
Definition row_likes (h : history_row) : Z :=
  if h_success h then match py_num (h_likes_sent h) with Some n => n | None => 0 end
  else 0.

Definition audited_likes (rows : list history_row) : Z :=
  fold_right (fun h acc => row_likes h + acc) 0 rows.

Definition count_rows (success : bool) (rows : list history_row) : Z :=
  fold_right (fun h acc => (if Bool.eqb (h_success h) success then 1 else 0) + acc) 0 rows.

Definition row_key (h : history_row) : Z * string := (h_telegram_id h, h_game_id h).

Definition is_success (st : status) : bool :=
  match st with StSuccess => true | _ => false end.

(** Whether a raw response is a Success outcome, and the likes it adds to
    [total_likes_sent] if it is. *)
Definition outcome_success (response : pyval) : bool :=
  match success_rule response with
  | Ok true => true
  | _ => false
  end.

Definition outcome_likes (response : pyval) : Z :=
  match success_rule response, py_get response "likesAdded" (JNum 0) with
  | Ok true, Ok likes_added =>
      match py_num likes_added with Some n => n | None => 0 end
  | _, _ => 0
  end.

(** The raw responses to consecutive calls for [ids], the first of which is
    call number [c]. *)
Fixpoint responses_from (e : env) (api_key : string) (c : nat) (ids : list string)
  : list pyval :=
  match ids with
  | [] => []
  | game_id :: rest =>
      response_of (http e c game_id api_key) :: responses_from e api_key (S c) rest
  end.

Definition sum_Z (l : list Z) : Z := fold_right Z.add 0 l.

Definition count_true (l : list bool) : Z :=
  fold_right (fun (b : bool) acc => (if b then 1 else 0) + acc) 0 l.

(** Whether [sqlite3] can bind a value. *)
Definition bindable (v : pyval) : bool :=
  match bind_parameter v with Ok _ => true | Raise _ => false end.

(** The table after [update_game_id_info], the rows after [log_send], and
    the lines the two print instead when a parameter cannot be bound. *)
Definition updated_table (e : env) (telegram_id : Z) (game_id : string)
  (player_name : pyval) (ts : string) (likes_added : Z) (table : list game_id_row)
  : list game_id_row :=
  match bind_parameters [player_name; JNum likes_added] with
  | Ok _ => map (fun r => if registration_of telegram_id game_id r
                          then update_row e player_name ts likes_added r else r) table
  | Raise _ => table
  end.

Definition update_errors (player_name : pyval) (likes_added : Z) : list log_line :=
  match bind_parameters [player_name; JNum likes_added] with
  | Ok _ => []
  | Raise x => [LogUpdateError x]
  end.

Definition stored_rows (e : env) (telegram_id : Z) (game_id : string) (likes_sent : pyval)
  (success : bool) (error_message player_name : pyval) (ts : string) (is_auto : bool)
  : list history_row :=
  match bind_parameters [likes_sent; error_message; player_name] with
  | Ok _ => [logged_row e telegram_id game_id likes_sent success error_message
                        player_name ts is_auto]
  | Raise _ => []
  end.

Definition history_errors (likes_sent error_message player_name : pyval) : list log_line :=
  match bind_parameters [likes_sent; error_message; player_name] with
  | Ok _ => []
  | Raise x => [LogHistoryError x]
  end.

(** Responses whose audit row can be written: the values that the branch
    of the response binds are values that [sqlite3] binds ([likesAdded] and
    [player] of a Success or Partial response, [message] of any other). *)
Definition storable_response (response : pyval) : bool :=
  match response with
  | JObj fields =>
      match success_rule response, partial_rule response with
      | Ok true, _ | Ok false, Ok true =>
          bindable (dict_get fields "likesAdded" (JNum 0))
          && bindable (dict_get fields "player" (JStr "N/A"))
      | _, _ => bindable (dict_get fields "message" (JStr "Erro desconhecido"))
      end
  | _ => true
  end.

Definition is_user_report (m : sent_message) : bool :=
  match m_body m with
  | UserReport _ _ _ _ _ => true
  | _ => false
  end.

(** The users and exceptions of the lines that [send_user_notification]
    prints. *)
Definition notify_errors (lines : list log_line) : list (Z * exn) :=
  flat_map (fun l => match l with
                     | LogNotifyError telegram_id x => [(telegram_id, x)]
                     | _ => []
                     end) lines.

(** The user reports whose delivery failed, each with the exception of
    the failure. *)
Definition failed_reports (msgs : list sent_message) : list (Z * exn) :=
  map (fun m => (m_chat_id m, TelegramError))
      (filter (fun m => is_user_report m && negb (m_delivered m)) msgs).

Record step_post (e : env) (api_key : string) (telegram_id : Z) (game_id : string)
  (l : locals) (w : world) (l' : locals) (w' : world) (r : result)
  (rows : list history_row) : Prop := mk_step_post {
  sp_results : user_results l' = user_results l ++ [r];
  sp_game_id : r_game_id r = game_id;
  sp_data : r_data r = raw_response e w game_id api_key;
  sp_rule : success_rule (r_data r) = Ok (is_success (r_status r));
  sp_history : send_history w' = send_history w ++ rows;
  sp_rows :
    Forall (fun row =>
              row_key row = (telegram_id, game_id) /\
              h_is_auto row = true /\
              h_success row = outcome_success (raw_response e w game_id api_key) /\
              row_likes row = outcome_likes (raw_response e w game_id api_key)) rows;
  sp_stored :
    storable_response (raw_response e w game_id api_key) = true ->
    List.length rows = 1%nat;
  sp_calls : api_calls w' = api_calls w ++ [(game_id, api_key)];
  sp_outbox : outbox w' = outbox w;
  sp_stdout : exists lines, stdout w' = stdout w ++ lines /\ notify_errors lines = [];
  sp_likes :
    total_likes_sent l' =
    total_likes_sent l + outcome_likes (raw_response e w game_id api_key);
  sp_successes :
    total_successes l' =
    total_successes l + count_true [outcome_success (raw_response e w game_id api_key)];
  sp_failures :
    total_failures l' =
    total_failures l
    + count_true [negb (outcome_success (raw_response e w game_id api_key))]
}.

(** Payloads on which the first rule can be evaluated: a dict whose
    [likesAdded] is an integer (or absent) whenever [success] is truthy. *)
Definition is_int (v : pyval) : bool :=
  match v with
  | JNum _ | JBool _ => true
  | _ => false
  end.

Definition well_formed_response (v : pyval) : bool :=
  match v with
  | JObj fields =>
      negb (py_truthy (dict_get fields "success" JNull))
      || is_int (dict_get fields "likesAdded" (JNum 0))
  | _ => false
  end.

(** A result that the loop body can have produced under key [api_key]. *)
Definition produced_by (e : env) (api_key : string) (r : result) : Prop :=
  success_rule (r_data r) = Ok (is_success (r_status r)) /\
  exists n, r_data r = response_of (http e n (r_game_id r) api_key).

Definition all_storable (e : env) (api_key : string) : Prop :=
  forall n game_id, storable_response (response_of (http e n game_id api_key)) = true.

Record inner_post (e : env) (api_key : string) (telegram_id : Z) (ids : list string)
  (l : locals) (w : world) (l' : locals) (w' : world)
  (rs : list result) (rows : list history_row) : Prop := mk_inner_post {
  ip_results : user_results l' = user_results l ++ rs;
  ip_game_ids : map r_game_id rs = ids;
  ip_produced : Forall (produced_by e api_key) rs;
  ip_history : send_history w' = send_history w ++ rows;
  ip_auto : Forall (fun h => h_is_auto h = true) rows;
  ip_rows :
    all_storable e api_key ->
    map row_key rows = map (pair telegram_id) ids /\
    map h_success rows =
      map outcome_success (responses_from e api_key (List.length (api_calls w)) ids) /\
    map row_likes rows =
      map outcome_likes (responses_from e api_key (List.length (api_calls w)) ids);
  ip_calls : api_calls w' = api_calls w ++ map (fun g => (g, api_key)) ids;
  ip_outbox : outbox w' = outbox w;
  ip_stdout : exists lines, stdout w' = stdout w ++ lines /\ notify_errors lines = [];
  ip_likes :
    total_likes_sent l' =
    total_likes_sent l
    + sum_Z (map outcome_likes
                 (responses_from e api_key (List.length (api_calls w)) ids));
  ip_successes :
    total_successes l' =
    total_successes l
    + count_true (map outcome_success
                      (responses_from e api_key (List.length (api_calls w)) ids));
  ip_failures :
    total_failures l' =
    total_failures l
    + count_true (map (fun r => negb (outcome_success r))
                      (responses_from e api_key (List.length (api_calls w)) ids))
}.

Definition all_well_formed (e : env) (api_key : string) : Prop :=
  forall n game_id, well_formed_response (response_of (http e n game_id api_key)) = true.

Definition entry_game_id (en : report_entry) : string :=
  match en with
  | EntrySuccess _ g _ _ _ _ _ _ _ => g
  | EntryPartial _ g _ _ => g
  | EntryError _ g _ => g
  end.

Definition entry_idx (en : report_entry) : Z :=
  match en with
  | EntrySuccess i _ _ _ _ _ _ _ _ => i
  | EntryPartial i _ _ _ => i
  | EntryError i _ _ => i
  end.

(** The message [send_user_notification] passes to [bot.send_message], if the
    text can be built. *)
Definition user_message (e : env) (telegram_id : Z) (results : list result) (w : world)
  : list sent_message :=
  match render_results 1 results 0 0 with
  | Ok (entries, total_likes, success_count) =>
      [mk_sent telegram_id
         (UserReport entries (Z.of_nat (List.length results)) total_likes success_count
                     (now e (clock w)))
         (telegram e (List.length (outbox w)))]
  | Raise _ => []
  end.

(** The line [send_user_notification] prints: the exception of the text
    that cannot be built or of the delivery that fails. *)
Definition notify_lines (e : env) (telegram_id : Z) (results : list result) (w : world)
  : list log_line :=
  match render_results 1 results 0 0 with
  | Ok _ =>
      if telegram e (List.length (outbox w)) then []
      else [LogNotifyError telegram_id TelegramError]
  | Raise x => [LogNotifyError telegram_id x]
  end.

(** The message [send_admin_report] passes to [bot.send_message], if the
    rate can be computed. *)
Definition admin_message (e : env) (admin_id : Z)
  (total_users total_ids total_likes successes failures : Z) (w : world)
  : list sent_message :=
  match py_truediv successes (successes + failures) with
  | Ok ratio =>
      [mk_sent admin_id
         (AdminReport total_users total_ids total_likes successes failures
                      (ratio * 100)%Q (now e (clock w)))
         (telegram e (List.length (outbox w)))]
  | Raise _ => []
  end.

(** Payloads whose Success entry can be formatted: the three counts given
    to [format_number] are integers (or absent). *)
Definition formattable_response (v : pyval) : bool :=
  match success_rule v, v with
  | Ok true, JObj fields =>
      is_int (dict_get fields "initialLikes" (JNum 0))
      && is_int (dict_get fields "finalLikes" (JNum 0))
      && is_int (dict_get fields "exp" (JNum 0))
  | _, _ => true
  end.

(** The (user, identifier) pairs of an enumeration, in processing order. *)
Definition enumerated_pairs (users_ids : list (Z * list string)) : list (Z * string) :=
  flat_map (fun u => map (pair (fst u)) (snd u)) users_ids.

(** Recipient of a user report and the identifiers its entries cover. *)
Definition report_view (m : sent_message) : Z * list string :=
  (m_chat_id m,
   match m_body m with
   | UserReport entries _ _ _ _ => map entry_game_id entries
   | _ => []
   end).

Definition all_formattable (e : env) (api_key : string) : Prop :=
  forall n game_id, formattable_response (response_of (http e n game_id api_key)) = true.

Record outer_post (e : env) (api_key : string) (users_ids : list (Z * list string))
  (l : locals) (w : world) (l' : locals) (w' : world)
  (rows : list history_row) (msgs : list sent_message) : Prop := mk_outer_post {
  op_history : send_history w' = send_history w ++ rows;
  op_auto : Forall (fun h => h_is_auto h = true) rows;
  op_rows :
    all_storable e api_key ->
    map row_key rows = enumerated_pairs users_ids /\
    map h_success rows =
      map outcome_success
          (responses_from e api_key (List.length (api_calls w))
                          (map snd (enumerated_pairs users_ids))) /\
    map row_likes rows =
      map outcome_likes
          (responses_from e api_key (List.length (api_calls w))
                          (map snd (enumerated_pairs users_ids)));
  op_calls : api_calls w' = api_calls w ++
               map (fun p => (snd p, api_key)) (enumerated_pairs users_ids);
  op_outbox : outbox w' = outbox w ++ msgs;
  op_reports : Forall (fun m => is_user_report m = true) msgs;
  op_recipients : incl (map m_chat_id msgs) (map fst users_ids);
  op_views : all_formattable e api_key -> map report_view msgs = users_ids;
  op_stdout :
    exists lines,
      stdout w' = stdout w ++ lines /\
      (all_formattable e api_key -> notify_errors lines = failed_reports msgs);
  op_likes :
    total_likes_sent l' =
    total_likes_sent l
    + sum_Z (map outcome_likes
                 (responses_from e api_key (List.length (api_calls w))
                                 (map snd (enumerated_pairs users_ids))));
  op_successes :
    total_successes l' =
    total_successes l
    + count_true (map outcome_success
                      (responses_from e api_key (List.length (api_calls w))
                                      (map snd (enumerated_pairs users_ids))));
  op_failures :
    total_failures l' =
    total_failures l
    + count_true (map (fun r => negb (outcome_success r))
                      (responses_from e api_key (List.length (api_calls w))
                                      (map snd (enumerated_pairs users_ids))))
}.

(** The world when the credential test is reached. *)
Definition prologue (e : env) (w : world) : world :=
  mk_world (game_ids w) (send_history w) (outbox w) (api_calls w)
           (match key_file e with
            | KeyUnreadable => (stdout w ++ [LogStart (now e (clock w))]) ++ [LogKeyError]
            | _ => stdout w ++ [LogStart (now e (clock w))]
            end)
           (S (clock w)).

Definition enumeration (w : world) : list (Z * list string) :=
  group_rows (select_active (game_ids w)).

Definition cycle_key (e : env) : string :=
  match stored_key e with Some k => k | None => "" end.

(** The raw responses of a run, in processing order. *)
Definition run_responses (e : env) (w : world) : list pyval :=
  responses_from e (cycle_key e) (List.length (api_calls w))
                 (map snd (enumerated_pairs (enumeration w))).

Definition aggregation (e : env) (w : world) : DispatchSummary :=
  mk_summary (Z.of_nat (List.length (enumeration w)))
             (count_ids (enumeration w))
             (sum_Z (map outcome_likes (run_responses e w)))
             (count_true (map outcome_success (run_responses e w)))
             (count_true (map (fun r => negb (outcome_success r)) (run_responses e w))).


(** ** A sample run *)

Definition sample_row (telegram_id : Z) (game_id : string) : game_id_row :=
  mk_game_id_row telegram_id game_id JNull "01/01/2025 10:00:00" JNull 0 true.

(** User 2 registered [789]; user 1 registered [123] and [456]. *)
Definition sample_world : world :=
  mk_world [sample_row 2 "789"; sample_row 1 "123"; sample_row 1 "456"]
           [] [] [] [] 0%nat.

Definition ana_success : list (string * pyval) :=
  [("success", JBool true); ("likesAdded", JNum 150); ("player", JStr "Ana")].

Definition insufficient_30 : list (string * pyval) :=
  [("success", JBool false); ("error", JStr "INSUFFICIENT_LIKES"); ("likesAdded", JNum 30)].

(** [123] succeeds with 150 likes, [456] gets 30 likes, [789] times out. *)
Definition sample_http (n : nat) (game_id api_key : string) : http_outcome :=
  if String.eqb game_id "123" then HttpJson (JObj ana_success)
  else if String.eqb game_id "456" then HttpJson (JObj insufficient_30)
  else HttpTimeout.

(** The sample environments: every delivery goes through and the clock
    stands still; their runs bind no text to an INTEGER column, overflow no
    total and meet no character beyond ASCII, so that the three last
    components are not consulted. *)
Definition plain_env (f : key_file_state) (h : nat -> string -> string -> http_outcome)
  : env :=
  mk_env f h (fun _ => true) (fun _ => "02/01/2025 00:00:00")
         (fun s => JStr s) Z.add (fun _ => false).

Definition sample_env : env := plain_env (KeyContent "secret-key") sample_http.

(** As [sample_env], but the payload for [456] carries [likesAdded] as a string. *)
Definition string_likes_http (n : nat) (game_id api_key : string) : http_outcome :=
  if String.eqb game_id "456"
  then HttpJson (JObj [("success", JBool true); ("likesAdded", JStr "150")])
  else sample_http n game_id api_key.

Definition string_likes_env : env := plain_env (KeyContent "secret-key") string_likes_http.



Definition no_key_env : env := plain_env KeyMissing sample_http.

Definition empty_world : world := mk_world [] [] [] [] [] 0%nat.












Definition payloads_well_formed (e : env) (api_key : string) : Prop :=
  forall n game_id payload,
    http e n game_id api_key = HttpJson payload -> well_formed_response payload = true.


Definition payloads_storable (e : env) (api_key : string) : Prop :=
  forall n game_id payload,
    http e n game_id api_key = HttpJson payload -> storable_response payload = true.

(** The run returns normally and has called the remote endpoint once for
    every enumerated identifier, in order. *)
Definition calls_every_identifier (e : env) (admin_id : Z) (w : world) : Prop :=
  exists w',
    send_automatic_likes e admin_id w = (Ok None, w') /\
    api_calls w' = api_calls w ++
      map (fun p => (snd p, cycle_key e)) (enumerated_pairs (enumeration w)).

(** The run goes through the whole enumeration: it returns normally, has
    called the remote endpoint once for every enumerated identifier, in
    order, and has appended one audit row for every one of them, in order,
    whose [success] flag tells whether the response was a Success. *)
Definition processes_every_identifier (e : env) (admin_id : Z) (w : world) : Prop :=
  exists w' rows,
    send_automatic_likes e admin_id w = (Ok None, w') /\
    api_calls w' = api_calls w ++
      map (fun p => (snd p, cycle_key e)) (enumerated_pairs (enumeration w)) /\
    send_history w' = send_history w ++ rows /\
    map row_key rows = enumerated_pairs (enumeration w) /\
    map h_success rows = map outcome_success (run_responses e w).

(** The same environment with another fate for the calls to
    [bot.send_message]. *)
Definition with_telegram (e : env) (deliver : nat -> bool) : env :=
  mk_env (key_file e) (http e) deliver (now e)
         (numeric_text e) (real_sum e) (unicode_isdigit e).


(** The cycle without a credential: one notice for the administrator,
    nothing else sent, requested or written, and the empty result
    returned. *)
Definition aborts_with_empty_summary (e : env) (admin_id : Z) (w : world) : Prop :=
  exists w' delivered,
    send_automatic_likes e admin_id w = (Ok None, w') /\
    outbox w' = outbox w ++ [mk_sent admin_id ConfigErrorNotice delivered] /\
    api_calls w' = api_calls w /\
    send_history w' = send_history w /\
    game_ids w' = game_ids w.



(** ** The registrations behind an enumeration *)

(** The (user, identifier) pairs of the active registrations, in table order. *)
Definition active_pairs (table : list game_id_row) : list (Z * string) :=
  map (fun r => (g_telegram_id r, g_game_id r)) (filter g_active table).

Definition key_le (a b : Z * string) : Prop := fst a <= fst b.

Definition keys_below (tid : Z) (grouped : list (Z * list string)) : Prop :=
  Forall (fun u => fst u <= tid) grouped.

(** [users_ids.get(telegram_id, [])] on the grouped enumeration. *)
Definition ids_of (telegram_id : Z) (users_ids : list (Z * list string)) : list string :=
  flat_map (fun u => if fst u =? telegram_id then snd u else []) users_ids.

(** ** database.py: registering and removing identifiers *)

(** [add_game_id]: refuses a pair that already has an active row, otherwise
    inserts a row with the column defaults (no name, no send, total 0,
    active). *)
Definition add_game_id (e : env) (telegram_id : Z) (game_id : string) : M (bool * string) :=
  fun w =>
    if existsb (registration_of telegram_id game_id) (game_ids w)
    then (Ok (false, "❌ Este ID já está cadastrado na sua lista!"), w)
    else
      (ts <- datetime_now e ;;
       fun w1 =>
         (Ok (true, "✅ ID adicionado com sucesso! Likes serão enviados automaticamente à meia-noite."),
          mk_world (game_ids w1 ++
                      [mk_game_id_row telegram_id game_id JNull ts JNull 0 true])
                   (send_history w1) (outbox w1) (api_calls w1) (stdout w1) (clock w1))) w.

(** The [WHERE] clause of [remove_game_id]: the pair, active or not. *)
Definition same_pair (telegram_id : Z) (game_id : string) (r : game_id_row) : bool :=
  (g_telegram_id r =? telegram_id) && String.eqb (g_game_id r) game_id.

Definition deactivate (r : game_id_row) : game_id_row :=
  mk_game_id_row (g_telegram_id r) (g_game_id r) (g_player_name r) (g_added_at r)
                 (g_last_likes_sent r) (g_total_likes_received r) false.

(** [remove_game_id]: [UPDATE game_ids SET active = 0 WHERE telegram_id = ? AND game_id = ?] *)
Definition remove_game_id (telegram_id : Z) (game_id : string) : M bool :=
  fun w =>
    (Ok true,
     mk_world (map (fun r => if same_pair telegram_id game_id r then deactivate r else r)
                   (game_ids w))
              (send_history w) (outbox w) (api_calls w) (stdout w) (clock w)).

(** No pair has two active rows. *)
Definition unique_active (table : list game_id_row) : Prop :=
  NoDup (active_pairs table).

(** What a cycle may change in a row: name, last send and total, the total
    never downwards. *)
Definition same_registration (r r' : game_id_row) : Prop :=
  g_telegram_id r' = g_telegram_id r /\
  g_game_id r' = g_game_id r /\
  g_added_at r' = g_added_at r /\
  g_active r' = g_active r /\
  g_total_likes_received r <= g_total_likes_received r'.

(** ** What a run may change *)

(** From [w] to [w']: the rows of [game_ids] are the same registrations,
    the audit log, the calls and the messages have only grown. *)
Record evolves (w w' : world) : Prop := mk_evolves {
  ev_registrations : Forall2 same_registration (game_ids w) (game_ids w');
  ev_history : exists rows, send_history w' = send_history w ++ rows;
  ev_calls : exists calls, api_calls w' = api_calls w ++ calls;
  ev_outbox : exists msgs, outbox w' = outbox w ++ msgs;
  ev_clock : (clock w <= clock w')%nat
}.

Definition steady {A : Type} (c : M A) : Prop := forall w, evolves w (snd (c w)).

Ltac grown_with same :=
  split; cbn;
  [ apply same
  | first [ exists []; now rewrite app_nil_r | eexists; reflexivity ]
  | first [ exists []; now rewrite app_nil_r | eexists; reflexivity ]
  | first [ exists []; now rewrite app_nil_r | eexists; reflexivity ]
  | lia ].

(** ** The likes a run credits *)

Definition pair_eqb (p q : Z * string) : bool :=
  (fst p =? fst q) && String.eqb (snd p) (snd q).

(** The pairs served from call number [c] on, each with its raw response. *)
Fixpoint served_from (e : env) (api_key : string) (c : nat) (pairs : list (Z * string))
  : list ((Z * string) * pyval) :=
  match pairs with
  | [] => []
  | p :: rest =>
      (p, response_of (http e c (snd p) api_key)) :: served_from e api_key (S c) rest
  end.

(** The likes of the Success outcomes among [served] that are for pair [p]. *)
Definition credited (p : Z * string) (served : list ((Z * string) * pyval)) : Z :=
  sum_Z (map (fun s => if pair_eqb p (fst s) then outcome_likes (snd s) else 0) served).

Definition credit_of (served : list ((Z * string) * pyval)) (r : game_id_row) : Z :=
  if g_active r then credited (g_telegram_id r, g_game_id r) served else 0.

(** A total and what is added to it stay within the 64 bits of an SQLite
    integer. *)
Definition within_64_bits (total added : Z) : Prop :=
  int64 total = true /\ int64 (total + added) = true.

Definition credited_rows (served : list ((Z * string) * pyval))
  (table table' : list game_id_row) : Prop :=
  Forall2 (fun r r' =>
             same_registration r r' /\
             (within_64_bits (g_total_likes_received r) (credit_of served r) ->
              g_total_likes_received r' = g_total_likes_received r + credit_of served r))
          table table'.

Definition run_served (e : env) (w : world) : list ((Z * string) * pyval) :=
  served_from e (cycle_key e) (List.length (api_calls w)) (enumerated_pairs (enumeration w)).




Definition total_received (table : list game_id_row) : Z :=
  sum_Z (map g_total_likes_received table).

(** ** Two runs that differ in the deliveries only *)

(** A message without the fate of its delivery. *)
Definition undelivered (m : sent_message) : Z * message := (m_chat_id m, m_body m).

(** Two worlds with the same tables, calls, clock and messages passed to
    [bot.send_message]; the printed lines and the deliveries may differ. *)
Record agree (w1 w2 : world) : Prop := mk_agree {
  ag_game_ids : game_ids w1 = game_ids w2;
  ag_history : send_history w1 = send_history w2;
  ag_calls : api_calls w1 = api_calls w2;
  ag_clock : clock w1 = clock w2;
  ag_outbox : map undelivered (outbox w1) = map undelivered (outbox w2)
}.

Definition alike {A : Type} (c1 c2 : M A) : Prop :=
  forall w1 w2, agree w1 w2 ->
                fst (c1 w1) = fst (c2 w2) /\ agree (snd (c1 w1)) (snd (c2 w2)).

Definition alike_worlds {A : Type} (c1 c2 : M A) : Prop :=
  forall w1 w2, agree w1 w2 -> agree (snd (c1 w1)) (snd (c2 w2)).

(** ** Text helpers: [escape_markdown], [format_number], the masked key *)

Definition special_chars : list ascii :=
  ["_"; "*"; "["; "]"; "("; ")"; "~"; "`"; ">"; "#"; "+"; "-"; "="; "|"; "{"; "}";
   "."; "!"]%char.

Definition backslash : ascii := "\"%char.

(** [s.replace(c, '\\' + c)] for a one-character [c]. *)
Fixpoint replace_char (c : ascii) (s : string) : string :=
  match s with
  | EmptyString => EmptyString
  | String x rest =>
      if Ascii.eqb x c then String backslash (String c (replace_char c rest))
      else String x (replace_char c rest)
  end.

(** [escape_markdown] of scheduler.py (and its two copies,
    [escape_markdown_v2] of api_client.py and [escape_markdown] of bot.py),
    on a [str] argument. *)
Definition escape_markdown (text : string) : string :=
  if String.eqb text "" then "N/A"
  else fold_left (fun result c => replace_char c result) special_chars text.

Definition is_special (c : ascii) : bool := existsb (Ascii.eqb c) special_chars.

(** One pass over the text, a backslash put before each special character. *)
Fixpoint escape_each (specials : list ascii) (s : string) : string :=
  match s with
  | EmptyString => EmptyString
  | String x rest =>
      if existsb (Ascii.eqb x) specials
      then String backslash (String x (escape_each specials rest))
      else String x (escape_each specials rest)
  end.

(** On the digits from the right: a comma after every three digits that
    are followed by more. *)
Fixpoint group3 (rev_digits : list ascii) : list ascii :=
  match rev_digits with
  | a :: b :: c :: ((_ :: _) as rest) => a :: b :: c :: ","%char :: group3 rest
  | _ => rev_digits
  end.

Definition group_thousands (digits : string) : string :=
  string_of_list_ascii (rev (group3 (rev (list_ascii_of_string digits)))).

(** [f"{number:,}"] for an [int]. *)
Definition format_with_commas (number : Z) : string :=
  match Z.to_int number with
  | Decimal.Pos d => group_thousands (DecimalString.NilZero.string_of_uint d)
  | Decimal.Neg d => String "-" (group_thousands (DecimalString.NilZero.string_of_uint d))
  end.

(** [s.replace(",", ".")] *)
Fixpoint commas_to_dots (s : string) : string :=
  match s with
  | EmptyString => EmptyString
  | String x rest =>
      String (if Ascii.eqb x "," then "."%char else x) (commas_to_dots rest)
  end.

(** [format_number] of api_client.py, as text. *)
Definition format_number_text (number : Z) : string :=
  commas_to_dots (format_with_commas number).

Fixpoint without_dots (s : string) : string :=
  match s with
  | EmptyString => EmptyString
  | String x rest =>
      if Ascii.eqb x "." then without_dots rest else String x (without_dots rest)
  end.





(** One whitespace character at the start of a string, and what follows
    it. *)
Definition skip_space (s : string) : option string :=
  match s with
  | EmptyString => None
  | String c1 rest1 =>
      if is_space c1 then Some rest1
      else
        match rest1 with
        | EmptyString => None
        | String c2 rest2 =>
            if is_space2 c1 c2 then Some rest2
            else
              match rest2 with
              | EmptyString => None
              | String c3 rest3 => if is_space3 c1 c2 c3 then Some rest3 else None
              end
        end
  end.

(** Nothing but whitespace characters (the empty string included). *)
Fixpoint only_spaces (s : string) : bool :=
  match s with
  | EmptyString => true
  | String c1 rest1 =>
      if is_space c1 then only_spaces rest1
      else
        match rest1 with
        | EmptyString => false
        | String c2 rest2 =>
            if is_space2 c1 c2 then only_spaces rest2
            else
              match rest2 with
              | EmptyString => false
              | String c3 rest3 => if is_space3 c1 c2 c3 then only_spaces rest3 else false
              end
        end
  end.

Definition CR : ascii := ascii_of_nat 13.
Definition LF : ascii := ascii_of_nat 10.

Definition carriage_returns (s : string) : bool :=
  existsb (Ascii.eqb CR) (list_ascii_of_string s).

(** A file opened with ['r'] is read with universal newlines: a carriage
    return, together with the line feed that may follow it, is read as one
    line feed. *)
Fixpoint universal_newlines (s : string) : string :=
  match s with
  | EmptyString => EmptyString
  | String c rest =>
      if Ascii.eqb c CR then
        match rest with
        | String c2 rest2 =>
            if Ascii.eqb c2 LF then String LF (universal_newlines rest2)
            else String LF (universal_newlines rest)
        | EmptyString => String LF EmptyString
        end
      else String c (universal_newlines rest)
  end.

(** A file opened with ['w'] writes [os.linesep] for every line feed. *)
Inductive platform : Type := Posix | Windows.

Fixpoint write_newlines (p : platform) (s : string) : string :=
  match s with
  | EmptyString => EmptyString
  | String c rest =>
      if Ascii.eqb c LF then
        match p with
        | Posix => String LF (write_newlines p rest)
        | Windows => String CR (String LF (write_newlines p rest))
        end
      else String c (write_newlines p rest)
  end.

(** What [os.makedirs] and the write of [save_key] do: they go through, or
    one of them raises (the directory cannot be made, the file cannot be
    opened, the key cannot be encoded), leaving the file in some state. *)
Inductive write_outcome : Type :=
| Written
| WriteFails (x : exn) (remains : key_file_state).

(** [save_key]: the value returned, and the file afterwards, as a later
    [f.read()] gives it. *)
Definition save_key (p : platform) (o : write_outcome) (api_key : string)
  : M (bool * key_file_state) :=
  match o with
  | Written =>
      ret (true, KeyContent (universal_newlines (write_newlines p (strip api_key))))
  | WriteFails x remains => print (LogSaveKeyError x) ;; ret (false, remains)
  end.

Definition with_key_file (e : env) (f : key_file_state) : env :=
  mk_env f (http e) (telegram e) (now e)
         (numeric_text e) (real_sum e) (unicode_isdigit e).

(** The inverse of [escape_each] on its image: a backslash directly before
    a special character is dropped. *)
Fixpoint unescape (s : string) : string :=
  match s with
  | String x ((String y rest) as tail) =>
      if Ascii.eqb x backslash && is_special y
      then String y (unescape rest)
      else String x (unescape tail)
  | _ => s
  end.

Definition all_digits (l : list ascii) : Prop := Forall (fun c => is_digit c = true) l.

Definition comma_to_dot (c : ascii) : ascii := if Ascii.eqb c "," then "."%char else c.

(** The sign that [str] and the [,] format put before the digits. *)
Definition sign_of (number : Z) : list ascii :=
  match Z.to_int number with
  | Decimal.Pos _ => []
  | Decimal.Neg _ => ["-"%char]
  end.

(** ** bot.py: the handlers that write *)

(** The handlers [like_command], [broadcast_command], [addid_command] and
    [remove_callback] with [add_user] and [get_all_users] of database.py.  A handler runs on
    a [bot_state]: the [world] of the cycle, the table [users], and the
    calls made to Telegram in the conversation ([reply_text], [edit_text],
    [send_message], [query.answer]); whether the n-th such call goes through is read from
    [net].  A call that does not go through raises, and a handler passes on
    what it does not catch.  The texts are represented by their kind and
    data. *)

(** A row of the table [users]. *)
Record user_row : Type := mk_user_row {
  u_telegram_id : Z;
  u_username : pyval;
  u_registered_at : string;
  u_active : bool
}.

(** The texts the handlers send, by content. *)
Inductive bot_text : Type :=
| TxtLikeUsage
| TxtInvalidId
| TxtWaiting (game_id : string)
| TxtNotConfigured
| TxtSuccess (data : pyval)
| TxtPartial (data : pyval)
| TxtError (data : pyval) (game_id : string)
| TxtAdminOnly
| TxtBroadcastUsage
| TxtBroadcast (body : string)
| TxtBroadcastReport (sent failed total : Z)
| TxtAddUsage
| TxtAddInvalidId
| TxtAddResult (text : string)
| TxtNewUser (username : pyval) (user_id : Z) (game_id : string) (ts : string)
| TxtCancelled
| TxtRemoved (game_id : string)
| TxtRemoveError.

Inductive chat_action : Type :=
| ReplyText (t : bot_text)
| EditText (t : bot_text)
| SendMessage (chat_id : Z) (t : bot_text)
| AnswerCallback.

Inductive bot_line : Type :=
| LineBroadcastError (telegram_id : Z) (x : exn)
| LineAdminNotifyError (x : exn).

(** The state the handlers work on: the world of the cycle, the table
    [users], what was asked of Telegram (with whether it went through) and
    what the handlers printed. *)
Record bot_state : Type := mk_bot {
  b_world : world;
  b_users : list user_row;
  b_chat : list (chat_action * bool);
  b_printed : list bot_line
}.

Definition B (A : Type) : Type := bot_state -> outcome A * bot_state.

Definition retB {A} (a : A) : B A := fun s => (Ok a, s).

Definition bindB {A C} (c : B A) (k : A -> B C) : B C :=
  fun s => match c s with
           | (Ok a, s') => k a s'
           | (Raise x, s') => (Raise x, s')
           end.

Definition in_world {A} (c : M A) : B A :=
  fun s => match c (b_world s) with
           | (r, w') => (r, mk_bot w' (b_users s) (b_chat s) (b_printed s))
           end.

Definition try_exceptB (c : B unit) (h : exn -> B unit) : B unit :=
  fun s => match c s with
           | (Ok tt, s') => (Ok tt, s')
           | (Raise x, s') => h x s'
           end.

Definition printB (l : bot_line) : B unit :=
  fun s => (Ok tt, mk_bot (b_world s) (b_users s) (b_chat s) (b_printed s ++ [l])).

(** One call to Telegram ([reply_text], [edit_text] or [send_message]); the
    [net] tells whether the n-th call goes through. *)
Definition chat (net : nat -> bool) (a : chat_action) : B unit :=
  fun s =>
    let ok := net (List.length (b_chat s)) in
    let s' := mk_bot (b_world s) (b_users s) (b_chat s ++ [(a, ok)]) (b_printed s) in
    if ok then (Ok tt, s') else (Raise TelegramError, s').

Declare Scope bot_scope.
Delimit Scope bot_scope with bot.
Notation "x <- c ;; k" := (bindB c (fun x => k))
  (at level 100, c at next level, right associativity) : bot_scope.
Notation "c ;; k" := (bindB c (fun _ => k))
  (at level 100, right associativity) : bot_scope.

Definition is_ascii (c : ascii) : bool := (nat_of_ascii c <? 128)%nat.

(** [game_id.isdigit()]: there is a character, and all characters are
    digits.  The ASCII digits are [0] to [9]; whether the characters beyond
    ASCII are all digits (as the Arabic-Indic ones or the superscripts are)
    is for [unicode_isdigit] to say. *)
Definition isdigit (e : env) (s : string) : bool :=
  negb (String.eqb s "")
  && forallb (fun c => is_digit c || negb (is_ascii c)) (list_ascii_of_string s)
  && (forallb is_ascii (list_ascii_of_string s) || unicode_isdigit e s).

(** [add_user] of database.py. *)
Definition add_user (e : env) (telegram_id : Z) (username : pyval) : B bool :=
  (fun s =>
     if existsb (fun u => u_telegram_id u =? telegram_id) (b_users s)
     then (Ok false, s)
     else
       (ts <- in_world (datetime_now e) ;;
        fun s1 =>
          (Ok true,
           mk_bot (b_world s1)
                  (b_users s1 ++ [mk_user_row telegram_id username ts true])
                  (b_chat s1) (b_printed s1))) s)%bot.

(** [get_all_users] of database.py: the telegram ids of the active users. *)
Definition get_all_users : B (list user_row) :=
  fun s => (Ok (filter u_active (b_users s)), s).

(** [format_success_message] and [format_partial_message] of api_client.py
    format three counts with [format_number]; [format_error_message] cannot
    raise. *)
Definition format_counts (data : pyval) : outcome unit :=
  match py_get data "initialLikes" (JNum 0), py_get data "finalLikes" (JNum 0),
        py_get data "exp" (JNum 0) with
  | Ok initial_v, Ok final_v, Ok exp_v =>
      match format_number initial_v with
      | Raise x => Raise x
      | Ok _ =>
      match format_number final_v with
      | Raise x => Raise x
      | Ok _ =>
      match format_number exp_v with
      | Raise x => Raise x
      | Ok _ => Ok tt
      end end end
  | _, _, _ => Raise AttributeError
  end.

Definition format_success_message (data : pyval) : outcome bot_text :=
  match format_counts data with
  | Ok _ => Ok (TxtSuccess data)
  | Raise x => Raise x
  end.

Definition format_partial_message (data : pyval) : outcome bot_text :=
  match format_counts data with
  | Ok _ => Ok (TxtPartial data)
  | Raise x => Raise x
  end.

Definition format_error_message (data : pyval) (game_id : string) : outcome bot_text :=
  match py_get data "error" (JStr "unknown") with
  | Ok _ => Ok (TxtError data game_id)
  | Raise x => Raise x
  end.

(** The integer bound to the [?] of [update_game_id_info]; the value has
    passed the comparison with the minimum when this is used. *)
Definition sql_int (v : pyval) : Z :=
  match py_num v with Some n => n | None => 0 end.

(** The [if]/[elif]/[else] of [like_command]: the tables are written, then
    the text of the answer is built. *)
Definition like_outcome (e : env) (user_id : Z) (game_id : string) (response : pyval)
  : M bot_text :=
  is_success <- lift (success_rule response) ;;
  if is_success : bool then
    likes_added <- lift (py_get response "likesAdded" (JNum 0)) ;;
    player_name <- lift (py_get response "player" (JStr "N/A")) ;;
    update_game_id_info e user_id game_id player_name (sql_int likes_added) ;;
    log_send e user_id game_id likes_added true JNull player_name false ;;
    lift (format_success_message response)
  else
    is_partial <- lift (partial_rule response) ;;
    if is_partial : bool then
      likes_added <- lift (py_get response "likesAdded" (JNum 0)) ;;
      player_name <- lift (py_get response "player" (JStr "N/A")) ;;
      log_send e user_id game_id likes_added false (JStr "Menos de 100 likes")
               player_name false ;;
      lift (format_partial_message response)
    else
      error_msg <- lift (py_get response "message" (JStr "Erro desconhecido")) ;;
      log_send e user_id game_id (JNum 0) false error_msg JNull false ;;
      lift (format_error_message response game_id).

(** [like_command]: [/like ID], the manual send. *)
Definition like_command (e : env) (net : nat -> bool) (user_id : Z) (args : list string)
  : B unit :=
  (match args with
   | [] => chat net (ReplyText TxtLikeUsage)
   | game_id :: _ =>
       if negb (isdigit e game_id) then chat net (ReplyText TxtInvalidId)
       else
         chat net (ReplyText (TxtWaiting game_id)) ;;
         api_key <- in_world (load_key e) ;;
         if key_missing api_key then chat net (EditText TxtNotConfigured)
         else
           let key := match api_key with Some k => k | None => "" end in
           response <- in_world (send_likes e game_id key) ;;
           message <- in_world (like_outcome e user_id game_id response) ;;
           chat net (EditText message)
   end)%bot.

(** The loop of [broadcast_command]: one try per user, counting. *)
Fixpoint broadcast_loop (net : nat -> bool) (body : string) (users : list user_row)
  (success_count failure_count : Z) : B (Z * Z) :=
  (match users with
   | [] => retB (success_count, failure_count)
   | user :: rest =>
       fun s =>
         match chat net (SendMessage (u_telegram_id user) (TxtBroadcast body)) s with
         | (Ok _, s1) => broadcast_loop net body rest (success_count + 1) failure_count s1
         | (Raise x, s1) =>
             (printB (LineBroadcastError (u_telegram_id user) x) ;;
              broadcast_loop net body rest success_count (failure_count + 1)) s1
         end
   end)%bot.

(** [broadcast_command]: [/broadcast text], for the administrator. *)
Definition broadcast_command (net : nat -> bool) (admin_id user_id : Z) (args : list string)
  : B unit :=
  (if negb (user_id =? admin_id) then chat net (ReplyText TxtAdminOnly)
   else
     match args with
     | [] => chat net (ReplyText TxtBroadcastUsage)
     | _ :: _ =>
         let broadcast_message := String.concat " " args in
         users <- get_all_users ;;
         counts <- broadcast_loop net broadcast_message users 0 0 ;;
         chat net (ReplyText (TxtBroadcastReport (fst counts) (snd counts)
                                                 (Z.of_nat (List.length users))))
     end)%bot.

(** [addid_command]: [/addid ID]. *)
Definition addid_command (e : env) (net : nat -> bool) (admin_id user_id : Z)
  (username : pyval) (args : list string) : B unit :=
  (match args with
   | [] => chat net (ReplyText TxtAddUsage)
   | game_id :: _ =>
       if negb (isdigit e game_id) then chat net (ReplyText TxtAddInvalidId)
       else
         is_new_user <- add_user e user_id username ;;
         added <- in_world (add_game_id e user_id game_id) ;;
         chat net (ReplyText (TxtAddResult (snd added))) ;;
         if (is_new_user : bool) && fst added then
           try_exceptB
             (ts <- in_world (datetime_now e) ;;
              chat net (SendMessage admin_id (TxtNewUser username user_id game_id ts)))
             (fun x => printB (LineAdminNotifyError x))
         else retB tt
   end)%bot.

(** [s.replace(old, "")] for a non-empty [old]: the occurrences are taken
    from the left and do not overlap; [skip] counts the characters still to
    drop of the occurrence at hand. *)
Fixpoint drop_occurrences (old : string) (skip : nat) (s : string) : string :=
  match s with
  | EmptyString => EmptyString
  | String c rest =>
      match skip with
      | S k => drop_occurrences old k rest
      | O =>
          if String.prefix old s
          then drop_occurrences old (String.length old - 1) rest
          else String c (drop_occurrences old 0 rest)
      end
  end.

(** The [callback_data] that [removeids_command] puts on the button of an
    identifier: [f"remove_{gid}"]. *)
Definition remove_button (gid : string) : string := String.append "remove_" gid.

(** [remove_callback]: a button of [/removeids] was pressed. *)
Definition remove_callback (net : nat -> bool) (user_id : Z) (callback_data : string)
  : B unit :=
  (chat net AnswerCallback ;;
   if String.eqb callback_data "remove_cancel" then chat net (EditText TxtCancelled)
   else if String.prefix "remove_" callback_data then
     let game_id := drop_occurrences "remove_" 0 callback_data in
     success <- in_world (remove_game_id user_id game_id) ;;
     if success : bool then chat net (EditText (TxtRemoved game_id))
     else chat net (EditText TxtRemoveError)
   else retB tt)%bot.

Definition manual_row (h : history_row) : history_row :=
  mk_history_row (h_telegram_id h) (h_game_id h) (h_likes_sent h) (h_success h)
                 (h_error_message h) (h_player_name h) (h_timestamp h) false.

(** ** The manual send next to the automatic one *)

(** The request and the branches, as [like_command] runs them once the key
    is read. *)
Definition manual_step (e : env) (api_key : string) (user_id : Z) (game_id : string)
  : M bot_text :=
  response <- send_likes e game_id api_key ;;
  like_outcome e user_id game_id response.

Definition text_is_success (t : bot_text) : bool :=
  match t with TxtSuccess _ => true | _ => false end.

(** The state a handler leaves when only its conversation grew. *)
Definition said (s : bot_state) (w : world) (lines : list (chat_action * bool)) : bot_state :=
  mk_bot w (b_users s) (b_chat s ++ lines) (b_printed s).

(** The table [users] has one row per telegram id (its primary key). *)
Definition users_keyed (users : list user_row) : Prop :=
  NoDup (map u_telegram_id users).

(** The attempts of a broadcast, the first of which is call number [n]. *)
Fixpoint attempts (net : nat -> bool) (body : string) (n : nat) (users : list user_row)
  : list (chat_action * bool) :=
  match users with
  | [] => []
  | u :: rest =>
      (SendMessage (u_telegram_id u) (TxtBroadcast body), net n)
        :: attempts net body (S n) rest
  end.

Definition failed_lines (sends : list (chat_action * bool)) : list bot_line :=
  flat_map (fun p => match p with
                     | (SendMessage tid _, false) => [LineBroadcastError tid TelegramError]
                     | _ => []
                     end) sends.

(** What [addid_command] prints for a valid identifier: one line, when
    the answer went out, the caller and the registration are new, and the
    note to the administrator does not go through. *)
Definition addid_lines (net : nat -> bool) (user_id : Z) (game_id : string)
  (s : bot_state) : list bot_line :=
  if net (List.length (b_chat s)) then
    if negb (existsb (fun u => u_telegram_id u =? user_id) (b_users s))
       && negb (existsb (registration_of user_id game_id) (game_ids (b_world s)))
    then if net (S (List.length (b_chat s))) then []
         else [LineAdminNotifyError TelegramError]
    else []
  else [].

(** Users 1 and 2 are active, user 3 has left. *)
Definition sample_bot : bot_state :=
  mk_bot sample_world
         [mk_user_row 1 (JStr "ana") "01/01/2025 09:00:00" true;
          mk_user_row 2 JNull "01/01/2025 09:30:00" true;
          mk_user_row 3 (JStr "old_user") "01/01/2025 09:45:00" false]
         [] [].

(** What a handler stored or requested. *)
Definition stored (w : world)
  : list game_id_row * list history_row * list (string * string) :=
  (game_ids w, send_history w, api_calls w).

(** * Properties *)

(** ** Reading the rules *)

Lemma py_num_at_least (v : pyval) (n : Z) :
  py_num v = Some n -> MIN_LIKES_REQUIRED <= n -> v = JNum n.
Proof.
  unfold MIN_LIKES_REQUIRED.
  destruct v as [ | [|] | m | | | ]; simpl; intros H Hn;
    inversion H; subst; try lia; reflexivity.
Qed.

Lemma success_rule_true (r : pyval) :
  success_rule r = Ok true ->
  exists fields n,
    r = JObj fields /\
    py_truthy (dict_get fields "success" JNull) = true /\
    dict_get fields "likesAdded" (JNum 0) = JNum n /\
    MIN_LIKES_REQUIRED <= n.
Proof.
  unfold success_rule, py_get, py_ge.
  destruct r as [ | | | | | fields]; try discriminate.
  destruct (py_truthy (dict_get fields "success" JNull)) eqn:Ht; try discriminate.
  destruct (py_num (dict_get fields "likesAdded" (JNum 0))) as [n|] eqn:Hn;
    try discriminate.
  intros H. injection H as Hle. apply Z.leb_le in Hle.
  exists fields, n. repeat split; auto.
  apply py_num_at_least; assumption.
Qed.


Lemma rule_is_dict (r : pyval) (b : bool) :
  success_rule r = Ok b -> exists fields, r = JObj fields.
Proof.
  destruct r; simpl; try discriminate. intros _. eexists. reflexivity.
Qed.

Lemma partial_rule_true (r : pyval) :
  partial_rule r = Ok true ->
  exists fields,
    r = JObj fields /\
    py_truthy (dict_get fields "success" JNull) = false /\
    dict_get fields "error" JNull = JStr "INSUFFICIENT_LIKES".
Proof.
  unfold partial_rule, py_get.
  destruct r as [ | | | | | fields]; try discriminate.
  destruct (py_truthy (dict_get fields "success" JNull)) eqn:Ht; simpl;
    try discriminate.
  intros H. injection H as He. exists fields. repeat split; auto.
  destruct (dict_get fields "error" JNull); simpl in He; try discriminate.
  apply String.eqb_eq in He. now subst.
Qed.

(** ** The two accessors that write *)

Lemma integer_affinity_reads_decimal e :
  integer_affinity e (JStr "30") = JNum 30 /\
  integer_affinity e (JStr "-7") = JNum (-7) /\
  integer_affinity e (JStr "3 0") = numeric_text e "3 0".
Proof. split; [reflexivity|]. split; reflexivity. Qed.

Lemma bind_parameters_ok (vs : list pyval) :
  forallb bindable vs = true -> bind_parameters vs = Ok tt.
Proof.
  induction vs as [|v vs IH]; [reflexivity|].
  cbn [forallb bind_parameters]. intros H. apply andb_true_iff in H as [Hv Hvs].
  unfold bindable in Hv. destruct (bind_parameter v) as [[]|x]; [|discriminate].
  exact (IH Hvs).
Qed.

Lemma bind_parameters_raises (vs : list pyval) :
  forallb bindable vs = false -> exists x, bind_parameters vs = Raise x.
Proof.
  induction vs as [|v vs IH]; [discriminate|].
  cbn [forallb bind_parameters]. unfold bindable at 1.
  destruct (bind_parameter v) as [[]|x]; [|intros _; eexists; reflexivity].
  exact IH.
Qed.

Lemma update_game_id_info_run e telegram_id game_id player n w :
  update_game_id_info e telegram_id game_id player n w =
    (Ok tt,
     mk_world (updated_table e telegram_id game_id player (now e (clock w)) n (game_ids w))
              (send_history w) (outbox w) (api_calls w)
              (stdout w ++ update_errors player n) (S (clock w))).
Proof.
  unfold update_game_id_info, updated_table, update_errors, bind, datetime_now, print.
  destruct (bind_parameters [player; JNum n]) as [[]|x];
    cbn [game_ids send_history outbox api_calls stdout clock];
    rewrite ?app_nil_r; reflexivity.
Qed.

Lemma log_send_run e telegram_id game_id likes success err player is_auto w :
  log_send e telegram_id game_id likes success err player is_auto w =
    (Ok tt,
     mk_world (game_ids w)
              (send_history w ++
                 stored_rows e telegram_id game_id likes success err player
                             (now e (clock w)) is_auto)
              (outbox w) (api_calls w)
              (stdout w ++ history_errors likes err player) (S (clock w))).
Proof.
  unfold log_send, stored_rows, history_errors, bind, datetime_now, print.
  destruct (bind_parameters [likes; err; player]) as [[]|x];
    cbn [game_ids send_history outbox api_calls stdout clock];
    rewrite ?app_nil_r; reflexivity.
Qed.

Lemma notify_errors_app a b : notify_errors (a ++ b) = notify_errors a ++ notify_errors b.
Proof. unfold notify_errors. apply flat_map_app. Qed.

Lemma update_errors_quiet player n : notify_errors (update_errors player n) = [].
Proof. unfold update_errors. destruct (bind_parameters _); reflexivity. Qed.

Lemma history_errors_quiet likes err player :
  notify_errors (history_errors likes err player) = [].
Proof. unfold history_errors. destruct (bind_parameters _); reflexivity. Qed.

Lemma stored_rows_spec e telegram_id game_id likes success err player ts is_auto
      (P : history_row -> Prop) :
  P (logged_row e telegram_id game_id likes success err player ts is_auto) ->
  Forall P (stored_rows e telegram_id game_id likes success err player ts is_auto).
Proof.
  intros H. unfold stored_rows. destruct (bind_parameters _); repeat constructor.
  exact H.
Qed.

Lemma stored_rows_bound e telegram_id game_id likes success err player ts is_auto :
  bind_parameters [likes; err; player] = Ok tt ->
  stored_rows e telegram_id game_id likes success err player ts is_auto
  = [logged_row e telegram_id game_id likes success err player ts is_auto].
Proof. intros H. unfold stored_rows. now rewrite H. Qed.

Lemma updated_table_bound e telegram_id game_id player ts n table :
  bind_parameters [player; JNum n] = Ok tt ->
  updated_table e telegram_id game_id player ts n table
  = map (fun r => if registration_of telegram_id game_id r
                  then update_row e player ts n r else r) table.
Proof. intros H. unfold updated_table. now rewrite H. Qed.

(** ** The three branches of the loop body *)

Lemma process_game_id_success e api_key telegram_id game_id l w fields n :
  raw_response e w game_id api_key = JObj fields ->
  success_rule (JObj fields) = Ok true ->
  dict_get fields "likesAdded" (JNum 0) = JNum n ->
  let w1 := after_call game_id api_key telegram_id w in
  let player := dict_get fields "player" (JStr "N/A") in
  process_game_id e api_key telegram_id game_id l w =
    (Ok (mk_locals (total_likes_sent l + n) (total_successes l + 1) (total_failures l)
                   (user_results l ++ [mk_result StSuccess game_id (JObj fields)])),
     mk_world
       (updated_table e telegram_id game_id player (now e (clock w)) n (game_ids w))
       (send_history w ++
          stored_rows e telegram_id game_id (JNum n) true JNull player
                      (now e (S (clock w))) true)
       (outbox w) (api_calls w1)
       ((stdout w1 ++ update_errors player n) ++ history_errors (JNum n) JNull player)
       (S (S (clock w)))).
Proof.
  unfold raw_response. intros Hr Hs Hn.
  unfold process_game_id. unfold bind at 1. unfold print at 1.
  unfold bind at 1. unfold send_likes at 1.
  cbn [game_ids send_history outbox api_calls stdout clock].
  rewrite Hr. unfold bind at 1. unfold lift at 1. rewrite Hs.
  unfold bind at 1. unfold lift at 1. cbn [py_get]. rewrite Hn.
  unfold bind at 1. unfold lift at 1. cbn [py_num].
  unfold bind at 1. rewrite update_game_id_info_run.
  unfold bind at 1. rewrite log_send_run. reflexivity.
Qed.

Lemma process_game_id_partial e api_key telegram_id game_id l w fields :
  raw_response e w game_id api_key = JObj fields ->
  success_rule (JObj fields) = Ok false ->
  partial_rule (JObj fields) = Ok true ->
  let w1 := after_call game_id api_key telegram_id w in
  let likes := dict_get fields "likesAdded" (JNum 0) in
  let player := dict_get fields "player" (JStr "N/A") in
  process_game_id e api_key telegram_id game_id l w =
    (Ok (mk_locals (total_likes_sent l) (total_successes l) (total_failures l + 1)
                   (user_results l ++ [mk_result StPartial game_id (JObj fields)])),
     mk_world
       (game_ids w)
       (send_history w ++
          stored_rows e telegram_id game_id likes false (JStr "Menos de 100 likes") player
                      (now e (clock w)) true)
       (outbox w) (api_calls w1)
       (stdout w1 ++ history_errors likes (JStr "Menos de 100 likes") player)
       (S (clock w))).
Proof.
  unfold raw_response. intros Hr Hs Hp.
  unfold process_game_id. unfold bind at 1. unfold print at 1.
  unfold bind at 1. unfold send_likes at 1.
  cbn [game_ids send_history outbox api_calls stdout clock].
  rewrite Hr. unfold bind at 1. unfold lift at 1. rewrite Hs.
  unfold bind at 1. unfold lift at 1. rewrite Hp.
  unfold bind at 1. unfold lift at 1. cbn [py_get].
  unfold bind at 1. unfold lift at 1.
  unfold bind at 1. rewrite log_send_run. reflexivity.
Qed.

Lemma process_game_id_error e api_key telegram_id game_id l w fields :
  raw_response e w game_id api_key = JObj fields ->
  success_rule (JObj fields) = Ok false ->
  partial_rule (JObj fields) = Ok false ->
  let w1 := after_call game_id api_key telegram_id w in
  let message := dict_get fields "message" (JStr "Erro desconhecido") in
  process_game_id e api_key telegram_id game_id l w =
    (Ok (mk_locals (total_likes_sent l) (total_successes l) (total_failures l + 1)
                   (user_results l ++ [mk_result StError game_id (JObj fields)])),
     mk_world
       (game_ids w)
       (send_history w ++
          stored_rows e telegram_id game_id (JNum 0) false message JNull
                      (now e (clock w)) true)
       (outbox w) (api_calls w1)
       (stdout w1 ++ history_errors (JNum 0) message JNull)
       (S (clock w))).
Proof.
  unfold raw_response. intros Hr Hs Hp.
  unfold process_game_id. unfold bind at 1. unfold print at 1.
  unfold bind at 1. unfold send_likes at 1.
  cbn [game_ids send_history outbox api_calls stdout clock].
  rewrite Hr. unfold bind at 1. unfold lift at 1. rewrite Hs.
  unfold bind at 1. unfold lift at 1. rewrite Hp.
  unfold bind at 1. unfold lift at 1. cbn [py_get].
  unfold bind at 1. rewrite log_send_run. reflexivity.
Qed.

Lemma process_game_id_raise e api_key telegram_id game_id l w x :
  success_rule (raw_response e w game_id api_key) = Raise x ->
  process_game_id e api_key telegram_id game_id l w =
    (Raise x, after_call game_id api_key telegram_id w).
Proof.
  unfold raw_response. intros Hs.
  unfold process_game_id, bind, print, send_likes, lift; simpl.
  rewrite Hs. reflexivity.
Qed.

(** ** What one iteration leaves behind *)

Lemma partial_rule_dict (fields : list (string * pyval)) :
  exists b, partial_rule (JObj fields) = Ok b.
Proof.
  unfold partial_rule, py_get.
  destruct (negb (py_truthy (dict_get fields "success" JNull))); eexists; reflexivity.
Qed.

Lemma after_call_quiet game_id api_key telegram_id w :
  exists lines,
    stdout (after_call game_id api_key telegram_id w) = stdout w ++ lines /\
    notify_errors lines = [].
Proof. eexists. split; reflexivity. Qed.

Lemma process_game_id_ok e api_key telegram_id game_id l w l' w' :
  process_game_id e api_key telegram_id game_id l w = (Ok l', w') ->
  exists r rows, step_post e api_key telegram_id game_id l w l' w' r rows.
Proof.
  intros Hrun.
  destruct (success_rule (raw_response e w game_id api_key)) as [[|]|x] eqn:Hs.
  - destruct (success_rule_true _ Hs) as (fields & n & Hr & _ & Hn & Hmin).
    rewrite Hr in Hs.
    rewrite (process_game_id_success e api_key telegram_id game_id l w fields n Hr Hs Hn)
      in Hrun.
    injection Hrun as <- <-.
    assert (Hos : outcome_success (JObj fields) = true)
      by (unfold outcome_success; now rewrite Hs).
    assert (Hol : outcome_likes (JObj fields) = n)
      by (unfold outcome_likes; rewrite Hs; cbn [py_get]; now rewrite Hn).
    eexists. eexists. split; cbn [user_results total_likes_sent total_successes
      total_failures r_game_id r_data r_status game_ids send_history outbox api_calls
      stdout clock is_success after_call]; rewrite ?Hr, ?Hos, ?Hol; try reflexivity; try (cbn; lia).
    + exact Hs.
    + apply stored_rows_spec. repeat split.
    + intros Hst. unfold storable_response in Hst. rewrite Hs in Hst.
      apply andb_true_iff in Hst as [Hl Hp]. rewrite Hn in Hl.
      rewrite stored_rows_bound; [reflexivity|].
      apply bind_parameters_ok. cbn [forallb]. now rewrite Hl, Hp.
    + eexists. split; [rewrite <- !app_assoc; reflexivity|].
      rewrite !notify_errors_app, update_errors_quiet, history_errors_quiet. reflexivity.
  - destruct (rule_is_dict _ _ Hs) as [fields Hr]. rewrite Hr in Hs.
    assert (Hos : outcome_success (JObj fields) = false)
      by (unfold outcome_success; now rewrite Hs).
    assert (Hol : outcome_likes (JObj fields) = 0)
      by (unfold outcome_likes; now rewrite Hs).
    destruct (partial_rule_dict fields) as [[|] Hp].
    + rewrite (process_game_id_partial e api_key telegram_id game_id l w fields Hr Hs Hp)
        in Hrun.
      injection Hrun as <- <-.
      eexists. eexists. split; cbn [user_results total_likes_sent total_successes
        total_failures r_game_id r_data r_status game_ids send_history outbox api_calls
        stdout clock is_success after_call]; rewrite ?Hr, ?Hos, ?Hol, ?Z.add_0_r;
        try reflexivity; try (cbn; lia).
      * exact Hs.
      * apply stored_rows_spec. repeat split.
      * intros Hst. unfold storable_response in Hst. rewrite Hs, Hp in Hst.
        apply andb_true_iff in Hst as [Hl Hpl].
        rewrite stored_rows_bound; [reflexivity|].
        apply bind_parameters_ok. cbn [forallb]. now rewrite Hl, Hpl.
      * eexists. split; [rewrite <- !app_assoc; reflexivity|].
        rewrite !notify_errors_app, history_errors_quiet. reflexivity.
    + rewrite (process_game_id_error e api_key telegram_id game_id l w fields Hr Hs Hp)
        in Hrun.
      injection Hrun as <- <-.
      eexists. eexists. split; cbn [user_results total_likes_sent total_successes
        total_failures r_game_id r_data r_status game_ids send_history outbox api_calls
        stdout clock is_success after_call]; rewrite ?Hr, ?Hos, ?Hol, ?Z.add_0_r;
        try reflexivity; try (cbn; lia).
      * exact Hs.
      * apply stored_rows_spec. repeat split.
      * intros Hst. unfold storable_response in Hst. rewrite Hs, Hp in Hst.
        rewrite stored_rows_bound; [reflexivity|].
        apply bind_parameters_ok. cbn [forallb]. now rewrite Hst.
      * eexists. split; [rewrite <- !app_assoc; reflexivity|].
        rewrite !notify_errors_app, history_errors_quiet. reflexivity.
  - rewrite (process_game_id_raise e api_key telegram_id game_id l w x Hs) in Hrun.
    discriminate.
Qed.

Lemma well_formed_rule (v : pyval) :
  well_formed_response v = true -> exists b, success_rule v = Ok b.
Proof.
  destruct v as [ | | | | | fields]; simpl; try discriminate.
  unfold success_rule, py_get, py_ge.
  destruct (py_truthy (dict_get fields "success" JNull)); simpl.
  - destruct (dict_get fields "likesAdded" (JNum 0)); simpl; try discriminate;
      intros _; eexists; reflexivity.
  - intros _. eexists; reflexivity.
Qed.

Lemma transport_failure_well_formed (o : http_outcome) :
  (forall payload, o <> HttpJson payload) ->
  well_formed_response (response_of o) = true.
Proof.
  destruct o; simpl; intros H; try reflexivity. now contradiction (H payload).
Qed.

Lemma process_game_id_total e api_key telegram_id game_id l w :
  well_formed_response (raw_response e w game_id api_key) = true ->
  exists l' w', process_game_id e api_key telegram_id game_id l w = (Ok l', w').
Proof.
  intros Hwf. destruct (well_formed_rule _ Hwf) as [b Hs].
  destruct (rule_is_dict _ _ Hs) as [fields Hr]. rewrite Hr in Hs.
  destruct b.
  - assert (Hs' := Hs). rewrite <- Hr in Hs'.
    destruct (success_rule_true _ Hs') as (fields' & n & Hr' & _ & Hn & _).
    rewrite Hr in Hr'. injection Hr' as <-.
    rewrite (process_game_id_success e api_key telegram_id game_id l w fields n Hr Hs Hn).
    eexists; eexists; reflexivity.
  - destruct (partial_rule_dict fields) as [[|] Hp].
    + rewrite (process_game_id_partial e api_key telegram_id game_id l w fields Hr Hs Hp).
      eexists; eexists; reflexivity.
    + rewrite (process_game_id_error e api_key telegram_id game_id l w fields Hr Hs Hp).
      eexists; eexists; reflexivity.
Qed.

(** ** The inner loop *)

Lemma audited_likes_app (a b : list history_row) :
  audited_likes (a ++ b) = audited_likes a + audited_likes b.
Proof. induction a as [|h a IH]; simpl; [reflexivity | rewrite IH; lia]. Qed.

Lemma count_rows_app (s : bool) (a b : list history_row) :
  count_rows s (a ++ b) = count_rows s a + count_rows s b.
Proof. induction a as [|h a IH]; simpl; [reflexivity | rewrite IH; lia]. Qed.

Lemma count_rows_total (rows : list history_row) :
  count_rows true rows + count_rows false rows = Z.of_nat (List.length rows).
Proof.
  induction rows as [|h rows IH]; [reflexivity|].
  cbn [count_rows fold_right List.length]. fold (count_rows true rows).
  fold (count_rows false rows). destruct (h_success h); simpl Bool.eqb; lia.
Qed.

Lemma sum_Z_app (a b : list Z) : sum_Z (a ++ b) = sum_Z a + sum_Z b.
Proof. induction a as [|x a IH]; simpl; [reflexivity | rewrite IH; lia]. Qed.

Lemma count_true_app (a b : list bool) :
  count_true (a ++ b) = count_true a + count_true b.
Proof. induction a as [|x a IH]; simpl; [reflexivity | rewrite IH; lia]. Qed.

Lemma sum_Z_cons (x : Z) (l : list Z) : sum_Z (x :: l) = x + sum_Z l.
Proof. reflexivity. Qed.

Lemma count_true_cons (b : bool) (l : list bool) :
  count_true (b :: l) = (if b then 1 else 0) + count_true l.
Proof. reflexivity. Qed.

Lemma process_game_ids_ok e api_key telegram_id ids :
  forall l w l' w',
    process_game_ids e api_key telegram_id ids l w = (Ok l', w') ->
    exists rs rows, inner_post e api_key telegram_id ids l w l' w' rs rows.
Proof.
  induction ids as [|game_id rest IH]; intros l w l' w' Hrun.
  - injection Hrun as <- <-. exists [], [].
    split; cbn [map responses_from sum_Z count_true fold_right];
      rewrite ?app_nil_r, ?Z.add_0_r; auto.
    exists []. split; [now rewrite app_nil_r | reflexivity].
  - cbn [process_game_ids] in Hrun. unfold bind in Hrun.
    destruct (process_game_id e api_key telegram_id game_id l w) as [[l1|x] w1] eqn:Hstep;
      [|discriminate].
    destruct (process_game_id_ok _ _ _ _ _ _ _ _ Hstep) as (r & rows1 & S1).
    destruct (IH _ _ _ _ Hrun) as (rs & rows & S2).
    destruct S1, S2.
    destruct sp_stdout0 as (lines1 & Hout1 & Hq1).
    destruct ip_stdout0 as (lines2 & Hout2 & Hq2).
    rewrite sp_calls0, length_app, Nat.add_1_r in ip_rows0, ip_likes0, ip_successes0,
      ip_failures0.
    unfold raw_response in *.
    exists (r :: rs), (rows1 ++ rows). split; cbn [map responses_from].
    + rewrite ip_results0, sp_results0, <- app_assoc. reflexivity.
    + congruence.
    + constructor; [|assumption]. split; [assumption|].
      rewrite sp_data0, sp_game_id0. eexists. reflexivity.
    + rewrite ip_history0, sp_history0, <- app_assoc. reflexivity.
    + apply Forall_app. split; [|assumption].
      eapply Forall_impl; [|exact sp_rows0]. now intros row (_ & Ha & _).
    + intros Hst. destruct (ip_rows0 Hst) as (Hk & Hs & Hl).
      specialize (sp_stored0 (Hst _ _)).
      destruct rows1 as [|row [|row' rows1]]; try discriminate.
      inversion sp_rows0 as [|? ? (Hrk & _ & Hrs & Hrl) _]; subst.
      cbn [app map]. rewrite Hk, Hs, Hl, Hrk, Hrs, Hrl. repeat split.
    + rewrite ip_calls0, sp_calls0, <- app_assoc. reflexivity.
    + congruence.
    + exists (lines1 ++ lines2). split.
      * rewrite Hout2, Hout1, app_assoc. reflexivity.
      * rewrite notify_errors_app, Hq1, Hq2. reflexivity.
    + rewrite ip_likes0, sp_likes0, sum_Z_cons. lia.
    + rewrite ip_successes0, sp_successes0, !count_true_cons.
      change (count_true []) with 0. lia.
    + rewrite ip_failures0, sp_failures0, !count_true_cons.
      change (count_true []) with 0. lia.
Qed.

(** The loop over a list is the loop over a prefix followed by the loop
    over the rest. *)
Lemma process_game_ids_app e api_key telegram_id ids1 ids2 l w :
  process_game_ids e api_key telegram_id (ids1 ++ ids2) l w =
  bind (process_game_ids e api_key telegram_id ids1 l)
       (process_game_ids e api_key telegram_id ids2) w.
Proof.
  revert l w. induction ids1 as [|g ids1 IH]; intros l w; [reflexivity|].
  simpl. unfold bind.
  destruct (process_game_id e api_key telegram_id g l w) as [[l1|x] w1]; [|reflexivity].
  rewrite IH. reflexivity.
Qed.

Lemma process_game_ids_total e api_key telegram_id ids :
  all_well_formed e api_key ->
  forall l w, exists l' w',
    process_game_ids e api_key telegram_id ids l w = (Ok l', w').
Proof.
  intros Hwf. induction ids as [|game_id rest IH]; intros l w.
  - eexists; eexists; reflexivity.
  - simpl. unfold bind.
    destruct (process_game_id_total e api_key telegram_id game_id l w (Hwf _ _))
      as (l1 & w1 & ->).
    apply IH.
Qed.

(** ** The two notifiers *)

Lemma send_user_notification_spec e telegram_id results w :
  exists w',
    send_user_notification e telegram_id results w = (Ok tt, w') /\
    game_ids w' = game_ids w /\
    send_history w' = send_history w /\
    api_calls w' = api_calls w /\
    outbox w' = outbox w ++ user_message e telegram_id results w /\
    stdout w' = stdout w ++ notify_lines e telegram_id results w.
Proof.
  unfold send_user_notification, user_message, notify_lines, try_except, bind, lift,
    datetime_now, bot_send_message, print.
  destruct (render_results 1 results 0 0) as [[[entries t] s]|x]; simpl.
  - destruct (telegram e (List.length (outbox w))); simpl;
      eexists; repeat split; try reflexivity. now rewrite app_nil_r.
  - eexists; repeat split; simpl; try reflexivity. now rewrite app_nil_r.
Qed.

Lemma send_admin_report_spec e admin_id total_users total_ids total_likes successes failures w :
  exists w' lines,
    send_admin_report e admin_id total_users total_ids total_likes successes failures w
      = (Ok tt, w') /\
    game_ids w' = game_ids w /\
    send_history w' = send_history w /\
    api_calls w' = api_calls w /\
    outbox w' = outbox w ++
      admin_message e admin_id total_users total_ids total_likes successes failures w /\
    stdout w' = stdout w ++ lines /\
    notify_errors lines = [].
Proof.
  unfold send_admin_report, admin_message, try_except, bind, lift, datetime_now,
    bot_send_message, print.
  destruct (py_truediv successes (successes + failures)) as [q|x]; simpl.
  - destruct (telegram e (List.length (outbox w))); simpl.
    + exists (mk_world (game_ids w) (send_history w)
                       (outbox w ++ [mk_sent admin_id
                          (AdminReport total_users total_ids total_likes successes failures
                                       (q * 100)%Q (now e (clock w))) true])
                       (api_calls w) (stdout w) (S (clock w))), [].
      repeat split; simpl; try reflexivity. now rewrite app_nil_r.
    + eexists. eexists. repeat split; simpl; reflexivity.
  - eexists. eexists. repeat split; simpl; try reflexivity. now rewrite app_nil_r.
Qed.

Lemma format_number_int (v : pyval) :
  is_int v = true -> exists n, format_number v = Ok n.
Proof. destruct v; simpl; try discriminate; intros _; eexists; reflexivity. Qed.

Lemma render_result_ok e api_key r idx total_likes success_count :
  produced_by e api_key r ->
  formattable_response (r_data r) = true ->
  exists entry t s,
    render_result idx r total_likes success_count = Ok (entry, t, s) /\
    entry_game_id entry = r_game_id r /\
    entry_idx entry = idx.
Proof.
  intros [Hrule _] Hfmt. unfold render_result.
  destruct (rule_is_dict _ _ Hrule) as [fields Hd]. rewrite Hd in *.
  destruct (r_status r); simpl in Hrule; cbn [py_get].
  - unfold formattable_response in Hfmt. rewrite Hrule in Hfmt.
    apply andb_prop in Hfmt as [Hfmt He]. apply andb_prop in Hfmt as [Hi Hf].
    destruct (format_number_int _ Hi) as [ni ->].
    destruct (format_number_int _ Hf) as [nf ->].
    destruct (format_number_int _ He) as [ne ->].
    destruct (success_rule_true _ Hrule) as (fields' & n & Heq & _ & Hn & _).
    injection Heq as <-. rewrite Hn. simpl.
    eexists; eexists; eexists; repeat split.
  - eexists; eexists; eexists; repeat split.
  - eexists; eexists; eexists; repeat split.
Qed.

Lemma render_results_ok e api_key results :
  Forall (produced_by e api_key) results ->
  Forall (fun r => formattable_response (r_data r) = true) results ->
  forall idx total_likes success_count,
  exists entries t s,
    render_results idx results total_likes success_count = Ok (entries, t, s) /\
    map entry_game_id entries = map r_game_id results /\
    map entry_idx entries =
      map (fun i => idx + Z.of_nat i) (seq 0 (List.length results)).
Proof.
  induction results as [|r rest IH]; intros Hp Hf idx tl sc.
  - exists [], tl, sc. repeat split.
  - inversion Hp as [|? ? Hp1 Hp2]; inversion Hf as [|? ? Hf1 Hf2]; subst.
    destruct (render_result_ok e api_key r idx tl sc Hp1 Hf1)
      as (entry & t1 & s1 & Hr & Hg & Hi).
    destruct (IH Hp2 Hf2 (idx + 1) t1 s1) as (entries & t & s & Hrs & Hgs & His).
    exists (entry :: entries), t, s. simpl. rewrite Hr, Hrs. repeat split.
    + simpl. congruence.
    + simpl. rewrite Hi, His, <- seq_shift, map_map. f_equal; [lia|].
      apply map_ext. intros i. lia.
Qed.

(** ** The outer loop *)

Lemma responses_from_app e api_key c ids1 ids2 :
  responses_from e api_key c (ids1 ++ ids2) =
  responses_from e api_key c ids1 ++
  responses_from e api_key (c + List.length ids1) ids2.
Proof.
  revert c. induction ids1 as [|g ids1 IH]; intros c; simpl.
  - now rewrite Nat.add_0_r.
  - rewrite IH. simpl. now rewrite Nat.add_succ_r.
Qed.

Lemma enumerated_pairs_cons telegram_id ids rest :
  map snd (enumerated_pairs ((telegram_id, ids) :: rest)) =
  ids ++ map snd (enumerated_pairs rest).
Proof.
  unfold enumerated_pairs. simpl. rewrite map_app, map_map. simpl.
  now rewrite map_id.
Qed.

Lemma user_message_report e telegram_id results w :
  Forall (fun m => is_user_report m = true) (user_message e telegram_id results w) /\
  incl (map m_chat_id (user_message e telegram_id results w)) [telegram_id].
Proof.
  unfold user_message.
  destruct (render_results 1 results 0 0) as [[[entries t] s]|x]; simpl.
  - split; [repeat constructor | intros c Hc; exact Hc].
  - split; [constructor | intros c []].
Qed.

Lemma user_message_view e api_key telegram_id results w :
  Forall (produced_by e api_key) results ->
  all_formattable e api_key ->
  map report_view (user_message e telegram_id results w)
  = [(telegram_id, map r_game_id results)].
Proof.
  intros Hp Hf. unfold user_message.
  assert (Hf' : Forall (fun r => formattable_response (r_data r) = true) results).
  { eapply Forall_impl; [|exact Hp]. intros r [_ [n Hn]]. rewrite Hn. apply Hf. }
  destruct (render_results_ok e api_key results Hp Hf' 1 0 0)
    as (entries & t & s & -> & Hg & _).
  unfold report_view; simpl. now rewrite Hg.
Qed.

Lemma failed_reports_app a b : failed_reports (a ++ b) = failed_reports a ++ failed_reports b.
Proof. unfold failed_reports. now rewrite filter_app, map_app. Qed.

Lemma notify_lines_failed e api_key telegram_id results w :
  Forall (produced_by e api_key) results ->
  all_formattable e api_key ->
  notify_errors (notify_lines e telegram_id results w)
  = failed_reports (user_message e telegram_id results w).
Proof.
  intros Hp Hf. unfold user_message, notify_lines.
  assert (Hf' : Forall (fun r => formattable_response (r_data r) = true) results).
  { eapply Forall_impl; [|exact Hp]. intros r [_ [n Hn]]. rewrite Hn. apply Hf. }
  destruct (render_results_ok e api_key results Hp Hf' 1 0 0)
    as (entries & t & s & -> & _ & _).
  destruct (telegram e (List.length (outbox w))); reflexivity.
Qed.

Lemma process_users_ok e api_key users_ids :
  forall l w l' w',
    process_users e api_key users_ids l w = (Ok l', w') ->
    exists rows msgs, outer_post e api_key users_ids l w l' w' rows msgs.
Proof.
  induction users_ids as [|[telegram_id ids] rest IH]; intros l w l' w' Hrun.
  - injection Hrun as <- <-. exists [], [].
    split; cbn [enumerated_pairs flat_map map responses_from sum_Z count_true fold_right];
      rewrite ?app_nil_r, ?Z.add_0_r; auto.
    + intros c [].
    + exists []. split; [now rewrite app_nil_r | reflexivity].
  - cbn [process_users] in Hrun. unfold bind in Hrun.
    destruct (process_game_ids e api_key telegram_id ids
                (mk_locals (total_likes_sent l) (total_successes l) (total_failures l) [])
                w) as [[l1|x] w1] eqn:Hinner; [|discriminate].
    destruct (process_game_ids_ok _ _ _ _ _ _ _ _ Hinner) as (rs & rows1 & S1).
    destruct (send_user_notification_spec e telegram_id (user_results l1) w1)
      as (w2 & Hn & Hg2 & Hh2 & Hc2 & Ho2 & Hs2).
    rewrite Hn in Hrun.
    destruct (IH _ _ _ _ Hrun) as (rows2 & msgs2 & S2).
    destruct S1, S2.
    cbn [user_results total_likes_sent total_successes total_failures app] in *.
    destruct ip_stdout0 as (lines1 & Hout1 & Hq1).
    destruct op_stdout0 as (lines2 & Hout2 & Hq2).
    destruct (user_message_report e telegram_id (user_results l1) w1) as [Hrep Hrec].
    rewrite Hc2, ip_calls0, length_app, length_map in op_rows0, op_likes0, op_successes0,
      op_failures0.
    exists (rows1 ++ rows2), (user_message e telegram_id (user_results l1) w1 ++ msgs2).
    split; rewrite ?enumerated_pairs_cons, ?responses_from_app, ?map_app.
    + rewrite op_history0, Hh2, ip_history0, <- app_assoc. reflexivity.
    + apply Forall_app; split; assumption.
    + intros Hst. destruct (ip_rows0 Hst) as (Hk1 & Hs1 & Hl1).
      destruct (op_rows0 Hst) as (Hk2 & Hsu2 & Hl2).
      unfold enumerated_pairs in *. cbn [flat_map fst snd].
      rewrite Hk1, Hk2, Hs1, Hsu2, Hl1, Hl2. repeat split.
    + unfold enumerated_pairs in *. cbn [flat_map fst snd].
      rewrite op_calls0, Hc2, ip_calls0, <- app_assoc, map_app, map_map. reflexivity.
    + rewrite op_outbox0, Ho2, ip_outbox0, <- app_assoc. reflexivity.
    + apply Forall_app; split; assumption.
    + cbn [map fst]. apply incl_app.
      * intros c Hc. left. destruct (Hrec c Hc) as [<-|[]]. reflexivity.
      * apply incl_tl. assumption.
    + intros Hf. rewrite (op_views0 Hf).
      rewrite ip_results0 in *. cbn [app].
      rewrite (user_message_view e api_key telegram_id rs w1 ip_produced0 Hf).
      cbn [app]. now rewrite ip_game_ids0.
    + exists (lines1 ++ notify_lines e telegram_id (user_results l1) w1 ++ lines2).
      split.
      * rewrite Hout2, Hs2, Hout1, <- !app_assoc. reflexivity.
      * intros Hf. rewrite !notify_errors_app, Hq1, (Hq2 Hf), failed_reports_app.
        cbn [app]. f_equal. rewrite ip_results0. cbn [app].
        apply (notify_lines_failed e api_key); assumption.
    + rewrite op_likes0, ip_likes0, sum_Z_app. lia.
    + rewrite op_successes0, ip_successes0, count_true_app. lia.
    + rewrite op_failures0, ip_failures0, count_true_app. lia.
Qed.

Lemma process_users_total e api_key users_ids :
  all_well_formed e api_key ->
  forall l w, exists l' w', process_users e api_key users_ids l w = (Ok l', w').
Proof.
  intros Hwf. induction users_ids as [|[telegram_id ids] rest IH]; intros l w.
  - eexists; eexists; reflexivity.
  - simpl. unfold bind.
    destruct (process_game_ids_total e api_key telegram_id ids Hwf
                (mk_locals (total_likes_sent l) (total_successes l) (total_failures l) [])
                w) as (l1 & w1 & ->).
    destruct (send_user_notification_spec e telegram_id (user_results l1) w1)
      as (w2 & -> & _).
    apply IH.
Qed.

(** ** The enumeration *)

Lemma group_append_nonempty tid gid grouped :
  Forall (fun u => snd u <> []) grouped ->
  Forall (fun u => snd u <> []) (group_append tid gid grouped).
Proof.
  induction grouped as [|[t gids] rest IH]; intros H; simpl.
  - constructor; [discriminate | constructor].
  - inversion H as [|? ? H1 H2]; subst. destruct (t =? tid).
    + constructor; [|assumption]. simpl. destruct gids; discriminate.
    + constructor; [assumption | apply IH; assumption].
Qed.

Lemma group_append_keys tid gid grouped :
  map fst (group_append tid gid grouped) =
  if existsb (fun u => fst u =? tid) grouped then map fst grouped
  else map fst grouped ++ [tid].
Proof.
  induction grouped as [|[t gids] rest IH]; simpl; [reflexivity|].
  destruct (t =? tid) eqn:Ht; simpl; [reflexivity|].
  rewrite IH. destruct (existsb (fun u => fst u =? tid) rest); reflexivity.
Qed.

Lemma group_append_nodup tid gid grouped :
  NoDup (map fst grouped) -> NoDup (map fst (group_append tid gid grouped)).
Proof.
  intros H. rewrite group_append_keys.
  destruct (existsb (fun u => fst u =? tid) grouped) eqn:Hex; [assumption|].
  apply NoDup_app; [assumption | repeat constructor; intros [] | ].
  intros x Hx [->|[]].
  apply in_map_iff in Hx as [u [Hu Hin]].
  assert (existsb (fun u => fst u =? x) grouped = true).
  { apply existsb_exists. exists u. split; [assumption|]. rewrite Hu. apply Z.eqb_refl. }
  congruence.
Qed.

Lemma group_rows_invariant rows :
  forall grouped,
    Forall (fun u => snd u <> []) grouped -> NoDup (map fst grouped) ->
    let g := fold_left (fun grouped row => group_append (fst row) (snd row) grouped)
                       rows grouped in
    Forall (fun u => snd u <> []) g /\ NoDup (map fst g).
Proof.
  induction rows as [|[tid gid] rows IH]; intros grouped Hne Hnd; simpl.
  - split; assumption.
  - apply IH; [apply group_append_nonempty | apply group_append_nodup]; assumption.
Qed.

(** Every key of the grouped enumeration carries at least one identifier,
    and no key occurs twice. *)
Lemma group_rows_spec rows :
  Forall (fun u => snd u <> []) (group_rows rows) /\ NoDup (map fst (group_rows rows)).
Proof. apply group_rows_invariant; constructor. Qed.

Lemma count_ids_pairs users_ids :
  count_ids users_ids = Z.of_nat (List.length (enumerated_pairs users_ids)).
Proof.
  induction users_ids as [|[t ids] rest IH]; [reflexivity|].
  unfold enumerated_pairs in *. simpl. rewrite IH, length_app, length_map. lia.
Qed.


(** ** The cycle, path by path *)

Lemma cycle_unfold e admin_id w :
  send_automatic_likes e admin_id w =
  if key_missing (stored_key e) then
    (bot_send_message e admin_id ConfigErrorNotice ;; print LogNoKey ;; ret None)
      (prologue e w)
  else
    match enumeration w with
    | [] => (print LogNoIds ;; ret None) (prologue e w)
    | _ :: _ =>
        let key := match stored_key e with Some k => k | None => "" end in
        (l <- process_users e key (enumeration w) (mk_locals 0 0 0 []) ;;
         send_admin_report e admin_id (Z.of_nat (List.length (enumeration w)))
           (count_ids (enumeration w))
           (total_likes_sent l) (total_successes l) (total_failures l) ;;
         print LogDone ;;
         ret None) (prologue e w)
    end.
Proof.
  unfold send_automatic_likes, prologue, stored_key, load_key, enumeration,
    get_all_active_game_ids.
  destruct (key_file e) as [ | | s]; cbn -[process_users group_rows select_active];
    try reflexivity.
  destruct (String.eqb (strip s) ""); cbn -[process_users group_rows select_active];
    try reflexivity.
  destruct (group_rows (select_active (game_ids w))); reflexivity.
Qed.

Lemma cycle_completes e admin_id w l w1 :
  key_missing (stored_key e) = false ->
  enumeration w <> [] ->
  process_users e (match stored_key e with Some k => k | None => "" end)
    (enumeration w) (mk_locals 0 0 0 []) (prologue e w) = (Ok l, w1) ->
  exists w' lines,
    send_automatic_likes e admin_id w = (Ok None, w') /\
    game_ids w' = game_ids w1 /\
    send_history w' = send_history w1 /\
    api_calls w' = api_calls w1 /\
    outbox w' = outbox w1 ++
      admin_message e admin_id (Z.of_nat (List.length (enumeration w)))
        (count_ids (enumeration w))
        (total_likes_sent l) (total_successes l) (total_failures l) w1 /\
    stdout w' = stdout w1 ++ lines /\
    notify_errors lines = [].
Proof.
  intros Hk Hne Hloop. rewrite cycle_unfold, Hk.
  destruct (enumeration w) as [|u rest] eqn:He; [contradiction|].
  cbv zeta. unfold bind at 1. rewrite Hloop.
  destruct (send_admin_report_spec e admin_id (Z.of_nat (List.length (u :: rest)))
              (count_ids (u :: rest)) (total_likes_sent l) (total_successes l)
              (total_failures l) w1) as (w2 & lines & Hrep & Hg & Hh & Hc & Ho & Hs & Hq).
  unfold bind at 1. rewrite Hrep.
  eexists. exists (lines ++ [LogDone]). split; [reflexivity|]. simpl.
  repeat split; auto.
  - rewrite Hs, app_assoc. reflexivity.
  - rewrite notify_errors_app, Hq. reflexivity.
Qed.

Lemma cycle_raises e admin_id w x w1 :
  key_missing (stored_key e) = false ->
  enumeration w <> [] ->
  process_users e (match stored_key e with Some k => k | None => "" end)
    (enumeration w) (mk_locals 0 0 0 []) (prologue e w) = (Raise x, w1) ->
  send_automatic_likes e admin_id w = (Raise x, w1).
Proof.
  intros Hk Hne Hloop. rewrite cycle_unfold, Hk.
  destruct (enumeration w) as [|u rest] eqn:He; [contradiction|].
  cbv zeta. unfold bind at 1. rewrite Hloop. reflexivity.
Qed.

(** ** The aggregation of a run *)

Lemma audited_likes_sum rows : audited_likes rows = sum_Z (map row_likes rows).
Proof. induction rows as [|h rows IH]; simpl; [reflexivity | now rewrite IH]. Qed.

Lemma count_rows_true rows : count_rows true rows = count_true (map h_success rows).
Proof.
  induction rows as [|h rows IH]; simpl; [reflexivity|].
  rewrite IH. destruct (h_success h); reflexivity.
Qed.

Lemma count_rows_false rows :
  count_rows false rows = count_true (map negb (map h_success rows)).
Proof.
  induction rows as [|h rows IH]; simpl; [reflexivity|].
  rewrite IH. destruct (h_success h); reflexivity.
Qed.

Lemma count_true_split (l : list bool) :
  count_true l + count_true (map negb l) = Z.of_nat (List.length l).
Proof.
  induction l as [|b l IH]; [reflexivity|].
  cbn [count_true map fold_right List.length]. fold (count_true l).
  fold (count_true (map negb l)). destruct b; simpl negb; lia.
Qed.

Lemma responses_from_length e api_key c ids :
  List.length (responses_from e api_key c ids) = List.length ids.
Proof.
  revert c. induction ids as [|g ids IH]; intros c; simpl; [reflexivity|].
  now rewrite IH.
Qed.

(** The counters after the loops, read off the raw responses. *)
Lemma outer_post_counters e api_key users_ids w l' w' rows msgs :
  outer_post e api_key users_ids (mk_locals 0 0 0 []) w l' w' rows msgs ->
  let responses := responses_from e api_key (List.length (api_calls w))
                                  (map snd (enumerated_pairs users_ids)) in
  total_likes_sent l' = sum_Z (map outcome_likes responses) /\
  total_successes l' = count_true (map outcome_success responses) /\
  total_failures l' = count_true (map (fun r => negb (outcome_success r)) responses) /\
  total_successes l' + total_failures l' = count_ids users_ids.
Proof.
  intros P responses. destruct P.
  cbn [total_likes_sent total_successes total_failures] in *.
  fold responses in op_likes0, op_successes0, op_failures0.
  rewrite Z.add_0_l in op_likes0, op_successes0, op_failures0.
  split; [exact op_likes0|]. split; [exact op_successes0|]. split; [exact op_failures0|].
  rewrite op_successes0, op_failures0.
  rewrite <- (map_map outcome_success negb), count_true_split, length_map.
  unfold responses. rewrite responses_from_length, length_map.
  symmetry. apply count_ids_pairs.
Qed.


(** ** C1 - C3: the three outcomes *)

Lemma sqlite_add_exact e total n :
  int64 total = true -> int64 (total + n) = true -> sqlite_add e total n = total + n.
Proof. intros H1 H2. unfold sqlite_add. now rewrite H1, H2. Qed.

Lemma sqlite_add_grows e total n : 0 <= n -> total <= sqlite_add e total n.
Proof.
  intros Hn. unfold sqlite_add.
  destruct (int64 total && int64 (total + n)); [lia|].
  destruct (0 <=? n) eqn:H0; [lia|]. apply Z.leb_gt in H0. lia.
Qed.
















(** ** C5, C6: the two early exits *)

(** C5, as the code has it.  When [load_key] returns no usable credential
    ([None] or an empty string), the cycle calls [bot.send_message] exactly
    once, for the administrator, with the configuration-error notice; it
    sends nothing else, calls the remote endpoint for no identifier, and
    leaves both tables as they were.  If the notice is delivered the cycle
    returns [None], the empty result; if [bot.send_message] raises, its
    exception leaves the cycle, with the same effects. *)
Theorem C5_missing_credential e admin_id w :
  key_missing (stored_key e) = true ->
  exists w',
    send_automatic_likes e admin_id w =
      (if telegram e (List.length (outbox w)) then Ok None else Raise TelegramError, w') /\
    outbox w' = outbox w ++
      [mk_sent admin_id ConfigErrorNotice (telegram e (List.length (outbox w)))] /\
    api_calls w' = api_calls w /\
    send_history w' = send_history w /\
    game_ids w' = game_ids w.
Proof.
  intros Hk. rewrite cycle_unfold, Hk.
  unfold bind, bot_send_message, print, ret, prologue. simpl.
  destruct (telegram e (List.length (outbox w))); eexists; repeat split; reflexivity.
Qed.

Lemma C5_witness :
  exists w',
    send_automatic_likes no_key_env 99 sample_world = (Ok None, w') /\
    outbox w' = [mk_sent 99 ConfigErrorNotice true] /\
    send_history w' = [].
Proof.
  destruct (C5_missing_credential no_key_env 99 sample_world)
    as (w' & Hrun & Hout & _ & Hhist & _).
  - reflexivity.
  - exists w'. repeat split; assumption.
Defined.

(** The claim fails when the notice cannot be delivered: the call to
    [bot.send_message] is outside any [try], so its exception leaves the
    cycle and nothing is returned; the line that follows the notice is not
    printed either. *)
Lemma C5_counterexample :
  let e := with_telegram no_key_env (fun _ => false) in
  key_missing (stored_key e) = true /\
  fst (send_automatic_likes e 99 sample_world) = Raise TelegramError /\
  outbox (snd (send_automatic_likes e 99 sample_world))
    = [mk_sent 99 ConfigErrorNotice false] /\
  stdout (snd (send_automatic_likes e 99 sample_world))
    = [LogStart "02/01/2025 00:00:00"] /\
  ~ aborts_with_empty_summary e 99 sample_world.
Proof.
  cbv zeta.
  split; [vm_compute; reflexivity|].
  split; [vm_compute; reflexivity|].
  split; [vm_compute; reflexivity|].
  split; [vm_compute; reflexivity|].
  intros (w' & delivered & Hrun & _).
  apply (f_equal fst) in Hrun. vm_compute in Hrun. discriminate.
Qed.

(** C6. With a usable credential and an empty enumeration of active
    identifiers the cycle returns normally, having sent no message (none to
    a user, none to the administrator), written no audit row and called the
    remote endpoint for no identifier. *)
Theorem C6_empty_enumeration e admin_id w :
  key_missing (stored_key e) = false ->
  enumeration w = [] ->
  exists w',
    send_automatic_likes e admin_id w = (Ok None, w') /\
    outbox w' = outbox w /\
    send_history w' = send_history w /\
    api_calls w' = api_calls w /\
    game_ids w' = game_ids w.
Proof.
  intros Hk He. rewrite cycle_unfold, Hk, He.
  unfold bind, print, ret, prologue. simpl.
  eexists; repeat split; reflexivity.
Qed.

Lemma C6_witness :
  exists w',
    send_automatic_likes sample_env 99 empty_world = (Ok None, w') /\
    outbox w' = [] /\
    send_history w' = [].
Proof.
  destruct (C6_empty_enumeration sample_env 99 empty_world)
    as (w' & Hrun & Hout & Hhist & _).
  - reflexivity.
  - reflexivity.
  - exists w'. repeat split; assumption.
Defined.

(** ** C4: failure isolation *)

Lemma payloads_all_well_formed e api_key :
  payloads_well_formed e api_key -> all_well_formed e api_key.
Proof.
  intros H n game_id. destruct (http e n game_id api_key) eqn:Ho; try reflexivity.
  simpl. eapply H. exact Ho.
Qed.


Lemma payloads_all_storable e api_key :
  payloads_storable e api_key -> all_storable e api_key.
Proof.
  intros H n game_id. destruct (http e n game_id api_key) eqn:Ho; try reflexivity.
  simpl. eapply H. exact Ho.
Qed.


Lemma well_formed_run e admin_id w :
  key_missing (stored_key e) = false ->
  all_well_formed e (cycle_key e) ->
  exists l w1 w' rows msgs,
    process_users e (cycle_key e) (enumeration w) (mk_locals 0 0 0 []) (prologue e w)
      = (Ok l, w1) /\
    outer_post e (cycle_key e) (enumeration w) (mk_locals 0 0 0 []) (prologue e w)
               l w1 rows msgs /\
    send_automatic_likes e admin_id w = (Ok None, w') /\
    send_history w' = send_history w1 /\
    api_calls w' = api_calls w1 /\
    (exists report,
        outbox w' = outbox w1 ++ report /\
        Forall (fun m => is_user_report m = false) report) /\
    (exists lines, stdout w' = stdout w1 ++ lines /\ notify_errors lines = []).
Proof.
  intros Hk Hwf.
  destruct (process_users_total e (cycle_key e) (enumeration w) Hwf
              (mk_locals 0 0 0 []) (prologue e w)) as (l & w1 & Hloop).
  destruct (process_users_ok _ _ _ _ _ _ _ Hloop) as (rows & msgs & P).
  exists l, w1.
  destruct (enumeration w) as [|u rest] eqn:He.
  - exists (mk_world (game_ids w) (send_history w) (outbox w) (api_calls w)
                     (stdout (prologue e w) ++ [LogNoIds]) (S (clock w))).
    exists rows, msgs.
    split; [exact Hloop|]. split; [exact P|].
    injection Hloop as <- <-.
    split; [rewrite cycle_unfold, Hk, He; reflexivity|].
    split; [reflexivity|]. split; [reflexivity|]. split.
    + exists []. split; [now rewrite app_nil_r | constructor].
    + exists [LogNoIds]. split; reflexivity.
  - assert (Hne : enumeration w <> []) by (rewrite He; discriminate).
    assert (Hloop' := Hloop).
    unfold cycle_key in Hloop'. rewrite <- He in Hloop'.
    destruct (cycle_completes e admin_id w l w1 Hk Hne Hloop')
      as (w' & lines & Hrun & _ & Hh & Hc & Ho & Hs & Hq).
    exists w', rows, msgs.
    split; [exact Hloop|]. split; [exact P|].
    split; [exact Hrun|]. split; [exact Hh|]. split; [exact Hc|]. split.
    + eexists. split; [exact Ho|]. unfold admin_message.
      destruct (py_truediv _ _); repeat constructor.
    + exists lines. split; assumption.
Qed.

(** C4, as the code has it.  For every enumeration and every sequence of
    raw responses in which each JSON payload is a dict whose [likesAdded]
    is an integer (or absent) whenever [success] is truthy - timeouts,
    transport errors and undecodable bodies included, and whatever the
    delivery of the notifications does - the cycle with a usable credential
    goes through the whole enumeration: no Partial or Error outcome stops
    it, it returns normally and has called the remote endpoint for every
    enumerated identifier, in order.  When moreover the values that the
    payloads give for [likesAdded], [player] and [message] are values that
    SQLite binds, it has written one audit row for every identifier. *)
Theorem C4_failure_isolation e admin_id w :
  key_missing (stored_key e) = false ->
  payloads_well_formed e (cycle_key e) ->
  calls_every_identifier e admin_id w /\
  (payloads_storable e (cycle_key e) -> processes_every_identifier e admin_id w).
Proof.
  intros Hk Hwf.
  destruct (well_formed_run e admin_id w Hk (payloads_all_well_formed _ _ Hwf))
    as (l & w1 & w' & rows & msgs & _ & P & Hrun & Hh & Hc & _).
  destruct P. cbn [api_calls send_history prologue] in *.
  split.
  - exists w'. split; [exact Hrun|]. rewrite Hc. exact op_calls0.
  - intros Hst. destruct (op_rows0 (payloads_all_storable _ _ Hst)) as (Hkeys & Hsucc & _).
    exists w', rows. split; [exact Hrun|]. split; [rewrite Hc; exact op_calls0|].
    split; [rewrite Hh; exact op_history0|]. split; [exact Hkeys | exact Hsucc].
Qed.

Lemma sample_payloads_well_formed : payloads_well_formed sample_env "secret-key".
Proof.
  intros n game_id payload. simpl. unfold sample_http.
  destruct (String.eqb game_id "123");
    [|destruct (String.eqb game_id "456")];
    intros H; try discriminate; injection H as <-; reflexivity.
Qed.

Lemma sample_payloads_storable : payloads_storable sample_env "secret-key".
Proof.
  intros n game_id payload. simpl. unfold sample_http.
  destruct (String.eqb game_id "123");
    [|destruct (String.eqb game_id "456")];
    intros H; try discriminate; injection H as <-; reflexivity.
Qed.

Lemma C4_witness :
  calls_every_identifier sample_env 99 sample_world /\
  processes_every_identifier sample_env 99 sample_world.
Proof.
  destruct (C4_failure_isolation sample_env 99 sample_world) as [Hcalls Hrows].
  - reflexivity.
  - exact sample_payloads_well_formed.
  - split; [exact Hcalls | exact (Hrows sample_payloads_storable)].
Defined.

(** The claim fails for a payload whose [likesAdded] is a string: the
    comparison with the minimum raises, the exception leaves the cycle, the
    identifier [789] of the next user is never processed, and nobody is
    notified. *)
Lemma C4_counterexample :
  key_missing (stored_key string_likes_env) = false /\
  enumeration sample_world = [(1, ["123"; "456"]); (2, ["789"])] /\
  fst (send_automatic_likes string_likes_env 99 sample_world) = Raise TypeError /\
  api_calls (snd (send_automatic_likes string_likes_env 99 sample_world))
    = [("123", "secret-key"); ("456", "secret-key")] /\
  outbox (snd (send_automatic_likes string_likes_env 99 sample_world)) = [] /\
  ~ processes_every_identifier string_likes_env 99 sample_world.
Proof.
  split; [vm_compute; reflexivity|].
  split; [vm_compute; reflexivity|].
  split; [vm_compute; reflexivity|].
  split; [vm_compute; reflexivity|].
  split; [vm_compute; reflexivity|].
  intros (w' & rows & Hrun & _).
  apply (f_equal fst) in Hrun. vm_compute in Hrun. discriminate.
Qed.

(** ** C7: one consolidated notification per user *)









(** ** C8: the success rate *)




(** ** C9: the value the cycle returns *)





(** ** C10: the invariant of the loops *)

Lemma partial_adds_no_likes (response : pyval) :
  partial_rule response = Ok true -> outcome_likes response = 0.
Proof.
  intros Hp. destruct (partial_rule_true _ Hp) as (fields & -> & Ht & _).
  unfold outcome_likes, success_rule, py_get. now rewrite Ht.
Qed.

(** C10. Let the loops have processed a prefix of the enumeration: all the
    identifiers of the users in [users_before] and the first identifiers
    [ids_prefix] of the next user.  Then [total_successes + total_failures]
    is the number of identifiers processed, [total_successes] counts the
    raw responses that are Success outcomes and [total_failures] the others,
    and [total_likes_sent] is the sum of [likesAdded] over the Success
    outcomes alone; a Partial response contributes no likes. *)
Theorem C10_loop_invariant e api_key users_before telegram_id ids_prefix w l1 w1 l2 w2 :
  process_users e api_key users_before (mk_locals 0 0 0 []) w = (Ok l1, w1) ->
  process_game_ids e api_key telegram_id ids_prefix
    (mk_locals (total_likes_sent l1) (total_successes l1) (total_failures l1) []) w1
    = (Ok l2, w2) ->
  let processed := enumerated_pairs users_before ++ map (pair telegram_id) ids_prefix in
  let responses :=
    responses_from e api_key (List.length (api_calls w)) (map snd processed) in
  total_successes l2 + total_failures l2 = Z.of_nat (List.length processed) /\
  total_successes l2 = count_true (map outcome_success responses) /\
  total_failures l2 = count_true (map (fun r => negb (outcome_success r)) responses) /\
  total_likes_sent l2 = sum_Z (map outcome_likes responses) /\
  (forall r, In r responses -> partial_rule r = Ok true -> outcome_likes r = 0).
Proof.
  intros Houter Hinner processed responses.
  destruct (process_users_ok _ _ _ _ _ _ _ Houter) as (rows1 & msgs & P).
  destruct (outer_post_counters _ _ _ _ _ _ _ _ P) as (Hl1 & Hs1 & Hf1 & _).
  destruct (process_game_ids_ok _ _ _ _ _ _ _ _ Hinner) as (rs & rows2 & Q).
  destruct P, Q. simpl in *.
  assert (Hresp : responses =
            responses_from e api_key (List.length (api_calls w))
                           (map snd (enumerated_pairs users_before)) ++
            responses_from e api_key (List.length (api_calls w1)) ids_prefix).
  { unfold responses, processed.
    rewrite map_app, map_map, responses_from_app. simpl. rewrite map_id.
    rewrite op_calls0, length_app, !length_map. reflexivity. }
  assert (Hs2 : total_successes l2 = count_true (map outcome_success responses)).
  { rewrite Hresp, map_app, count_true_app, ip_successes0, Hs1. reflexivity. }
  assert (Hf2 : total_failures l2
                = count_true (map (fun r => negb (outcome_success r)) responses)).
  { rewrite Hresp, map_app, count_true_app, ip_failures0, Hf1. reflexivity. }
  split; [|split; [exact Hs2|split; [exact Hf2|split]]].
  - rewrite Hs2, Hf2.
    rewrite <- (map_map outcome_success negb), count_true_split, length_map.
    unfold responses. now rewrite responses_from_length, length_map.
  - rewrite Hresp, map_app, sum_Z_app, ip_likes0, Hl1. reflexivity.
  - intros r _. apply partial_adds_no_likes.
Qed.

Lemma C10_witness :
  exists l2 : locals,
    total_successes l2 + total_failures l2 = 3 /\ total_likes_sent l2 = 150.
Proof.
  destruct (process_users sample_env "secret-key" [(1, ["123"; "456"])]
              (mk_locals 0 0 0 []) sample_world) as [[l1|x] w1] eqn:H1;
    [|vm_compute in H1; discriminate].
  destruct (process_game_ids sample_env "secret-key" 2 ["789"]
              (mk_locals (total_likes_sent l1) (total_successes l1)
                         (total_failures l1) []) w1) as [[l2|x] w2] eqn:H2.
  - destruct (C10_loop_invariant sample_env "secret-key" [(1, ["123"; "456"])] 2 ["789"]
                sample_world l1 w1 l2 w2 H1 H2) as (Hcount & _ & _ & Hlikes & _).
    exists l2. vm_compute in Hcount, Hlikes. split; [exact Hcount | exact Hlikes].
  - vm_compute in H1. injection H1 as <- <-. vm_compute in H2. discriminate.
Defined.

(** * Further properties of the code *)

(** ** database.py: the enumeration of [get_all_active_game_ids] *)

Lemma insert_by_telegram_id_perm r rows :
  Permutation (insert_by_telegram_id r rows) (r :: rows).
Proof.
  induction rows as [|x rows IH]; simpl; [reflexivity|].
  destruct (fst r <=? fst x); [reflexivity|].
  rewrite IH. apply perm_swap.
Qed.

Lemma order_by_telegram_id_perm rows : Permutation (order_by_telegram_id rows) rows.
Proof.
  induction rows as [|r rows IH]; simpl; [reflexivity|].
  rewrite insert_by_telegram_id_perm. now constructor.
Qed.

Lemma insert_by_telegram_id_sorted r rows :
  StronglySorted key_le rows -> StronglySorted key_le (insert_by_telegram_id r rows).
Proof.
  induction rows as [|x rows IH]; simpl; intros Hs.
  - repeat constructor.
  - inversion Hs as [|? ? Hs' Hx]; subst.
    destruct (fst r <=? fst x) eqn:Hle.
    + apply Z.leb_le in Hle. constructor; [assumption|].
      constructor; [exact Hle|].
      eapply Forall_impl; [|exact Hx]. unfold key_le. intros; lia.
    + apply Z.leb_gt in Hle. constructor; [apply IH; assumption|].
      eapply Permutation_Forall; [symmetry; apply insert_by_telegram_id_perm|].
      constructor; [unfold key_le; lia | assumption].
Qed.

Lemma order_by_telegram_id_sorted rows : StronglySorted key_le (order_by_telegram_id rows).
Proof.
  induction rows as [|r rows IH]; simpl; [constructor|].
  apply insert_by_telegram_id_sorted. exact IH.
Qed.

Lemma insert_by_telegram_id_stable t r rows :
  StronglySorted key_le rows ->
  filter (fun x => fst x =? t) (insert_by_telegram_id r rows)
  = filter (fun x => fst x =? t) (r :: rows).
Proof.
  induction rows as [|x rows IH]; intros Hs; [reflexivity|].
  inversion Hs as [|? ? Hs' Hx]; subst.
  cbn [insert_by_telegram_id]. destruct (fst r <=? fst x) eqn:Hle; [reflexivity|].
  apply Z.leb_gt in Hle.
  cbn [filter]. rewrite (IH Hs'). cbn [filter].
  destruct (fst x =? t) eqn:Hx1, (fst r =? t) eqn:Hr1; try reflexivity.
  apply Z.eqb_eq in Hx1, Hr1. lia.
Qed.

Lemma order_by_telegram_id_stable t rows :
  filter (fun x => fst x =? t) (order_by_telegram_id rows)
  = filter (fun x => fst x =? t) rows.
Proof.
  induction rows as [|r rows IH]; [reflexivity|].
  cbn [order_by_telegram_id fold_right].
  fold (order_by_telegram_id rows).
  rewrite insert_by_telegram_id_stable by apply order_by_telegram_id_sorted.
  cbn [filter]. now rewrite IH.
Qed.

Lemma group_append_last tid gid grouped :
  StronglySorted Z.lt (map fst grouped) ->
  keys_below tid grouped ->
  enumerated_pairs (group_append tid gid grouped)
    = enumerated_pairs grouped ++ [(tid, gid)] /\
  StronglySorted Z.lt (map fst (group_append tid gid grouped)) /\
  keys_below tid (group_append tid gid grouped).
Proof.
  unfold keys_below.
  induction grouped as [|[t gids] rest IH]; intros Hs Hb.
  - split; [reflexivity|]. split.
    + cbn. constructor; constructor.
    + constructor; [cbn; lia | constructor].
  - inversion Hs as [|? ? Hs' Ht]; subst. inversion Hb as [|? ? Ht' Hb']; subst.
    cbn [fst] in *. cbn [group_append].
    destruct (t =? tid) eqn:Heq.
    + apply Z.eqb_eq in Heq. subst t.
      assert (rest = []) as ->.
      { destruct rest as [|[t' g'] rest']; [reflexivity|].
        inversion Ht; subst. inversion Hb'; subst. cbn in *. lia. }
      unfold enumerated_pairs. cbn. rewrite !app_nil_r, map_app.
      split; [reflexivity|]. split.
      * constructor; constructor.
      * constructor; [cbn; lia | constructor].
    + apply Z.eqb_neq in Heq.
      destruct (IH Hs' Hb') as (He & Hs2 & Hb2).
      unfold enumerated_pairs in *. cbn [flat_map fst snd map].
      rewrite He, app_assoc. repeat split.
      * constructor; [exact Hs2|].
        rewrite group_append_keys.
        destruct (existsb _ rest); [exact Ht|].
        apply Forall_app; split; [exact Ht|]. repeat constructor. lia.
      * constructor; [cbn; lia | exact Hb2].
Qed.

Lemma group_rows_sorted_from rows :
  forall grouped,
    StronglySorted key_le rows ->
    StronglySorted Z.lt (map fst grouped) ->
    Forall (fun r => keys_below (fst r) grouped) rows ->
    let g := fold_left (fun grouped row => group_append (fst row) (snd row) grouped)
                       rows grouped in
    enumerated_pairs g = enumerated_pairs grouped ++ rows /\
    StronglySorted Z.lt (map fst g).
Proof.
  induction rows as [|[tid gid] rows IH]; intros grouped Hs Hg Hb; cbn [fold_left].
  - cbv zeta. rewrite app_nil_r. split; [reflexivity | exact Hg].
  - inversion Hs as [|? ? Hs' Hr]; subst. inversion Hb as [|? ? Hb1 Hb2]; subst.
    cbn [fst snd] in *.
    destruct (group_append_last tid gid grouped Hg Hb1) as (He & Hs2 & Hb3).
    destruct (IH (group_append tid gid grouped) Hs' Hs2) as [He' Hs3].
    + eapply Forall_impl; [|exact Hr]. intros [t' g'] Hle. unfold key_le in Hle.
      cbn [fst] in *. unfold keys_below in *.
      eapply Forall_impl; [|exact Hb3]. cbn. intros; lia.
    + cbv zeta in *. rewrite He', He, <- app_assoc. split; [reflexivity | exact Hs3].
Qed.

Lemma group_rows_sorted rows :
  StronglySorted key_le rows ->
  enumerated_pairs (group_rows rows) = rows /\
  StronglySorted Z.lt (map fst (group_rows rows)).
Proof.
  intros Hs. unfold group_rows.
  destruct (group_rows_sorted_from rows [] Hs) as [He Hk].
  - constructor.
  - apply Forall_forall. intros; constructor.
  - split; [exact He | exact Hk].
Qed.

Lemma enumeration_flattened w :
  enumerated_pairs (enumeration w) = select_active (game_ids w).
Proof.
  unfold enumeration. apply group_rows_sorted. apply order_by_telegram_id_sorted.
Qed.

Lemma enumeration_permutes_active_pairs w :
  Permutation (enumerated_pairs (enumeration w)) (active_pairs (game_ids w)).
Proof. rewrite enumeration_flattened. apply order_by_telegram_id_perm. Qed.

(** X1. The identifiers a cycle enumerates are exactly the active
    registrations: the flattened enumeration is a rearrangement of the
    (user, identifier) pairs of the active rows, row for row, so every
    active row is served once and no deactivated row is served. *)
Theorem enumeration_is_the_active_registrations w :
  Permutation (enumerated_pairs (enumeration w)) (active_pairs (game_ids w)) /\
  (forall p, In p (enumerated_pairs (enumeration w)) <->
             exists r, In r (game_ids w) /\ g_active r = true /\
                       p = (g_telegram_id r, g_game_id r)).
Proof.
  pose proof (enumeration_permutes_active_pairs w) as Hp.
  split; [exact Hp|]. intros p. split.
  - intros Hin. apply (Permutation_in _ Hp) in Hin.
    unfold active_pairs in Hin. apply in_map_iff in Hin as (r & Hr & Hf).
    apply filter_In in Hf as [Hin Ha]. exists r. auto.
  - intros (r & Hin & Ha & ->). apply (Permutation_in _ (Permutation_sym Hp)).
    unfold active_pairs. apply in_map_iff. exists r. split; [reflexivity|].
    apply filter_In. auto.
Qed.

(** X2. The enumeration lists the users in strictly ascending
    [telegram_id], so no user occurs twice, and each listed user has at
    least one identifier. *)
Theorem enumeration_users_ascending w :
  StronglySorted Z.lt (map fst (enumeration w)) /\
  Forall (fun u => snd u <> []) (enumeration w).
Proof.
  split.
  - unfold enumeration. apply group_rows_sorted. apply order_by_telegram_id_sorted.
  - apply group_rows_spec.
Qed.

Lemma ids_of_flattened telegram_id users_ids :
  ids_of telegram_id users_ids
  = map snd (filter (fun p => fst p =? telegram_id) (enumerated_pairs users_ids)).
Proof.
  unfold ids_of, enumerated_pairs.
  induction users_ids as [|[t ids] rest IH]; [reflexivity|].
  cbn [flat_map fst snd]. rewrite filter_app, map_app, <- IH. f_equal.
  destruct (t =? telegram_id) eqn:Ht.
  - induction ids as [|g ids IHi]; [reflexivity|]. cbn. rewrite Ht. cbn. now rewrite <- IHi.
  - induction ids as [|g ids IHi]; [reflexivity|]. cbn. rewrite Ht. exact IHi.
Qed.

(** X3. The identifiers listed under a user are that user's active
    identifiers in table order (the order in which the rows were inserted);
    a user without an active identifier is not listed. *)
Theorem enumeration_of_a_user w telegram_id :
  ids_of telegram_id (enumeration w)
  = map g_game_id
        (filter (fun r => g_active r && (g_telegram_id r =? telegram_id)) (game_ids w)).
Proof.
  rewrite ids_of_flattened, enumeration_flattened. unfold select_active.
  rewrite order_by_telegram_id_stable.
  induction (game_ids w) as [|r rows IH]; [reflexivity|].
  cbn [filter]. destruct (g_active r); cbn [andb map filter fst]; [|exact IH].
  destruct (g_telegram_id r =? telegram_id); cbn [map snd]; now rewrite IH.
Qed.

(** ** database.py: registering and removing identifiers *)

Lemma registration_of_spec telegram_id game_id r :
  registration_of telegram_id game_id r = true <->
  g_active r = true /\ (g_telegram_id r, g_game_id r) = (telegram_id, game_id).
Proof.
  unfold registration_of. rewrite !andb_true_iff, Z.eqb_eq, String.eqb_eq.
  split.
  - intros [[-> ->] Ha]. auto.
  - intros [Ha Heq]. injection Heq as -> ->. auto.
Qed.

Lemma active_registration_in_pairs telegram_id game_id table :
  existsb (registration_of telegram_id game_id) table = true <->
  In (telegram_id, game_id) (active_pairs table).
Proof.
  unfold active_pairs. rewrite existsb_exists, in_map_iff. split.
  - intros (r & Hin & Hr). apply registration_of_spec in Hr as [Ha Heq].
    exists r. split; [exact Heq|]. apply filter_In. auto.
  - intros (r & Heq & Hf). apply filter_In in Hf as [Hin Ha].
    exists r. split; [exact Hin|]. apply registration_of_spec. auto.
Qed.

Lemma active_pairs_app a b : active_pairs (a ++ b) = active_pairs a ++ active_pairs b.
Proof. unfold active_pairs. now rewrite filter_app, map_app. Qed.

Lemma add_game_id_rejected e telegram_id game_id w :
  In (telegram_id, game_id) (active_pairs (game_ids w)) ->
  exists text, add_game_id e telegram_id game_id w = (Ok (false, text), w).
Proof.
  intros Hin. apply active_registration_in_pairs in Hin.
  unfold add_game_id. rewrite Hin. eexists. reflexivity.
Qed.

Lemma add_game_id_accepted e telegram_id game_id w :
  ~ In (telegram_id, game_id) (active_pairs (game_ids w)) ->
  exists text w',
    add_game_id e telegram_id game_id w = (Ok (true, text), w') /\
    game_ids w' = game_ids w ++
      [mk_game_id_row telegram_id game_id JNull (now e (clock w)) JNull 0 true] /\
    send_history w' = send_history w.
Proof.
  intros Hin. unfold add_game_id.
  destruct (existsb (registration_of telegram_id game_id) (game_ids w)) eqn:Hex.
  - apply active_registration_in_pairs in Hex. contradiction.
  - do 2 eexists. unfold bind, datetime_now. cbn. repeat split.
Qed.

(** X4. Registering twice is harmless: [add_game_id] accepts a pair that
    has no active row, after which the pair is enumerated, and a second
    [add_game_id] for the same pair is refused and changes nothing. *)
Theorem add_game_id_twice e telegram_id game_id w :
  ~ In (telegram_id, game_id) (active_pairs (game_ids w)) ->
  exists text1 text2 w1,
    add_game_id e telegram_id game_id w = (Ok (true, text1), w1) /\
    In (telegram_id, game_id) (enumerated_pairs (enumeration w1)) /\
    add_game_id e telegram_id game_id w1 = (Ok (false, text2), w1).
Proof.
  intros Hnew.
  destruct (add_game_id_accepted e telegram_id game_id w Hnew)
    as (text1 & w1 & Hadd & Hg & _).
  assert (Hin : In (telegram_id, game_id) (active_pairs (game_ids w1))).
  { rewrite Hg, active_pairs_app. apply in_or_app. right. left. reflexivity. }
  destruct (add_game_id_rejected e telegram_id game_id w1 Hin) as [text2 Hrej].
  exists text1, text2, w1. split; [exact Hadd|]. split; [|exact Hrej].
  eapply Permutation_in; [|exact Hin].
  symmetry. apply enumeration_permutes_active_pairs.
Qed.

Lemma add_game_id_twice_witness :
  exists text1 text2 w1,
    add_game_id sample_env 7 "555" sample_world = (Ok (true, text1), w1) /\
    In (7, "555") (enumerated_pairs (enumeration w1)) /\
    add_game_id sample_env 7 "555" w1 = (Ok (false, text2), w1).
Proof.
  apply (add_game_id_twice sample_env 7 "555" sample_world).
  vm_compute. intros [H|[H|[H|[]]]]; discriminate.
Defined.

Lemma active_pairs_deactivated telegram_id game_id table :
  active_pairs (map (fun r => if same_pair telegram_id game_id r then deactivate r else r)
                    table)
  = filter (fun p => negb ((fst p =? telegram_id) && String.eqb (snd p) game_id))
           (active_pairs table).
Proof.
  unfold active_pairs, same_pair.
  induction table as [|r table IH]; [reflexivity|].
  cbn [map filter].
  destruct ((g_telegram_id r =? telegram_id) && String.eqb (g_game_id r) game_id) eqn:Hp.
  - cbn [deactivate g_active]. destruct (g_active r); [|exact IH].
    cbn [map filter fst snd]. rewrite Hp. exact IH.
  - destruct (g_active r); [|exact IH].
    cbn [map filter fst snd]. rewrite Hp. cbn [negb]. now rewrite IH.
Qed.

Lemma active_pairs_updated e telegram_id game_id player ts likes table :
  active_pairs (updated_table e telegram_id game_id player ts likes table)
  = active_pairs table.
Proof.
  unfold updated_table. destruct (bind_parameters _); [|reflexivity].
  unfold active_pairs.
  induction table as [|r table IH]; [reflexivity|].
  cbn [map filter].
  destruct (registration_of telegram_id game_id r); cbn [update_row g_active];
    destruct (g_active r); cbn [map]; now rewrite ?IH.
Qed.

(** X5. No pair ever gets two active rows: the property holds of the empty
    table and is kept by [add_game_id], [remove_game_id] and
    [update_game_id_info]; where it holds, an enumeration names no
    (user, identifier) pair twice, so a cycle serves each registration
    once. *)
Theorem unique_active_is_invariant :
  unique_active [] /\
  (forall e telegram_id game_id w,
      unique_active (game_ids w) ->
      unique_active (game_ids (snd (add_game_id e telegram_id game_id w))) /\
      unique_active (game_ids (snd (remove_game_id telegram_id game_id w))) /\
      (forall player likes,
          unique_active
            (game_ids (snd (update_game_id_info e telegram_id game_id player likes w))))) /\
  (forall w, unique_active (game_ids w) -> NoDup (enumerated_pairs (enumeration w))).
Proof.
  split; [constructor|]. split.
  - intros e telegram_id game_id w Hu. unfold unique_active in *. repeat split.
    + destruct (existsb (registration_of telegram_id game_id) (game_ids w)) eqn:Hex.
      * unfold add_game_id. rewrite Hex. exact Hu.
      * assert (Hnew : ~ In (telegram_id, game_id) (active_pairs (game_ids w))).
        { intros Hin. apply active_registration_in_pairs in Hin. congruence. }
        destruct (add_game_id_accepted e telegram_id game_id w Hnew)
          as (text & w' & -> & Hg & _).
        cbn [snd]. rewrite Hg, active_pairs_app.
        apply NoDup_app; [exact Hu | repeat constructor; intros [] |].
        intros p Hp [<-|[]]. contradiction.
    + cbn [remove_game_id snd game_ids]. rewrite active_pairs_deactivated.
      apply NoDup_filter. exact Hu.
    + intros player likes.
      rewrite update_game_id_info_run. cbn [snd game_ids].
      rewrite active_pairs_updated. exact Hu.
  - intros w Hu. eapply Permutation_NoDup; [|exact Hu].
    symmetry. apply enumeration_permutes_active_pairs.
Qed.

Lemma unique_active_is_invariant_witness :
  NoDup (enumerated_pairs (enumeration sample_world)).
Proof.
  destruct unique_active_is_invariant as (_ & _ & Henum).
  apply (Henum sample_world).
  vm_compute. repeat constructor; cbn; intuition discriminate.
Defined.

(** X6. [remove_game_id] is a soft delete: no row disappears and the audit
    log is untouched, but the pair is no longer enumerated, while every
    other pair is enumerated exactly as before. *)
Theorem remove_game_id_soft_delete telegram_id game_id w :
  let w' := snd (remove_game_id telegram_id game_id w) in
  fst (remove_game_id telegram_id game_id w) = Ok true /\
  List.length (game_ids w') = List.length (game_ids w) /\
  send_history w' = send_history w /\
  (forall p, In p (enumerated_pairs (enumeration w')) <->
             In p (enumerated_pairs (enumeration w)) /\ p <> (telegram_id, game_id)).
Proof.
  cbv zeta. split; [reflexivity|]. split; [cbn; apply length_map|].
  split; [reflexivity|]. intros p.
  pose proof (enumeration_permutes_active_pairs
                (snd (remove_game_id telegram_id game_id w))) as Hp'.
  pose proof (enumeration_permutes_active_pairs w) as Hp.
  cbn [remove_game_id snd game_ids] in Hp'. rewrite active_pairs_deactivated in Hp'.
  split.
  - intros Hin. apply (Permutation_in _ Hp') in Hin.
    apply filter_In in Hin as [Hin Hne]. split.
    + apply (Permutation_in _ (Permutation_sym Hp)). exact Hin.
    + intros ->. cbn in Hne. now rewrite Z.eqb_refl, String.eqb_refl in Hne.
  - intros [Hin Hne]. apply (Permutation_in _ (Permutation_sym Hp')).
    apply filter_In. split; [apply (Permutation_in _ Hp); exact Hin|].
    destruct p as [t g]. cbn.
    destruct (t =? telegram_id) eqn:Ht; [|reflexivity].
    destruct (String.eqb g game_id) eqn:Hg; [|reflexivity].
    apply Z.eqb_eq in Ht. apply String.eqb_eq in Hg. subst. contradiction.
Qed.

(** X7. An identifier that was removed can be registered again: after
    [remove_game_id], [add_game_id] for the same pair is accepted, and the
    registration that is then active starts afresh (no name, no send, total
    0), the totals of the removed row staying on its inactive row. *)
Theorem add_game_id_after_removal e telegram_id game_id w :
  let w1 := snd (remove_game_id telegram_id game_id w) in
  exists text w2,
    add_game_id e telegram_id game_id w1 = (Ok (true, text), w2) /\
    (forall r, In r (game_ids w2) ->
               registration_of telegram_id game_id r = true ->
               g_player_name r = JNull /\ g_last_likes_sent r = JNull /\
               g_total_likes_received r = 0) /\
    (forall r, In r (game_ids w) -> In (deactivate r) (game_ids w2) \/ In r (game_ids w2)).
Proof.
  cbv zeta.
  assert (Hnot : ~ In (telegram_id, game_id)
                      (active_pairs (game_ids (snd (remove_game_id telegram_id game_id w))))).
  { cbn [remove_game_id snd game_ids]. rewrite active_pairs_deactivated.
    intros Hin. apply filter_In in Hin as [_ Hne]. cbn in Hne.
    now rewrite Z.eqb_refl, String.eqb_refl in Hne. }
  destruct (add_game_id_accepted e telegram_id game_id _ Hnot) as (text & w2 & Hadd & Hg & _).
  exists text, w2. split; [exact Hadd|]. split.
  - intros r Hin Hreg. rewrite Hg in Hin. apply in_app_or in Hin as [Hin|[<-|[]]].
    + exfalso. apply Hnot. apply active_registration_in_pairs.
      apply existsb_exists. exists r. auto.
    + cbn. auto.
  - intros r Hin. rewrite Hg. cbn [remove_game_id snd game_ids].
    destruct (same_pair telegram_id game_id r) eqn:Hs.
    + left. apply in_or_app. left. apply in_map_iff. exists r. now rewrite Hs.
    + right. apply in_or_app. left. apply in_map_iff. exists r. now rewrite Hs.
Qed.

(** ** scheduler.py: what no run does *)

Lemma same_registration_refl r : same_registration r r.
Proof. unfold same_registration. repeat split; lia. Qed.

Lemma same_registration_trans r1 r2 r3 :
  same_registration r1 r2 -> same_registration r2 r3 -> same_registration r1 r3.
Proof. unfold same_registration. intros (?&?&?&?&?) (?&?&?&?&?). repeat split; try congruence; lia. Qed.

Lemma registrations_refl table : Forall2 same_registration table table.
Proof. induction table; constructor; auto using same_registration_refl. Qed.

Lemma registrations_trans t1 t2 :
  Forall2 same_registration t1 t2 ->
  forall t3, Forall2 same_registration t2 t3 -> Forall2 same_registration t1 t3.
Proof.
  induction 1 as [|r1 r2 t1 t2 H12 _ IH]; intros t3 H23; inversion H23; subst;
    constructor; eauto using same_registration_trans.
Qed.

Lemma evolves_refl w : evolves w w.
Proof.
  split; [apply registrations_refl | exists [] | exists [] | exists [] | lia];
    now rewrite app_nil_r.
Qed.

Lemma evolves_trans w1 w2 w3 : evolves w1 w2 -> evolves w2 w3 -> evolves w1 w3.
Proof.
  intros [R1 [h1 H1] [c1 C1] [m1 M1] K1] [R2 [h2 H2] [c2 C2] [m2 M2] K2]. split.
  - eapply registrations_trans; eassumption.
  - exists (h1 ++ h2). now rewrite H2, H1, app_assoc.
  - exists (c1 ++ c2). now rewrite C2, C1, app_assoc.
  - exists (m1 ++ m2). now rewrite M2, M1, app_assoc.
  - lia.
Qed.

Lemma steady_ret {A} (a : A) : steady (ret a).
Proof. intros w. apply evolves_refl. Qed.

Lemma steady_lift {A} (o : outcome A) : steady (lift o).
Proof. intros w. apply evolves_refl. Qed.

Lemma steady_bind {A B} (c : M A) (k : A -> M B) :
  steady c -> (forall a, steady (k a)) -> steady (bind c k).
Proof.
  intros Hc Hk w. unfold bind. specialize (Hc w).
  destruct (c w) as [[a|x] w1]; cbn in *; [|exact Hc].
  eapply evolves_trans; [exact Hc | apply Hk].
Qed.

Lemma steady_try (c : M unit) (h : exn -> M unit) :
  steady c -> (forall x, steady (h x)) -> steady (try_except c h).
Proof.
  intros Hc Hh w. unfold try_except. specialize (Hc w).
  destruct (c w) as [[[]|x] w1]; cbn in *; [exact Hc|].
  eapply evolves_trans; [exact Hc | apply Hh].
Qed.

Lemma steady_print l : steady (print l).
Proof. intros w. unfold print. grown_with registrations_refl. Qed.

Lemma steady_datetime_now e : steady (datetime_now e).
Proof. intros w. unfold datetime_now. grown_with registrations_refl. Qed.

Lemma steady_bot_send_message e chat_id body : steady (bot_send_message e chat_id body).
Proof.
  intros w. unfold bot_send_message.
  destruct (telegram e (List.length (outbox w))); grown_with registrations_refl.
Qed.

Lemma steady_log_send e telegram_id game_id likes_sent success error_message player is_auto :
  steady (log_send e telegram_id game_id likes_sent success error_message player is_auto).
Proof. intros w. rewrite log_send_run. grown_with registrations_refl. Qed.

Lemma update_keeps_registrations e telegram_id game_id player ts likes table :
  0 <= likes ->
  Forall2 same_registration table
          (updated_table e telegram_id game_id player ts likes table).
Proof.
  intros Hl. unfold updated_table.
  destruct (bind_parameters _); [|apply registrations_refl].
  induction table as [|r table IH]; cbn [map]; constructor; [|exact IH].
  destruct (registration_of telegram_id game_id r);
    [|apply same_registration_refl].
  unfold same_registration, update_row.
  cbn [g_telegram_id g_game_id g_added_at g_active g_total_likes_received].
  repeat split. apply sqlite_add_grows. exact Hl.
Qed.

Lemma steady_process_game_id e api_key telegram_id game_id l :
  steady (process_game_id e api_key telegram_id game_id l).
Proof.
  intros w.
  destruct (success_rule (raw_response e w game_id api_key)) as [[|]|x] eqn:Hs.
  - destruct (success_rule_true _ Hs) as (fields & n & Hr & _ & Hn & Hmin).
    rewrite Hr in Hs.
    rewrite (process_game_id_success e api_key telegram_id game_id l w fields n Hr Hs Hn).
    unfold MIN_LIKES_REQUIRED in Hmin.
    split; cbn;
      [ apply update_keeps_registrations; lia
      | eexists; reflexivity | eexists; reflexivity
      | exists []; now rewrite app_nil_r | lia ].
  - destruct (rule_is_dict _ _ Hs) as [fields Hr]. rewrite Hr in Hs.
    destruct (partial_rule_dict fields) as [[|] Hp].
    + rewrite (process_game_id_partial e api_key telegram_id game_id l w fields Hr Hs Hp).
      grown_with registrations_refl.
    + rewrite (process_game_id_error e api_key telegram_id game_id l w fields Hr Hs Hp).
      grown_with registrations_refl.
  - rewrite (process_game_id_raise e api_key telegram_id game_id l w x Hs).
    grown_with registrations_refl.
Qed.

Lemma steady_process_game_ids e api_key telegram_id ids :
  forall l, steady (process_game_ids e api_key telegram_id ids l).
Proof.
  induction ids as [|g ids IH]; intros l; cbn.
  - apply steady_ret.
  - apply steady_bind; [apply steady_process_game_id | exact IH].
Qed.

Lemma steady_send_user_notification e telegram_id results :
  steady (send_user_notification e telegram_id results).
Proof.
  unfold send_user_notification. apply steady_try.
  - apply steady_bind; [apply steady_lift|]. intros [[entries t] s].
    apply steady_bind; [apply steady_datetime_now|]. intros ts.
    apply steady_bot_send_message.
  - intros x. apply steady_print.
Qed.

Lemma steady_send_admin_report e admin_id u i lk s f :
  steady (send_admin_report e admin_id u i lk s f).
Proof.
  unfold send_admin_report. apply steady_try.
  - apply steady_bind; [apply steady_datetime_now|]. intros ts.
    apply steady_bind; [apply steady_lift|]. intros _.
    apply steady_bind; [apply steady_lift|]. intros ratio.
    apply steady_bot_send_message.
  - intros x. apply steady_print.
Qed.

Lemma steady_process_users e api_key users_ids :
  forall l, steady (process_users e api_key users_ids l).
Proof.
  induction users_ids as [|[t ids] rest IH]; intros l; cbn.
  - apply steady_ret.
  - apply steady_bind; [apply steady_process_game_ids|]. intros l'.
    apply steady_bind; [apply steady_send_user_notification|]. intros _. apply IH.
Qed.

Lemma steady_load_key e : steady (load_key e).
Proof.
  unfold load_key. destruct (key_file e); try apply steady_ret.
  apply steady_bind; [apply steady_print | intros; apply steady_ret].
Qed.

Lemma steady_send_automatic_likes e admin_id : steady (send_automatic_likes e admin_id).
Proof.
  unfold send_automatic_likes.
  apply steady_bind; [apply steady_datetime_now|]. intros ts.
  apply steady_bind; [apply steady_print|]. intros _.
  apply steady_bind; [apply steady_load_key|]. intros api_key.
  destruct (key_missing api_key).
  - apply steady_bind; [apply steady_bot_send_message|]. intros _.
    apply steady_bind; [apply steady_print | intros; apply steady_ret].
  - apply steady_bind; [intros w; apply evolves_refl|]. intros users_ids.
    destruct users_ids as [|u rest].
    + apply steady_bind; [apply steady_print | intros; apply steady_ret].
    + apply steady_bind; [apply steady_process_users|]. intros l.
      apply steady_bind; [apply steady_send_admin_report|]. intros _.
      apply steady_bind; [apply steady_print | intros; apply steady_ret].
Qed.

Lemma registrations_active_pairs t1 t2 :
  Forall2 same_registration t1 t2 -> active_pairs t2 = active_pairs t1.
Proof.
  unfold active_pairs.
  induction 1 as [|r1 r2 t1 t2 (Ht & Hg & _ & Ha & _) _ IH]; [reflexivity|].
  cbn [filter]. rewrite Ha. destruct (g_active r1); cbn [map]; now rewrite ?Ht, ?Hg, IH.
Qed.

(** X8. Whatever the responses and the deliveries, and whether the run
    returns or raises, [send_automatic_likes] only refreshes registrations
    and appends: every row of [game_ids] stays the registration it was
    (same user, identifier, date and active flag, none added or removed,
    total never lower), the audit log, the calls and the messages of before
    are still there, and enumerating again gives the same enumeration. *)
Theorem cycle_only_refreshes_and_appends e admin_id w :
  let w' := snd (send_automatic_likes e admin_id w) in
  evolves w w' /\ enumeration w' = enumeration w.
Proof.
  cbv zeta. pose proof (steady_send_automatic_likes e admin_id w) as H.
  split; [exact H|].
  unfold enumeration, select_active. fold (active_pairs (game_ids w)).
  fold (active_pairs (game_ids (snd (send_automatic_likes e admin_id w)))).
  now rewrite (registrations_active_pairs _ _ (ev_registrations _ _ H)).
Qed.

(** ** scheduler.py: the likes credited to the registrations *)

Lemma int64_spec n : int64 n = true <-> - 2 ^ 63 <= n < 2 ^ 63.
Proof. unfold int64. rewrite andb_true_iff, Z.leb_le, Z.ltb_lt. tauto. Qed.

Lemma within_64_bits_less total added less :
  0 <= less <= added -> within_64_bits total added -> within_64_bits total less.
Proof.
  unfold within_64_bits. rewrite !int64_spec. intros H [H1 H2]. split; lia.
Qed.

Lemma within_64_bits_more total first second :
  0 <= first -> 0 <= second ->
  within_64_bits total (first + second) -> within_64_bits (total + first) second.
Proof.
  unfold within_64_bits. rewrite !int64_spec. intros H1 H2 [H3 H4]. split; lia.
Qed.

Lemma outcome_likes_nonneg response : 0 <= outcome_likes response.
Proof.
  unfold outcome_likes.
  destruct (success_rule response) as [[|]|x] eqn:Hs; try lia.
  destruct (success_rule_true _ Hs) as (fields & n & -> & _ & Hn & Hmin).
  cbn [py_get]. rewrite Hn. cbn [py_num]. unfold MIN_LIKES_REQUIRED in Hmin. lia.
Qed.

Lemma credited_nonneg p served : 0 <= credited p served.
Proof.
  unfold credited. induction served as [|s served IH]; [cbn; lia|].
  rewrite map_cons, sum_Z_cons. pose proof (outcome_likes_nonneg (snd s)).
  destruct (pair_eqb p (fst s)); lia.
Qed.

Lemma credit_of_nonneg served r : 0 <= credit_of served r.
Proof.
  unfold credit_of. destruct (g_active r); [apply credited_nonneg | lia].
Qed.

Lemma credited_app p s1 s2 : credited p (s1 ++ s2) = credited p s1 + credited p s2.
Proof. unfold credited. now rewrite map_app, sum_Z_app. Qed.

Lemma credit_of_app served1 served2 r :
  credit_of (served1 ++ served2) r = credit_of served1 r + credit_of served2 r.
Proof.
  unfold credit_of. destruct (g_active r); [apply credited_app | reflexivity].
Qed.

Lemma credited_rows_nil table : credited_rows [] table table.
Proof.
  induction table as [|r table IH]; constructor; [|exact IH].
  split; [apply same_registration_refl|]. intros _. unfold credit_of, credited. cbn.
  destruct (g_active r); lia.
Qed.

Lemma credited_rows_app s1 s2 t1 t2 :
  credited_rows s1 t1 t2 -> forall t3, credited_rows s2 t2 t3 ->
  credited_rows (s1 ++ s2) t1 t3.
Proof.
  induction 1 as [|r1 r2 t1 t2 [S12 H12] _ IH]; intros t3 H23;
    inversion H23 as [|? r3 ? t3' [S23 H23'] Hrest]; subst; constructor.
  - split; [eapply same_registration_trans; eassumption|].
    assert (Hsame : credit_of s2 r2 = credit_of s2 r1).
    { unfold credit_of. destruct S12 as (Ht & Hg & _ & Ha & _). now rewrite Ha, Ht, Hg. }
    rewrite credit_of_app. intros Hin.
    pose proof (credit_of_nonneg s1 r1) as Hc1.
    pose proof (credit_of_nonneg s2 r1) as Hc2.
    assert (H1 : within_64_bits (g_total_likes_received r1) (credit_of s1 r1)).
    { eapply within_64_bits_less; [|exact Hin]. lia. }
    specialize (H12 H1).
    assert (H2 : within_64_bits (g_total_likes_received r2) (credit_of s2 r2)).
    { rewrite H12, Hsame. now apply within_64_bits_more. }
    rewrite (H23' H2), H12, Hsame. lia.
  - apply IH. exact Hrest.
Qed.

Lemma outcome_likes_success fields n :
  success_rule (JObj fields) = Ok true ->
  dict_get fields "likesAdded" (JNum 0) = JNum n ->
  outcome_likes (JObj fields) = n.
Proof. intros Hs Hn. unfold outcome_likes. rewrite Hs. cbn. now rewrite Hn. Qed.

Lemma outcome_likes_failure response :
  success_rule response = Ok false -> outcome_likes response = 0.
Proof. intros Hs. unfold outcome_likes. now rewrite Hs. Qed.

Lemma credited_rows_same served table :
  (forall r, credit_of served r = 0) -> credited_rows served table table.
Proof.
  intros H. induction table as [|r table IH]; constructor; [|exact IH].
  split; [apply same_registration_refl | rewrite H; lia].
Qed.

Lemma process_game_id_credit e api_key telegram_id game_id l w l' w' :
  storable_response (raw_response e w game_id api_key) = true ->
  process_game_id e api_key telegram_id game_id l w = (Ok l', w') ->
  credited_rows [((telegram_id, game_id), raw_response e w game_id api_key)]
                (game_ids w) (game_ids w').
Proof.
  intros Hst Hrun.
  destruct (success_rule (raw_response e w game_id api_key)) as [[|]|x] eqn:Hs.
  - destruct (success_rule_true _ Hs) as (fields & n & Hr & _ & Hn & Hmin).
    rewrite Hr in Hs, Hst |- *.
    rewrite (process_game_id_success e api_key telegram_id game_id l w fields n Hr Hs Hn)
      in Hrun.
    injection Hrun as _ <-. cbn [game_ids].
    unfold storable_response in Hst. rewrite Hs, Hn in Hst.
    apply andb_true_iff in Hst as [Hbn Hbp].
    rewrite updated_table_bound
      by (apply bind_parameters_ok; cbn [forallb]; now rewrite Hbn, Hbp).
    unfold MIN_LIKES_REQUIRED in Hmin.
    induction (game_ids w) as [|r table IH]; cbn [map]; constructor; [|exact IH].
    unfold credit_of, credited, pair_eqb, registration_of.
    cbn [map fst snd sum_Z fold_right].
    rewrite (outcome_likes_success fields n Hs Hn).
    destruct (g_telegram_id r =? telegram_id); cbn [andb];
      [destruct (String.eqb (g_game_id r) game_id); cbn [andb];
       [destruct (g_active r) eqn:Ha; cbn [andb]|]|].
    + unfold same_registration, update_row.
      cbn [g_telegram_id g_game_id g_added_at g_active g_total_likes_received].
      rewrite Ha, Z.add_0_r. split.
      * repeat split. apply sqlite_add_grows. lia.
      * intros [H1 H2]. now apply sqlite_add_exact.
    + split; [apply same_registration_refl | intros _; lia].
    + split; [apply same_registration_refl | intros _; destruct (g_active r); lia].
    + split; [apply same_registration_refl | intros _; destruct (g_active r); lia].
  - assert (Hzero : forall r,
               credit_of [((telegram_id, game_id), raw_response e w game_id api_key)] r = 0).
    { intros r. unfold credit_of, credited. cbn. rewrite (outcome_likes_failure _ Hs).
      destruct (g_active r); [destruct (pair_eqb _ _)|]; reflexivity. }
    destruct (rule_is_dict _ _ Hs) as [fields Hr]. rewrite Hr in Hs.
    destruct (partial_rule_dict fields) as [[|] Hp].
    + rewrite (process_game_id_partial e api_key telegram_id game_id l w fields Hr Hs Hp)
        in Hrun.
      injection Hrun as _ <-. apply credited_rows_same. exact Hzero.
    + rewrite (process_game_id_error e api_key telegram_id game_id l w fields Hr Hs Hp)
        in Hrun.
      injection Hrun as _ <-. apply credited_rows_same. exact Hzero.
  - rewrite (process_game_id_raise e api_key telegram_id game_id l w x Hs) in Hrun.
    discriminate.
Qed.

Lemma process_game_ids_credit e api_key telegram_id ids :
  all_storable e api_key ->
  forall l w l' w',
    process_game_ids e api_key telegram_id ids l w = (Ok l', w') ->
    credited_rows
      (served_from e api_key (List.length (api_calls w)) (map (pair telegram_id) ids))
      (game_ids w) (game_ids w').
Proof.
  intros Hst. induction ids as [|g ids IH]; intros l w l' w' Hrun.
  - injection Hrun as _ <-. apply credited_rows_nil.
  - cbn in Hrun. unfold bind in Hrun.
    destruct (process_game_id e api_key telegram_id g l w) as [[l1|x] w1] eqn:Hstep;
      [|discriminate].
    pose proof (process_game_id_credit _ _ _ _ _ _ _ _ (Hst _ _) Hstep) as H1.
    destruct (process_game_id_ok _ _ _ _ _ _ _ _ Hstep) as (r & row & S1).
    pose proof (IH _ _ _ _ Hrun) as H2.
    rewrite (sp_calls _ _ _ _ _ _ _ _ _ _ S1), length_app, Nat.add_1_r in H2.
    exact (credited_rows_app _ _ _ _ H1 _ H2).
Qed.

Lemma served_from_app e api_key c p1 p2 :
  served_from e api_key c (p1 ++ p2) =
  served_from e api_key c p1 ++ served_from e api_key (c + List.length p1) p2.
Proof.
  revert c. induction p1 as [|p p1 IH]; intros c; cbn.
  - now rewrite Nat.add_0_r.
  - rewrite IH. cbn. now rewrite Nat.add_succ_r.
Qed.

Lemma process_users_credit e api_key users_ids :
  all_storable e api_key ->
  forall l w l' w',
    process_users e api_key users_ids l w = (Ok l', w') ->
    credited_rows
      (served_from e api_key (List.length (api_calls w)) (enumerated_pairs users_ids))
      (game_ids w) (game_ids w').
Proof.
  intros Hst. induction users_ids as [|[t ids] rest IH]; intros l w l' w' Hrun.
  - injection Hrun as _ <-. apply credited_rows_nil.
  - cbn in Hrun. unfold bind in Hrun.
    destruct (process_game_ids e api_key t ids
                (mk_locals (total_likes_sent l) (total_successes l) (total_failures l) [])
                w) as [[l1|x] w1] eqn:Hinner; [|discriminate].
    pose proof (process_game_ids_credit _ _ _ _ Hst _ _ _ _ Hinner) as H1.
    destruct (process_game_ids_ok _ _ _ _ _ _ _ _ Hinner) as (rs & rows & S1).
    destruct (send_user_notification_spec e t (user_results l1) w1)
      as (w2 & Hn & Hg2 & _ & Hc2 & _).
    rewrite Hn in Hrun. pose proof (IH _ _ _ _ Hrun) as H2.
    rewrite Hg2, Hc2, (ip_calls _ _ _ _ _ _ _ _ _ _ S1), length_app, length_map in H2.
    unfold enumerated_pairs. cbn [flat_map fst snd]. rewrite served_from_app, length_map.
    exact (credited_rows_app _ _ _ _ H1 _ H2).
Qed.

Lemma cycle_credited_rows e admin_id w r w' :
  key_missing (stored_key e) = false ->
  all_storable e (cycle_key e) ->
  send_automatic_likes e admin_id w = (Ok r, w') ->
  credited_rows (run_served e w) (game_ids w) (game_ids w').
Proof.
  intros Hk Hst Hrun.
  destruct (enumeration w) as [|u rest] eqn:He.
  - rewrite cycle_unfold, Hk, He in Hrun. injection Hrun as _ <-.
    unfold run_served. rewrite He. apply credited_rows_nil.
  - assert (Hne : enumeration w <> []) by (rewrite He; discriminate).
    destruct (process_users e (cycle_key e) (enumeration w) (mk_locals 0 0 0 [])
                (prologue e w)) as [[l|x] w1] eqn:Hloop.
    + pose proof (process_users_credit _ _ _ Hst _ _ _ _ Hloop) as Hc.
      unfold cycle_key in Hloop.
      destruct (cycle_completes e admin_id w l w1 Hk Hne Hloop)
        as (w2 & lines & Hrun2 & Hg & _).
      rewrite Hrun2 in Hrun. injection Hrun as _ <-. rewrite Hg.
      exact Hc.
    + unfold cycle_key in Hloop.
      rewrite (cycle_raises e admin_id w x w1 Hk Hne Hloop) in Hrun. discriminate.
Qed.

(** X9. After a run that returns with a usable credential, and whose
    payloads give for [likesAdded], [player] and [message] values that
    SQLite binds, the cumulative total of every registration has grown by
    exactly the likes of the Success outcomes served for its
    (user, identifier) pair in that run, as long as the total stays within
    the 64 bits of an SQLite integer: by nothing for a pair that only had
    Partial or Error outcomes, and by nothing for an inactive row. *)
Theorem cycle_credits_registrations e admin_id w r w' :
  key_missing (stored_key e) = false ->
  payloads_storable e (cycle_key e) ->
  send_automatic_likes e admin_id w = (Ok r, w') ->
  Forall2 (fun row row' =>
             within_64_bits (g_total_likes_received row) (credit_of (run_served e w) row) ->
             g_total_likes_received row' =
             g_total_likes_received row + credit_of (run_served e w) row)
          (game_ids w) (game_ids w').
Proof.
  intros Hk Hst Hrun.
  pose proof (cycle_credited_rows e admin_id w r w' Hk (payloads_all_storable _ _ Hst) Hrun)
    as H.
  eapply Forall2_impl; [|exact H]. intros a b [_ Hab]. exact Hab.
Qed.

Lemma cycle_credits_registrations_witness :
  Forall2 (fun row row' =>
             within_64_bits (g_total_likes_received row)
                            (credit_of (run_served sample_env sample_world) row) ->
             g_total_likes_received row' =
             g_total_likes_received row + credit_of (run_served sample_env sample_world) row)
          (game_ids sample_world)
          (game_ids (snd (send_automatic_likes sample_env 99 sample_world))).
Proof.
  apply (cycle_credits_registrations sample_env 99 sample_world None).
  - reflexivity.
  - exact sample_payloads_storable.
  - vm_compute. reflexivity.
Defined.

(** ** scheduler.py: the figures agree *)

Lemma served_from_responses e api_key c pairs :
  map snd (served_from e api_key c pairs) = responses_from e api_key c (map snd pairs).
Proof.
  revert c. induction pairs as [|p pairs IH]; intros c; cbn; [reflexivity|].
  now rewrite IH.
Qed.

Lemma served_from_pairs e api_key c pairs :
  map fst (served_from e api_key c pairs) = pairs.
Proof.
  revert c. induction pairs as [|p pairs IH]; intros c; cbn; [reflexivity|].
  now rewrite IH.
Qed.

Lemma pair_eqb_eq p q : pair_eqb p q = true <-> p = q.
Proof.
  destruct p as [a b], q as [c d]. unfold pair_eqb. cbn.
  rewrite andb_true_iff, Z.eqb_eq, String.eqb_eq. split.
  - intros [-> ->]. reflexivity.
  - intros H. injection H as -> ->. auto.
Qed.

Lemma sum_indicator_absent (pairs : list (Z * string)) (q : Z * string) (x : Z) :
  ~ In q pairs ->
  sum_Z (map (fun p => if pair_eqb p q then x else 0) pairs) = 0.
Proof.
  induction pairs as [|p pairs IH]; intros Hnotin; [reflexivity|].
  rewrite map_cons, sum_Z_cons, IH by (intros H; apply Hnotin; now right).
  destruct (pair_eqb p q) eqn:Hp; [|reflexivity].
  apply pair_eqb_eq in Hp. subst. exfalso. apply Hnotin. now left.
Qed.

Lemma sum_indicator (pairs : list (Z * string)) (q : Z * string) (x : Z) :
  NoDup pairs -> In q pairs ->
  sum_Z (map (fun p => if pair_eqb p q then x else 0) pairs) = x.
Proof.
  induction 1 as [|p pairs Hnotin Hnd IH]; intros Hin; [contradiction|].
  rewrite map_cons, sum_Z_cons. destruct Hin as [->|Hin].
  - assert (Hq : pair_eqb q q = true) by now apply pair_eqb_eq.
    rewrite Hq, sum_indicator_absent by exact Hnotin. lia.
  - destruct (pair_eqb p q) eqn:Hp.
    + apply pair_eqb_eq in Hp. subst. contradiction.
    + rewrite (IH Hin). lia.
Qed.

Lemma credited_nil p : credited p [] = 0.
Proof. reflexivity. Qed.

Lemma credited_cons p s served :
  credited p (s :: served)
  = (if pair_eqb p (fst s) then outcome_likes (snd s) else 0) + credited p served.
Proof. reflexivity. Qed.

Lemma total_credit pairs served :
  NoDup pairs ->
  incl (map fst served) pairs ->
  sum_Z (map (fun p => credited p served) pairs) = sum_Z (map outcome_likes (map snd served)).
Proof.
  intros Hnd. induction served as [|s served IH]; intros Hincl.
  - cbn [map]. clear. induction pairs as [|p pairs IHp]; [reflexivity|].
    now rewrite map_cons, sum_Z_cons, credited_nil, IHp.
  - assert (Hsplit : forall l,
               sum_Z (map (fun p => credited p (s :: served)) l)
               = sum_Z (map (fun p => if pair_eqb p (fst s) then outcome_likes (snd s) else 0) l)
                 + sum_Z (map (fun p => credited p served) l)).
    { induction l as [|p l IHl]; [reflexivity|].
      rewrite !map_cons, !sum_Z_cons, IHl, credited_cons. lia. }
    rewrite Hsplit, IH by (intros q Hq; apply Hincl; now right).
    rewrite sum_indicator; [rewrite !map_cons, sum_Z_cons; reflexivity | exact Hnd |].
    apply Hincl. now left.
Qed.

Lemma credited_le_total p served :
  credited p served <= sum_Z (map outcome_likes (map snd served)).
Proof.
  induction served as [|s served IH]; [cbn; lia|].
  rewrite credited_cons, !map_cons, sum_Z_cons.
  pose proof (outcome_likes_nonneg (snd s)). destruct (pair_eqb p (fst s)); lia.
Qed.

Lemma credit_of_le_total served r :
  0 <= credit_of served r <= sum_Z (map outcome_likes (map snd served)).
Proof.
  split; [apply credit_of_nonneg|]. unfold credit_of.
  destruct (g_active r); [apply credited_le_total|].
  clear r. induction served as [|s served IH]; [cbn; lia|].
  rewrite !map_cons, sum_Z_cons. pose proof (outcome_likes_nonneg (snd s)). lia.
Qed.

Lemma credited_rows_total served table table' :
  credited_rows served table table' ->
  Forall (fun r => within_64_bits (g_total_likes_received r)
                                  (sum_Z (map outcome_likes (map snd served)))) table ->
  total_received table' =
  total_received table + sum_Z (map (fun p => credited p served) (active_pairs table)).
Proof.
  unfold total_received, active_pairs.
  induction 1 as [|r r' t t' [_ Hr] _ IH]; intros Hin; [reflexivity|].
  inversion Hin as [|? ? Hin1 Hin2]; subst.
  rewrite !map_cons, !sum_Z_cons, (IH Hin2), Hr.
  - cbn [filter]. unfold credit_of.
    destruct (g_active r); [rewrite !map_cons, sum_Z_cons|]; lia.
  - eapply within_64_bits_less; [apply credit_of_le_total | exact Hin1].
Qed.

(** X10. Where no pair has two active rows, the likes are accounted for:
    after a run that returns with a usable credential, whose payloads give
    for [likesAdded], [player] and [message] values that SQLite binds, and
    in which no total leaves the 64 bits of an SQLite integer, the sum of
    the cumulative totals of all registrations has grown by exactly the
    [total_likes] that the run reports to the administrator. *)
Theorem cycle_accounts_for_likes e admin_id w r w' :
  unique_active (game_ids w) ->
  key_missing (stored_key e) = false ->
  payloads_storable e (cycle_key e) ->
  Forall (fun row => within_64_bits (g_total_likes_received row)
                                    (s_total_likes (aggregation e w))) (game_ids w) ->
  send_automatic_likes e admin_id w = (Ok r, w') ->
  total_received (game_ids w')
  = total_received (game_ids w) + s_total_likes (aggregation e w).
Proof.
  intros Hu Hk Hst Hin Hrun.
  pose proof (cycle_credited_rows e admin_id w r w' Hk (payloads_all_storable _ _ Hst) Hrun)
    as H.
  assert (Hlikes : s_total_likes (aggregation e w)
                   = sum_Z (map outcome_likes (map snd (run_served e w)))).
  { unfold run_served. rewrite served_from_responses. reflexivity. }
  rewrite Hlikes in Hin |- *.
  rewrite (credited_rows_total _ _ _ H Hin). f_equal.
  pose proof (enumeration_permutes_active_pairs w) as Hperm.
  rewrite total_credit.
  - reflexivity.
  - exact Hu.
  - unfold run_served. rewrite served_from_pairs.
    intros p Hp. eapply Permutation_in; [exact Hperm | exact Hp].
Qed.

Lemma cycle_accounts_for_likes_witness :
  total_received (game_ids (snd (send_automatic_likes sample_env 99 sample_world)))
  = total_received (game_ids sample_world)
    + s_total_likes (aggregation sample_env sample_world).
Proof.
  apply (cycle_accounts_for_likes sample_env 99 sample_world None).
  - vm_compute. repeat constructor; cbn; intuition discriminate.
  - reflexivity.
  - exact sample_payloads_storable.
  - repeat constructor; vm_compute; reflexivity.
  - vm_compute. reflexivity.
Defined.








(** ** scheduler.py: deliveries do not matter to what is stored *)

Lemma alike_ret {A} (a : A) : alike (ret a) (ret a).
Proof. intros w1 w2 H. split; [reflexivity | exact H]. Qed.

Lemma alike_lift {A} (o : outcome A) : alike (lift o) (lift o).
Proof. intros w1 w2 H. split; [reflexivity | exact H]. Qed.

Lemma alike_bind {A B} (c1 c2 : M A) (k1 k2 : A -> M B) :
  alike c1 c2 -> (forall a, alike (k1 a) (k2 a)) -> alike (bind c1 k1) (bind c2 k2).
Proof.
  intros Hc Hk w1 w2 H. unfold bind. destruct (Hc w1 w2 H) as [Hr Hw].
  destruct (c1 w1) as [[a1|x1] w1'], (c2 w2) as [[a2|x2] w2']; cbn in *;
    try discriminate.
  - injection Hr as <-. apply Hk. exact Hw.
  - injection Hr as <-. split; [reflexivity | exact Hw].
Qed.

Lemma alike_worlds_bind {A B} (c1 c2 : M A) (k1 k2 : A -> M B) :
  alike c1 c2 -> (forall a, alike_worlds (k1 a) (k2 a)) ->
  alike_worlds (bind c1 k1) (bind c2 k2).
Proof.
  intros Hc Hk w1 w2 H. unfold bind. destruct (Hc w1 w2 H) as [Hr Hw].
  destruct (c1 w1) as [[a1|x1] w1'], (c2 w2) as [[a2|x2] w2']; cbn in *;
    try discriminate.
  - injection Hr as <-. apply Hk. exact Hw.
  - exact Hw.
Qed.

Lemma alike_is_alike_worlds {A} (c1 c2 : M A) : alike c1 c2 -> alike_worlds c1 c2.
Proof. intros H w1 w2 Hw. apply H. exact Hw. Qed.

Lemma alike_print l1 l2 : alike (print l1) (print l2).
Proof. intros w1 w2 [? ? ? ? ?]. split; [reflexivity|]. split; cbn; assumption. Qed.

Lemma alike_datetime_now e deliver :
  alike (datetime_now e) (datetime_now (with_telegram e deliver)).
Proof.
  intros w1 w2 [? ? ? Hc ?]. unfold datetime_now. cbn. rewrite Hc.
  split; [reflexivity|]. split; cbn; congruence.
Qed.

Lemma alike_send_likes e deliver game_id api_key :
  alike (send_likes e game_id api_key) (send_likes (with_telegram e deliver) game_id api_key).
Proof.
  intros w1 w2 [? ? Hc ? ?]. unfold send_likes. cbn. rewrite Hc.
  split; [reflexivity|]. split; cbn; congruence.
Qed.

Lemma alike_log_send e deliver telegram_id game_id likes success err player is_auto :
  alike (log_send e telegram_id game_id likes success err player is_auto)
        (log_send (with_telegram e deliver) telegram_id game_id likes success err player
                  is_auto).
Proof.
  unfold log_send. apply alike_bind; [apply alike_datetime_now|].
  intros ts. destruct (bind_parameters [likes; err; player]); [|apply alike_print].
  change (logged_row (with_telegram e deliver)) with (logged_row e).
  intros w1 w2 [? ? ? ? ?]. split; [reflexivity|]. split; cbn; congruence.
Qed.

Lemma alike_update_game_id_info e deliver telegram_id game_id player likes :
  alike (update_game_id_info e telegram_id game_id player likes)
        (update_game_id_info (with_telegram e deliver) telegram_id game_id player likes).
Proof.
  unfold update_game_id_info. apply alike_bind; [apply alike_datetime_now|].
  intros ts. destruct (bind_parameters [player; JNum likes]); [|apply alike_print].
  change (update_row (with_telegram e deliver)) with (update_row e).
  intros w1 w2 [? ? ? ? ?]. split; [reflexivity|]. split; cbn; congruence.
Qed.

Lemma alike_process_game_id e deliver api_key telegram_id game_id l :
  alike (process_game_id e api_key telegram_id game_id l)
        (process_game_id (with_telegram e deliver) api_key telegram_id game_id l).
Proof.
  unfold process_game_id.
  apply alike_bind; [apply alike_print|]. intros _.
  apply alike_bind; [apply alike_send_likes|]. intros response.
  apply alike_bind; [apply alike_lift|]. intros [|].
  - apply alike_bind; [apply alike_lift|]. intros likes_added.
    apply alike_bind; [apply alike_lift|]. intros player.
    destruct (py_num likes_added) as [n|]; [|apply alike_lift].
    apply alike_bind; [apply alike_update_game_id_info|]. intros _.
    apply alike_bind; [apply alike_log_send|]. intros _. apply alike_ret.
  - apply alike_bind; [apply alike_lift|]. intros [|].
    + apply alike_bind; [apply alike_lift|]. intros likes_added.
      apply alike_bind; [apply alike_lift|]. intros player.
      apply alike_bind; [apply alike_log_send|]. intros _. apply alike_ret.
    + apply alike_bind; [apply alike_lift|]. intros error_msg.
      apply alike_bind; [apply alike_log_send|]. intros _. apply alike_ret.
Qed.

Lemma alike_process_game_ids e deliver api_key telegram_id ids :
  forall l,
    alike (process_game_ids e api_key telegram_id ids l)
          (process_game_ids (with_telegram e deliver) api_key telegram_id ids l).
Proof.
  induction ids as [|g ids IH]; intros l; cbn; [apply alike_ret|].
  apply alike_bind; [apply alike_process_game_id | exact IH].
Qed.

Lemma agree_outbox_length w1 w2 :
  agree w1 w2 -> List.length (outbox w1) = List.length (outbox w2).
Proof.
  intros [_ _ _ _ H]. rewrite <- (length_map undelivered (outbox w1)), H.
  apply length_map.
Qed.

Lemma agree_bot_send_message e deliver chat_id body :
  alike_worlds (bot_send_message e chat_id body)
               (bot_send_message (with_telegram e deliver) chat_id body).
Proof.
  intros w1 w2 [? ? ? ? Ho]. unfold bot_send_message. cbn.
  destruct (telegram e _), (deliver _); split; cbn; try assumption;
    rewrite !map_app, Ho; reflexivity.
Qed.

Lemma alike_send_user_notification e deliver telegram_id results :
  alike (send_user_notification e telegram_id results)
        (send_user_notification (with_telegram e deliver) telegram_id results).
Proof.
  intros w1 w2 [Hg Hh Hc Hk Ho].
  unfold send_user_notification, try_except, bind, lift, datetime_now,
    bot_send_message, print.
  destruct (render_results 1 results 0 0) as [[[entries t] s]|x]; cbn.
  - rewrite Hk.
    destruct (telegram e _), (deliver _); cbn; (split; [reflexivity|]);
      split; cbn; try congruence; rewrite !map_app, Ho; reflexivity.
  - split; [reflexivity|]. split; cbn; assumption.
Qed.

Lemma alike_send_admin_report e deliver admin_id u i lk s f :
  alike (send_admin_report e admin_id u i lk s f)
        (send_admin_report (with_telegram e deliver) admin_id u i lk s f).
Proof.
  intros w1 w2 [Hg Hh Hc Hk Ho].
  unfold send_admin_report, try_except, bind, lift, datetime_now,
    bot_send_message, print. cbn.
  destruct (py_truediv s (s + f)) as [q|x]; cbn.
  - rewrite Hk.
    destruct (telegram e _), (deliver _); cbn; (split; [reflexivity|]);
      split; cbn; try congruence; rewrite !map_app, Ho; reflexivity.
  - split; [reflexivity|]. split; cbn; congruence.
Qed.

Lemma alike_process_users e deliver api_key users_ids :
  forall l,
    alike (process_users e api_key users_ids l)
          (process_users (with_telegram e deliver) api_key users_ids l).
Proof.
  induction users_ids as [|[t ids] rest IH]; intros l; cbn; [apply alike_ret|].
  apply alike_bind; [apply alike_process_game_ids|]. intros l'.
  apply alike_bind; [apply alike_send_user_notification|]. intros _. apply IH.
Qed.

Lemma alike_load_key e deliver : alike (load_key e) (load_key (with_telegram e deliver)).
Proof.
  unfold load_key. cbn. destruct (key_file e); try apply alike_ret.
  apply alike_bind; [apply alike_print | intros; apply alike_ret].
Qed.

Lemma alike_get_all_active_game_ids : alike get_all_active_game_ids get_all_active_game_ids.
Proof.
  intros w1 w2 H. unfold get_all_active_game_ids. cbn.
  rewrite (ag_game_ids _ _ H). split; [reflexivity | exact H].
Qed.

Lemma agree_refl w : agree w w.
Proof. split; reflexivity. Qed.

(** X12. What a run stores and requests does not depend on Telegram.
    Take the same run with any other fate for the calls to
    [bot.send_message]: the registrations, the audit log, the calls to the
    remote endpoint and the messages passed to [bot.send_message] are the
    same, and with a usable credential so is the way the run ends. *)
Theorem deliveries_do_not_change_the_run e deliver admin_id w :
  agree (snd (send_automatic_likes e admin_id w))
        (snd (send_automatic_likes (with_telegram e deliver) admin_id w)) /\
  (key_missing (stored_key e) = false ->
   fst (send_automatic_likes e admin_id w)
   = fst (send_automatic_likes (with_telegram e deliver) admin_id w)).
Proof.
  split.
  - revert w. 
    assert (H : alike_worlds (send_automatic_likes e admin_id)
                             (send_automatic_likes (with_telegram e deliver) admin_id)).
    { unfold send_automatic_likes.
      apply alike_worlds_bind; [apply alike_datetime_now|]. intros ts.
      apply alike_worlds_bind; [apply alike_print|]. intros _.
      apply alike_worlds_bind; [apply alike_load_key|]. intros api_key.
      destruct (key_missing api_key).
      - intros w1 w2 Hw. unfold bind.
        pose proof (agree_bot_send_message e deliver admin_id ConfigErrorNotice w1 w2 Hw)
          as Hs.
        destruct (bot_send_message e admin_id ConfigErrorNotice w1) as [[[]|x1] w1'],
                 (bot_send_message (with_telegram e deliver) admin_id ConfigErrorNotice w2)
                   as [[[]|x2] w2']; cbn in *; try exact Hs;
          destruct Hs; split; cbn; assumption.
      - apply alike_is_alike_worlds.
        apply alike_bind; [apply alike_get_all_active_game_ids|]. intros users_ids.
        destruct users_ids as [|u rest].
        + apply alike_bind; [apply alike_print | intros; apply alike_ret].
        + apply alike_bind; [apply alike_process_users|]. intros l.
          apply alike_bind; [apply alike_send_admin_report|]. intros _.
          apply alike_bind; [apply alike_print | intros; apply alike_ret]. }
    intros w. apply H. apply agree_refl.
  - intros Hk. rewrite !cycle_unfold.
    change (stored_key (with_telegram e deliver)) with (stored_key e). rewrite Hk.
    destruct (enumeration w) as [|u rest] eqn:He; [reflexivity|].
    cbv zeta.
    assert (H : alike
              (l <- process_users e (match stored_key e with Some k => k | None => "" end)
                     (u :: rest) (mk_locals 0 0 0 []) ;;
               send_admin_report e admin_id (Z.of_nat (List.length (u :: rest)))
                 (count_ids (u :: rest)) (total_likes_sent l) (total_successes l)
                 (total_failures l) ;;
               print LogDone ;; ret (@None DispatchSummary))
              (l <- process_users (with_telegram e deliver)
                     (match stored_key e with Some k => k | None => "" end)
                     (u :: rest) (mk_locals 0 0 0 []) ;;
               send_admin_report (with_telegram e deliver) admin_id
                 (Z.of_nat (List.length (u :: rest)))
                 (count_ids (u :: rest)) (total_likes_sent l) (total_successes l)
                 (total_failures l) ;;
               print LogDone ;; ret (@None DispatchSummary))).
    { apply alike_bind; [apply alike_process_users|]. intros l.
      apply alike_bind; [apply alike_send_admin_report|]. intros _.
      apply alike_bind; [apply alike_print | intros; apply alike_ret]. }
    apply H. split; reflexivity.
Qed.

Lemma deliveries_do_not_change_the_run_witness :
  fst (send_automatic_likes sample_env 99 sample_world)
  = fst (send_automatic_likes (with_telegram sample_env (fun _ => false)) 99 sample_world).
Proof.
  destruct (deliveries_do_not_change_the_run sample_env (fun _ => false) 99 sample_world)
    as [_ H].
  apply H. reflexivity.
Defined.

(** ** scheduler.py, api_client.py, bot.py: [escape_markdown] *)

Lemma escape_each_nil s : escape_each [] s = s.
Proof. induction s as [|x s IH]; cbn; [reflexivity | now rewrite IH]. Qed.

Lemma existsb_eqb_in (x : ascii) (l : list ascii) :
  existsb (Ascii.eqb x) l = true <-> In x l.
Proof.
  rewrite existsb_exists. split.
  - intros (y & Hin & Heq). apply Ascii.eqb_eq in Heq. now subst.
  - intros Hin. exists x. split; [exact Hin | apply Ascii.eqb_refl].
Qed.

Lemma replace_char_escape_each specials c s :
  ~ In c specials -> c <> backslash ->
  replace_char c (escape_each specials s) = escape_each (specials ++ [c]) s.
Proof.
  intros Hnotin Hnb. induction s as [|x s IH]; [reflexivity|].
  cbn [escape_each]. rewrite existsb_app. cbn [existsb]. rewrite orb_false_r.
  destruct (existsb (Ascii.eqb x) specials) eqn:Hx.
  - cbn [orb replace_char].
    assert (Hb : Ascii.eqb backslash c = false).
    { apply Ascii.eqb_neq. congruence. }
    assert (Hxc : Ascii.eqb x c = false).
    { apply Ascii.eqb_neq. intros ->. apply existsb_eqb_in in Hx. contradiction. }
    now rewrite Hb, Hxc, IH.
  - cbn [orb replace_char]. destruct (Ascii.eqb x c) eqn:Hxc.
    + apply Ascii.eqb_eq in Hxc. subst x. now rewrite IH.
    + now rewrite IH.
Qed.

Lemma fold_replace_escape_each rest :
  forall specials s,
    NoDup (specials ++ rest) -> ~ In backslash rest ->
    fold_left (fun result c => replace_char c result) rest (escape_each specials s)
    = escape_each (specials ++ rest) s.
Proof.
  induction rest as [|c rest IH]; intros specials s Hnd Hb.
  - now rewrite app_nil_r.
  - cbn [fold_left]. rewrite replace_char_escape_each.
    + change (c :: rest) with ([c] ++ rest). rewrite app_assoc. apply IH.
      * now rewrite <- app_assoc.
      * intros H. apply Hb. now right.
    + apply NoDup_remove_2 in Hnd. intros H. apply Hnd. apply in_or_app. now left.
    + intros ->. apply Hb. now left.
Qed.

Lemma special_chars_nodup : NoDup special_chars.
Proof.
  unfold special_chars.
  repeat (constructor; [cbn; intuition discriminate|]). constructor.
Qed.

Lemma backslash_not_special : ~ In backslash special_chars.
Proof. cbn. intuition discriminate. Qed.

Lemma escape_markdown_nonempty text :
  text <> "" -> escape_markdown text = escape_each special_chars text.
Proof.
  intros Hne. unfold escape_markdown.
  destruct (String.eqb_spec text ""); [contradiction|].
  rewrite <- (escape_each_nil text) at 1.
  apply (fold_replace_escape_each special_chars []).
  - exact special_chars_nodup.
  - exact backslash_not_special.
Qed.

(** X13. The eighteen replacements of [escape_markdown] amount to one pass
    over the text that puts one backslash before each special character and
    leaves every other character alone: no replacement undoes or repeats
    the work of another.  The empty text becomes ["N/A"]. *)
Theorem escape_markdown_is_one_pass text :
  escape_markdown "" = "N/A" /\
  (text <> "" -> escape_markdown text = escape_each special_chars text).
Proof. split; [reflexivity | apply escape_markdown_nonempty]. Qed.

Lemma escape_markdown_is_one_pass_witness :
  escape_markdown "a_b.c" = escape_each special_chars "a_b.c".
Proof.
  destruct (escape_markdown_is_one_pass "a_b.c") as [_ H]. apply H. discriminate.
Defined.

Lemma escape_each_head specials s :
  match escape_each specials s with
  | String y _ => existsb (Ascii.eqb y) specials = false \/ y = backslash
  | EmptyString => True
  end.
Proof.
  destruct s as [|x s]; cbn; [exact I|].
  destruct (existsb (Ascii.eqb x) specials) eqn:Hx; [now right | now left].
Qed.

Lemma unescape_plain x s :
  match s with String y _ => is_special y = false | EmptyString => True end ->
  unescape (String x s) = String x (unescape s).
Proof.
  destruct s as [|y tail]; intros Hy; [reflexivity|].
  change (unescape (String x (String y tail)))
    with (if Ascii.eqb x backslash && is_special y
          then String y (unescape tail) else String x (unescape (String y tail))).
  now rewrite Hy, andb_false_r.
Qed.

Lemma unescape_escaped x s :
  is_special x = true ->
  unescape (String backslash (String x s)) = String x (unescape s).
Proof.
  intros Hx.
  change (unescape (String backslash (String x s)))
    with (if Ascii.eqb backslash backslash && is_special x
          then String x (unescape s) else String backslash (unescape (String x s))).
  now rewrite Ascii.eqb_refl, Hx.
Qed.

Lemma unescape_escape_each s : unescape (escape_each special_chars s) = s.
Proof.
  induction s as [|x s IH]; [reflexivity|].
  cbn [escape_each]. fold (is_special x).
  destruct (is_special x) eqn:Hx.
  - now rewrite unescape_escaped, IH.
  - rewrite unescape_plain, IH; [reflexivity|].
    pose proof (escape_each_head special_chars s) as Hhead.
    destruct (escape_each special_chars s) as [|y tail]; [exact I|].
    destruct Hhead as [H| ->]; [exact H|].
    unfold is_special. destruct (existsb _ _) eqn:Hb; [|reflexivity].
    apply existsb_eqb_in in Hb. now apply backslash_not_special in Hb.
Qed.

(** X14. Escaping loses nothing: two non-empty texts with the same escaped
    form are the same text.  (The empty text is the exception: it is
    escaped to ["N/A"], like the text ["N/A"] itself.) *)
Theorem escape_markdown_is_injective s t :
  s <> "" -> t <> "" -> escape_markdown s = escape_markdown t -> s = t.
Proof.
  intros Hs Ht H. rewrite !escape_markdown_nonempty in H by assumption.
  rewrite <- (unescape_escape_each s), <- (unescape_escape_each t). now rewrite H.
Qed.

Lemma escape_markdown_is_injective_witness : "a_b" = "a_b".
Proof.
  apply (escape_markdown_is_injective "a_b" "a_b");
    [discriminate | discriminate | reflexivity].
Defined.

(** ** api_client.py: [format_number] *)

Lemma nilempty_digits d :
  all_digits (list_ascii_of_string (NilEmpty.string_of_uint d)).
Proof. induction d; cbn; constructor; auto. Qed.

Lemma nilzero_digits d :
  all_digits (list_ascii_of_string (NilZero.string_of_uint d)).
Proof.
  destruct d; try apply nilempty_digits. cbn. repeat constructor.
Qed.

Lemma group3_keeps_digits n :
  forall l, (List.length l <= n)%nat ->
            filter (fun c => negb (Ascii.eqb c ",")) (group3 l)
            = filter (fun c => negb (Ascii.eqb c ",")) l.
Proof.
  induction n as [|n IH]; intros l Hlen.
  - destruct l; [reflexivity | cbn in Hlen; lia].
  - destruct l as [|a [|b [|c [|d rest]]]]; try reflexivity.
    change (group3 (a :: b :: c :: d :: rest))
      with (a :: b :: c :: ","%char :: group3 (d :: rest)).
    cbn [filter]. cbn [Ascii.eqb Bool.eqb negb andb].
    rewrite IH by (cbn in *; lia).
    destruct (negb (Ascii.eqb a ",")), (negb (Ascii.eqb b ",")), (negb (Ascii.eqb c ","));
      reflexivity.
Qed.

Lemma digits_have_no_comma l :
  all_digits l -> filter (fun c => negb (Ascii.eqb c ",")) l = l.
Proof.
  induction 1 as [|c l Hc _ IH]; [reflexivity|]. cbn [filter]. rewrite IH.
  destruct (Ascii.eqb_spec c ","); [subst; discriminate | reflexivity].
Qed.

Lemma without_dots_commas l :
  Forall (fun c => c <> "."%char) l ->
  without_dots (commas_to_dots (string_of_list_ascii l))
  = string_of_list_ascii (filter (fun c => negb (Ascii.eqb c ",")) l).
Proof.
  induction 1 as [|c l Hc _ IH]; [reflexivity|].
  cbn [string_of_list_ascii commas_to_dots without_dots filter].
  destruct (Ascii.eqb_spec c ",").
  - cbn. exact IH.
  - cbn [negb]. destruct (Ascii.eqb_spec c "."); [contradiction|].
    cbn [string_of_list_ascii]. now rewrite IH.
Qed.

Lemma group3_no_dot n :
  forall l, (List.length l <= n)%nat ->
            Forall (fun c => c <> "."%char) l ->
            Forall (fun c => c <> "."%char) (group3 l).
Proof.
  induction n as [|n IH]; intros l Hlen Hl.
  - destruct l; [constructor | cbn in Hlen; lia].
  - destruct l as [|a [|b [|c [|d rest]]]]; try exact Hl.
    change (group3 (a :: b :: c :: d :: rest))
      with (a :: b :: c :: ","%char :: group3 (d :: rest)).
    inversion Hl as [|? ? Ha Hl1]; subst. inversion Hl1 as [|? ? Hb Hl2]; subst.
    inversion Hl2 as [|? ? Hc Hl3]; subst.
    repeat (constructor; [assumption || discriminate|]).
    apply IH; [cbn in *; lia | exact Hl3].
Qed.

Lemma digits_no_dot l : all_digits l -> Forall (fun c => c <> "."%char) l.
Proof.
  intros H. eapply Forall_impl; [|exact H]. intros c Hc ->. discriminate.
Qed.

Lemma group_thousands_without_dots digits :
  all_digits (list_ascii_of_string digits) ->
  without_dots (commas_to_dots (group_thousands digits)) = digits.
Proof.
  intros Hd. unfold group_thousands.
  rewrite without_dots_commas.
  - rewrite filter_rev, (group3_keeps_digits _ _ (le_n _)), <- filter_rev, rev_involutive.
    rewrite digits_have_no_comma by exact Hd. apply string_of_list_ascii_of_string.
  - apply Forall_rev. apply (group3_no_dot _ _ (le_n _)).
    apply Forall_rev. apply digits_no_dot. exact Hd.
Qed.

Lemma to_int_parses n :
  NilZero.int_of_string (py_str_int n) = Some (Z.to_int n).
Proof.
  unfold py_str_int. apply NilZero.isi; destruct n; cbn; try discriminate;
    intros H; injection H as H; now apply Unsigned.to_uint_nonnil in H.
Qed.

(** X15. [format_number] only inserts separators: deleting the dots from
    [format_number(n)] gives [str(n)] back, which reads as [n] again. *)
Theorem format_number_round_trip n :
  without_dots (format_number_text n) = py_str_int n /\
  option_map Z.of_int (NilZero.int_of_string (without_dots (format_number_text n)))
  = Some n.
Proof.
  assert (H : without_dots (format_number_text n) = py_str_int n).
  { unfold format_number_text, format_with_commas, py_str_int.
    destruct (Z.to_int n) as [d|d]; cbn [NilZero.string_of_int].
    - apply group_thousands_without_dots. apply nilzero_digits.
    - cbn [commas_to_dots without_dots]. cbn [Ascii.eqb Bool.eqb].
      f_equal. apply group_thousands_without_dots. apply nilzero_digits. }
  split; [exact H|]. rewrite H, to_int_parses. cbn. f_equal. apply DecimalZ.of_to.
Qed.

Lemma group3_shape n :
  forall l, (List.length l <= n)%nat -> l <> [] ->
  exists groups last,
    l = List.concat groups ++ last /\
    Forall (fun g => List.length g = 3%nat) groups /\
    (1 <= List.length last <= 3)%nat /\
    group3 l = List.concat (map (fun g => g ++ [","%char]) groups) ++ last.
Proof.
  induction n as [|n IH]; intros l Hlen Hne.
  - destruct l; [contradiction | cbn in Hlen; lia].
  - destruct l as [|a [|b [|c [|d rest]]]]; [contradiction| | | |].
    + exists [], [a]. cbn. repeat split; try constructor; lia.
    + exists [], [a; b]. cbn. repeat split; try constructor; lia.
    + exists [], [a; b; c]. cbn. repeat split; try constructor; lia.
    + destruct (IH (d :: rest)) as (groups & last & Hl & Hg & Hlast & Hgr);
        [cbn in *; lia | discriminate |].
      exists ([a; b; c] :: groups), last.
      change (group3 (a :: b :: c :: d :: rest))
        with (a :: b :: c :: ","%char :: group3 (d :: rest)).
      rewrite Hgr. cbn [List.concat map app]. rewrite Hl. repeat split; try lia.
      constructor; [reflexivity | exact Hg].
Qed.

Lemma rev_concat_groups {A} (groups : list (list A)) :
  rev (List.concat groups) = List.concat (map (@rev A) (rev groups)).
Proof.
  induction groups as [|g groups IH]; [reflexivity|].
  cbn [List.concat rev]. rewrite rev_app_distr, IH, map_app, concat_app. cbn.
  now rewrite app_nil_r.
Qed.

Lemma grouped_digits l :
  l <> [] ->
  exists first groups,
    l = first ++ List.concat groups /\
    (1 <= List.length first <= 3)%nat /\
    Forall (fun g => List.length g = 3%nat) groups /\
    rev (group3 (rev l)) = first ++ List.concat (map (fun g => ","%char :: g) groups).
Proof.
  intros Hne.
  destruct (group3_shape _ (rev l) (le_n _)) as (groups & last & Hl & Hg & Hlast & Hgr).
  { intros H. apply Hne. rewrite <- (rev_involutive l), H. reflexivity. }
  exists (rev last), (map (@rev ascii) (rev groups)). split; [|split; [|split]].
  - rewrite <- (rev_involutive l), Hl, rev_app_distr, rev_concat_groups. reflexivity.
  - rewrite length_rev. exact Hlast.
  - apply Forall_map. apply Forall_rev. eapply Forall_impl; [|exact Hg].
    intros g Hlen. now rewrite length_rev.
  - rewrite Hgr, rev_app_distr, rev_concat_groups. f_equal.
    rewrite <- map_rev, !map_map. f_equal. apply map_ext.
    intros g. rewrite rev_app_distr. reflexivity.
Qed.

Lemma commas_to_dots_list l :
  list_ascii_of_string (commas_to_dots (string_of_list_ascii l)) = map comma_to_dot l.
Proof.
  induction l as [|c l IH]; [reflexivity|]. cbn. now rewrite IH.
Qed.

Lemma comma_to_dot_digits l : all_digits l -> map comma_to_dot l = l.
Proof.
  induction 1 as [|c l Hc _ IH]; [reflexivity|]. cbn [map]. rewrite IH.
  unfold comma_to_dot. destruct (Ascii.eqb_spec c ","); [subst; discriminate | reflexivity].
Qed.

Lemma all_digits_app a b : all_digits (a ++ b) -> all_digits a /\ all_digits b.
Proof. apply Forall_app. Qed.

Lemma all_digits_concat groups :
  all_digits (List.concat groups) -> Forall all_digits groups.
Proof.
  induction groups as [|g groups IH]; intros H; [constructor|].
  cbn in H. apply all_digits_app in H as [Hg Hrest]. constructor; auto.
Qed.

Lemma dotted_groups groups :
  Forall all_digits groups ->
  map comma_to_dot (List.concat (map (fun g => ","%char :: g) groups))
  = List.concat (map (fun g => "."%char :: g) groups).
Proof.
  induction 1 as [|g groups Hg _ IH]; [reflexivity|].
  cbn [map List.concat]. rewrite map_app. cbn [map]. rewrite IH, (comma_to_dot_digits g Hg).
  reflexivity.
Qed.

Lemma nilzero_nonempty d : list_ascii_of_string (NilZero.string_of_uint d) <> [].
Proof. destruct d; discriminate. Qed.

(** X16. [format_number] groups the digits in threes from the right: the
    text is the sign, then one to three digits, then each further group of
    exactly three digits with a dot before it; these are the digits of
    [str(n)], in order. *)
Theorem format_number_groups n :
  exists first groups,
    list_ascii_of_string (format_number_text n)
      = sign_of n ++ first ++ List.concat (map (fun g => "."%char :: g) groups) /\
    list_ascii_of_string (py_str_int n) = sign_of n ++ first ++ List.concat groups /\
    (1 <= List.length first <= 3)%nat /\
    Forall (fun g => List.length g = 3%nat) groups /\
    all_digits (first ++ List.concat groups).
Proof.
  unfold format_number_text, format_with_commas, py_str_int, sign_of.
  destruct (Z.to_int n) as [d|d]; cbn [NilZero.string_of_int];
    destruct (grouped_digits _ (nilzero_nonempty d))
      as (first & groups & Hl & Hfirst & Hgroups & Hgr);
    pose proof (nilzero_digits d) as Hd; rewrite Hl in Hd;
    destruct (all_digits_app _ _ Hd) as [Hdf Hdg];
    apply all_digits_concat in Hdg;
    exists first, groups; unfold group_thousands.
  - rewrite commas_to_dots_list, Hgr, map_app, (comma_to_dot_digits _ Hdf),
      (dotted_groups _ Hdg), Hl.
    repeat split; try assumption; lia.
  - cbn [commas_to_dots list_ascii_of_string]. cbn [Ascii.eqb Bool.eqb].
    rewrite commas_to_dots_list, Hgr, map_app, (comma_to_dot_digits _ Hdf),
      (dotted_groups _ Hdg), Hl.
    repeat split; try assumption; lia.
Qed.

(** ** api_client.py: the stored key *)

Lemma string_length_ind (P : string -> Prop) :
  (forall s, (forall r, (String.length r < String.length s)%nat -> P r) -> P s) ->
  forall s, P s.
Proof.
  intros H s. remember (String.length s) as n eqn:Hn. revert s Hn.
  induction n as [n IH] using lt_wf_ind. intros s ->.
  apply H. intros r Hr. exact (IH _ Hr r eq_refl).
Qed.

Lemma lstrip_step s :
  lstrip s = match skip_space s with Some r => lstrip r | None => s end.
Proof.
  destruct s as [|c1 [|c2 [|c3 rest]]]; cbn [lstrip skip_space]; try reflexivity.
  - destruct (is_space c1); reflexivity.
  - destruct (is_space c1); [reflexivity|]. destruct (is_space2 c1 c2); reflexivity.
  - destruct (is_space c1); [reflexivity|]. destruct (is_space2 c1 c2); [reflexivity|].
    destruct (is_space3 c1 c2 c3); reflexivity.
Qed.

Lemma only_spaces_step s :
  only_spaces s = match s with
                  | EmptyString => true
                  | _ => match skip_space s with Some r => only_spaces r | None => false end
                  end.
Proof.
  destruct s as [|c1 [|c2 [|c3 rest]]]; cbn [only_spaces skip_space]; try reflexivity.
  - destruct (is_space c1); reflexivity.
  - destruct (is_space c1); [reflexivity|]. destruct (is_space2 c1 c2); reflexivity.
  - destruct (is_space c1); [reflexivity|]. destruct (is_space2 c1 c2); [reflexivity|].
    destruct (is_space3 c1 c2 c3); reflexivity.
Qed.

Lemma skip_space_shorter s r :
  skip_space s = Some r -> (String.length r < String.length s)%nat.
Proof.
  destruct s as [|c1 [|c2 [|c3 rest]]]; cbn [skip_space]; try discriminate.
  - destruct (is_space c1); [|discriminate]. intros [= <-]. cbn. lia.
  - destruct (is_space c1); [intros [= <-]; cbn; lia|].
    destruct (is_space2 c1 c2); [intros [= <-]; cbn; lia | discriminate].
  - destruct (is_space c1); [intros [= <-]; cbn; lia|].
    destruct (is_space2 c1 c2); [intros [= <-]; cbn; lia|].
    destruct (is_space3 c1 c2 c3); [intros [= <-]; cbn; lia | discriminate].
Qed.

Lemma skip_space_app a r b :
  skip_space a = Some r -> skip_space (String.append a b) = Some (String.append r b).
Proof.
  destruct a as [|c1 [|c2 [|c3 rest]]]; cbn [skip_space String.append]; try discriminate.
  - destruct (is_space c1); [|discriminate]. intros [= <-]. reflexivity.
  - destruct (is_space c1); [intros [= <-]; reflexivity|].
    destruct (is_space2 c1 c2); [|discriminate]. intros [= <-].
    destruct b; reflexivity.
  - destruct (is_space c1); [intros [= <-]; reflexivity|].
    destruct (is_space2 c1 c2); [intros [= <-]; reflexivity|].
    destruct (is_space3 c1 c2 c3); [intros [= <-]; reflexivity | discriminate].
Qed.

Lemma lstrip_clean s : skip_space (lstrip s) = None.
Proof.
  induction s as [s IH] using string_length_ind. rewrite lstrip_step.
  destruct (skip_space s) as [r|] eqn:Hs; [|exact Hs].
  apply IH. now apply skip_space_shorter.
Qed.

Lemma lstrip_fixed s : skip_space s = None -> lstrip s = s.
Proof. intros H. now rewrite lstrip_step, H. Qed.

Lemma lstrip_idempotent s : lstrip (lstrip s) = lstrip s.
Proof. apply lstrip_fixed, lstrip_clean. Qed.

Lemma lstrip_app a b : lstrip a = "" -> lstrip (String.append a b) = lstrip b.
Proof.
  induction a as [a IH] using string_length_ind. intros Ha.
  destruct a as [|c rest] eqn:Heq; [reflexivity|]. rewrite <- Heq in *.
  rewrite lstrip_step in Ha.
  destruct (skip_space a) as [r|] eqn:Hs; [|subst a; discriminate].
  rewrite lstrip_step, (skip_space_app a r b Hs).
  apply IH; [now apply skip_space_shorter | exact Ha].
Qed.

Lemma lstrip_empty s : lstrip s = "" <-> only_spaces s = true.
Proof.
  induction s as [s IH] using string_length_ind.
  destruct s as [|c rest]; [cbn; tauto|].
  rewrite lstrip_step, only_spaces_step. cbv beta iota.
  destruct (skip_space (String c rest)) as [r|] eqn:Hs.
  - apply IH. now apply skip_space_shorter.
  - split; discriminate.
Qed.

Lemma rstrip_cons c rest :
  rstrip (String c rest) = match lstrip (String c rest) with
                           | EmptyString => EmptyString
                           | _ => String c (rstrip rest)
                           end.
Proof. reflexivity. Qed.

Lemma rstrip_split s : exists t, s = String.append (rstrip s) t /\ lstrip t = "".
Proof.
  induction s as [|c rest (t & Ht & Hl)]; [exists ""; split; reflexivity|].
  rewrite rstrip_cons. destruct (lstrip (String c rest)) as [|k kept] eqn:Hs.
  - exists (String c rest). split; [reflexivity | exact Hs].
  - exists t. split; [cbn [String.append]; now rewrite <- Ht | exact Hl].
Qed.

Lemma rstrip_empty s : rstrip s = "" <-> lstrip s = "".
Proof.
  destruct s as [|c rest]; [tauto|]. rewrite rstrip_cons.
  destruct (lstrip (String c rest)); [tauto|]. split; discriminate.
Qed.

Lemma rstrip_idempotent s : rstrip (rstrip s) = rstrip s.
Proof.
  induction s as [|c rest IH]; [reflexivity|].
  rewrite rstrip_cons. destruct (lstrip (String c rest)) as [|k kept] eqn:Hs;
    [reflexivity|].
  rewrite rstrip_cons.
  destruct (lstrip (String c (rstrip rest))) as [|k' kept'] eqn:Hs'.
  - destruct (rstrip_split rest) as (t & Ht & Hl).
    pose proof (lstrip_app (String c (rstrip rest)) t Hs') as Happ.
    cbn [String.append] in Happ. rewrite <- Ht, Hs, Hl in Happ. discriminate.
  - now rewrite IH.
Qed.

Lemma rstrip_clean s : skip_space s = None -> skip_space (rstrip s) = None.
Proof.
  intros H. destruct s as [|c1 rest1]; [reflexivity|].
  rewrite rstrip_cons. destruct (lstrip (String c1 rest1)); [reflexivity|].
  cbn [skip_space] in H |- *. destruct (is_space c1); [discriminate|].
  destruct rest1 as [|c2 rest2]; [reflexivity|].
  rewrite rstrip_cons. destruct (lstrip (String c2 rest2)); [reflexivity|].
  destruct (is_space2 c1 c2); [discriminate|].
  destruct rest2 as [|c3 rest3]; [reflexivity|].
  rewrite rstrip_cons. destruct (lstrip (String c3 rest3)); [reflexivity|].
  destruct (is_space3 c1 c2 c3); [discriminate | reflexivity].
Qed.

Lemma strip_idempotent s : strip (strip s) = strip s.
Proof.
  unfold strip.
  rewrite (lstrip_fixed (rstrip (lstrip s))) by apply rstrip_clean, lstrip_clean.
  apply rstrip_idempotent.
Qed.

Lemma strip_empty s : strip s = "" <-> only_spaces s = true.
Proof.
  unfold strip. rewrite rstrip_empty, lstrip_idempotent. apply lstrip_empty.
Qed.

Lemma text_round_trip p s :
  carriage_returns s = false -> universal_newlines (write_newlines p s) = s.
Proof.
  unfold carriage_returns. induction s as [|c rest IH]; [reflexivity|].
  cbn [list_ascii_of_string existsb]. intros H.
  apply orb_false_iff in H as [Hc Hrest]. specialize (IH Hrest).
  assert (Hcr : Ascii.eqb c CR = false) by (now rewrite Ascii.eqb_sym).
  cbn [write_newlines]. destruct (Ascii.eqb c LF) eqn:Hlf.
  - apply Ascii.eqb_eq in Hlf. subst c. destruct p.
    + cbn [universal_newlines]. rewrite Hcr, IH. reflexivity.
    + cbn [universal_newlines]. rewrite Ascii.eqb_refl, Ascii.eqb_refl, IH. reflexivity.
  - cbn [universal_newlines]. rewrite Hcr, IH. reflexivity.
Qed.

(** X17. The key round trip.  Whenever [save_key(k)] returns [True], for a
    key that has no carriage return inside, nothing was printed, and from
    then on [load_key] returns [k.strip()] (stripping twice changes
    nothing); the cycle finds the credential missing exactly when [k]
    consists of whitespace only. *)
Theorem save_key_then_load_key e p o api_key w f w' :
  save_key p o api_key w = (Ok (true, f), w') ->
  carriage_returns (strip api_key) = false ->
  let e' := with_key_file e f in
  w' = w /\
  (forall w0, load_key e' w0 = (Ok (Some (strip api_key)), w0)) /\
  stored_key e' = Some (strip api_key) /\
  (key_missing (stored_key e') = true <-> only_spaces api_key = true).
Proof.
  intros Hrun Hcr. cbv zeta. destruct o as [|x remains]; [|discriminate].
  unfold save_key, ret in Hrun. injection Hrun as <- <-.
  unfold with_key_file, stored_key, load_key. cbn [key_file].
  rewrite (text_round_trip p _ Hcr), strip_idempotent.
  split; [reflexivity|]. split; [reflexivity|]. split; [reflexivity|].
  cbn [key_missing]. rewrite <- strip_empty. apply String.eqb_eq.
Qed.

Lemma save_key_then_load_key_witness :
  stored_key (with_key_file no_key_env (KeyContent "abc123")) = Some "abc123".
Proof.
  refine (proj1 (proj2 (proj2
    (save_key_then_load_key no_key_env Windows Written "  abc123 " sample_world
       (KeyContent "abc123") sample_world _ _)))).
  - reflexivity.
  - reflexivity.
Defined.

(** ** bot.py: the masked key of [/checkkey] *)










(** ** bot.py: the manual send of [/like] *)

Lemma manual_step_success e api_key user_id game_id w fields n :
  raw_response e w game_id api_key = JObj fields ->
  success_rule (JObj fields) = Ok true ->
  dict_get fields "likesAdded" (JNum 0) = JNum n ->
  let player := dict_get fields "player" (JStr "N/A") in
  manual_step e api_key user_id game_id w =
    (format_success_message (JObj fields),
     mk_world
       (updated_table e user_id game_id player (now e (clock w)) n (game_ids w))
       (send_history w ++
          stored_rows e user_id game_id (JNum n) true JNull player
                      (now e (S (clock w))) false)
       (outbox w) (api_calls w ++ [(game_id, api_key)])
       ((stdout w ++ update_errors player n) ++ history_errors (JNum n) JNull player)
       (S (S (clock w)))).
Proof.
  unfold raw_response. intros Hr Hs Hn.
  unfold manual_step. unfold bind at 1. unfold send_likes at 1.
  cbn [game_ids send_history outbox api_calls stdout clock].
  rewrite Hr. unfold like_outcome. unfold bind at 1. unfold lift at 1. rewrite Hs.
  unfold bind at 1. unfold lift at 1. cbn [py_get]. rewrite Hn.
  unfold bind at 1. unfold lift at 1. cbn [sql_int py_num].
  unfold bind at 1. rewrite update_game_id_info_run.
  unfold bind at 1. rewrite log_send_run. unfold lift.
  destruct (format_success_message (JObj fields)); reflexivity.
Qed.

Lemma manual_step_partial e api_key user_id game_id w fields :
  raw_response e w game_id api_key = JObj fields ->
  success_rule (JObj fields) = Ok false ->
  partial_rule (JObj fields) = Ok true ->
  let likes := dict_get fields "likesAdded" (JNum 0) in
  let player := dict_get fields "player" (JStr "N/A") in
  manual_step e api_key user_id game_id w =
    (format_partial_message (JObj fields),
     mk_world
       (game_ids w)
       (send_history w ++
          stored_rows e user_id game_id likes false (JStr "Menos de 100 likes") player
                      (now e (clock w)) false)
       (outbox w) (api_calls w ++ [(game_id, api_key)])
       (stdout w ++ history_errors likes (JStr "Menos de 100 likes") player)
       (S (clock w))).
Proof.
  unfold raw_response. intros Hr Hs Hp.
  unfold manual_step. unfold bind at 1. unfold send_likes at 1.
  cbn [game_ids send_history outbox api_calls stdout clock].
  rewrite Hr. unfold like_outcome. unfold bind at 1. unfold lift at 1. rewrite Hs.
  unfold bind at 1. unfold lift at 1. rewrite Hp.
  unfold bind at 1. unfold lift at 1. cbn [py_get].
  unfold bind at 1. unfold lift at 1.
  unfold bind at 1. rewrite log_send_run. unfold lift.
  destruct (format_partial_message (JObj fields)); reflexivity.
Qed.

Lemma manual_step_error e api_key user_id game_id w fields :
  raw_response e w game_id api_key = JObj fields ->
  success_rule (JObj fields) = Ok false ->
  partial_rule (JObj fields) = Ok false ->
  let message := dict_get fields "message" (JStr "Erro desconhecido") in
  manual_step e api_key user_id game_id w =
    (Ok (TxtError (JObj fields) game_id),
     mk_world
       (game_ids w)
       (send_history w ++
          stored_rows e user_id game_id (JNum 0) false message JNull
                      (now e (clock w)) false)
       (outbox w) (api_calls w ++ [(game_id, api_key)])
       (stdout w ++ history_errors (JNum 0) message JNull)
       (S (clock w))).
Proof.
  unfold raw_response. intros Hr Hs Hp.
  unfold manual_step. unfold bind at 1. unfold send_likes at 1.
  cbn [game_ids send_history outbox api_calls stdout clock].
  rewrite Hr. unfold like_outcome. unfold bind at 1. unfold lift at 1. rewrite Hs.
  unfold bind at 1. unfold lift at 1. rewrite Hp.
  unfold bind at 1. unfold lift at 1. cbn [py_get].
  unfold bind at 1. rewrite log_send_run. reflexivity.
Qed.

Lemma manual_step_raise e api_key user_id game_id w x :
  success_rule (raw_response e w game_id api_key) = Raise x ->
  manual_step e api_key user_id game_id w =
    (Raise x,
     mk_world (game_ids w) (send_history w) (outbox w)
              (api_calls w ++ [(game_id, api_key)]) (stdout w) (clock w)).
Proof.
  unfold raw_response. intros Hs.
  unfold manual_step, like_outcome, bind, send_likes, lift; simpl.
  rewrite Hs. reflexivity.
Qed.

Lemma stored_rows_manual e telegram_id game_id likes success err player ts :
  map manual_row (stored_rows e telegram_id game_id likes success err player ts true)
  = stored_rows e telegram_id game_id likes success err player ts false.
Proof.
  unfold stored_rows. destruct (bind_parameters _); reflexivity.
Qed.

Lemma like_command_valid e net user_id game_id rest api_key s :
  isdigit e game_id = true ->
  net (List.length (b_chat s)) = true ->
  stored_key e = Some api_key ->
  api_key <> "" ->
  like_command e net user_id (game_id :: rest) s =
    match manual_step e api_key user_id game_id (b_world s) with
    | (Ok t, w') =>
        let ok := net (S (List.length (b_chat s))) in
        (if ok then Ok tt else Raise TelegramError,
         said s w' [(ReplyText (TxtWaiting game_id), true); (EditText t, ok)])
    | (Raise x, w') => (Raise x, said s w' [(ReplyText (TxtWaiting game_id), true)])
    end.
Proof.
  intros Hd Hn Hk Hne.
  unfold like_command. rewrite Hd. cbn [negb].
  unfold stored_key in Hk. unfold load_key.
  destruct (key_file e) as [ | | content]; try discriminate.
  injection Hk as Hk.
  unfold bindB at 1. unfold chat at 1. rewrite Hn.
  unfold bindB at 1. unfold in_world at 1. unfold ret. cbn [b_world b_users b_chat b_printed].
  rewrite Hk. unfold key_missing.
  destruct (String.eqb api_key "") eqn:He.
  { apply String.eqb_eq in He. contradiction. }
  unfold manual_step, bind, bindB, in_world, send_likes. cbn [b_world b_users b_chat b_printed].
  match goal with |- context [like_outcome ?a ?b ?c ?d ?w] =>
    destruct (like_outcome a b c d w) as [[t|x] w'] end.
  - unfold chat, said. cbn [b_world b_users b_chat b_printed].
    rewrite length_app. cbn [List.length]. rewrite Nat.add_1_r.
    rewrite <- app_assoc. cbn [app].
    destruct (net (S (List.length (b_chat s)))); reflexivity.
  - reflexivity.
Qed.

(** X19. The manual send stores what the automatic send stores. Once
    [/like ID] has an identifier that [isdigit] accepts, its waiting note
    has gone out and a key is stored, the command makes exactly one request
    and leaves the table [game_ids] as one iteration of the automatic loop
    for the same user and identifier would; the audit rows it appends are
    those of that iteration marked as manual. This holds whether or not
    the answer can be built or delivered. *)
Theorem like_command_stores_what_the_cycle_stores
  e net user_id game_id rest api_key l s :
  isdigit e game_id = true ->
  net (List.length (b_chat s)) = true ->
  stored_key e = Some api_key ->
  api_key <> "" ->
  let w := b_world s in
  let wa := snd (process_game_id e api_key user_id game_id l w) in
  let s' := snd (like_command e net user_id (game_id :: rest) s) in
  game_ids (b_world s') = game_ids wa /\
  (exists rows,
      send_history wa = send_history w ++ rows /\
      send_history (b_world s') = send_history w ++ map manual_row rows) /\
  api_calls (b_world s') = api_calls w ++ [(game_id, api_key)] /\
  api_calls wa = api_calls w ++ [(game_id, api_key)] /\
  outbox (b_world s') = outbox w /\
  b_users s' = b_users s.
Proof.
  intros Hd Hn Hk Hne w wa s'. subst w wa s'.
  rewrite (like_command_valid e net user_id game_id rest api_key s Hd Hn Hk Hne).
  destruct (success_rule (raw_response e (b_world s) game_id api_key)) as [[|]|x] eqn:Hs.
  - destruct (success_rule_true _ Hs) as (fields & n & Hr & _ & Hl & _).
    rewrite Hr in Hs.
    rewrite (process_game_id_success e api_key user_id game_id l (b_world s) fields n Hr Hs Hl).
    rewrite (manual_step_success e api_key user_id game_id (b_world s) fields n Hr Hs Hl).
    destruct (format_success_message (JObj fields));
      (split; [reflexivity|]; split; [|split; [reflexivity|]; split; [reflexivity|];
                                        split; reflexivity]);
      eexists; (split; [reflexivity | rewrite stored_rows_manual; reflexivity]).
  - destruct (rule_is_dict _ _ Hs) as (fields & Hr). rewrite Hr in Hs.
    destruct (partial_rule_dict fields) as ([|] & Hp).
    + rewrite (process_game_id_partial e api_key user_id game_id l (b_world s) fields Hr Hs Hp).
      rewrite (manual_step_partial e api_key user_id game_id (b_world s) fields Hr Hs Hp).
      destruct (format_partial_message (JObj fields));
        (split; [reflexivity|]; split; [|split; [reflexivity|]; split; [reflexivity|];
                                          split; reflexivity]);
        eexists; (split; [reflexivity | rewrite stored_rows_manual; reflexivity]).
    + rewrite (process_game_id_error e api_key user_id game_id l (b_world s) fields Hr Hs Hp).
      rewrite (manual_step_error e api_key user_id game_id (b_world s) fields Hr Hs Hp).
      split; [reflexivity|]. split; [|split; [reflexivity|]; split; [reflexivity|];
                                       split; reflexivity].
      eexists; (split; [reflexivity | rewrite stored_rows_manual; reflexivity]).
  - rewrite (process_game_id_raise e api_key user_id game_id l (b_world s) x Hs).
    rewrite (manual_step_raise e api_key user_id game_id (b_world s) x Hs).
    split; [reflexivity|]. split; [|split; [reflexivity|]; split; [reflexivity|];
                                     split; reflexivity].
    exists []. split; [symmetry; apply app_nil_r|symmetry; apply app_nil_r].
Qed.

Lemma like_command_stores_what_the_cycle_stores_witness :
  let s' := snd (like_command sample_env (fun _ => true) 1 ["123"] sample_bot) in
  let wa := snd (process_game_id sample_env "secret-key" 1 "123" (mk_locals 0 0 0 [])
                                 sample_world) in
  game_ids (b_world s') = game_ids wa /\
  api_calls (b_world s') = [("123", "secret-key")].
Proof.
  pose proof (like_command_stores_what_the_cycle_stores
                sample_env (fun _ => true) 1 "123" [] "secret-key" (mk_locals 0 0 0 [])
                sample_bot) as H.
  assert (Hd : isdigit sample_env "123" = true) by (vm_compute; reflexivity).
  assert (Hk : stored_key sample_env = Some "secret-key") by (vm_compute; reflexivity).
  assert (Hne : "secret-key" <> "") by discriminate.
  destruct (H Hd eq_refl Hk Hne) as (Hg & _ & Hc & _).
  split; [exact Hg | exact Hc].
Defined.

(** X20. The answer of [/like] agrees with the audit. When the command
    ends normally after a valid request whose response gives for
    [likesAdded], [player] and [message] values that SQLite binds, it has
    appended exactly one audit row, for the caller and the identifier and
    marked as manual, and has replaced the waiting note by one text; that
    text announces a success exactly when the row records one, and the row
    counts the likes of the response. *)
Theorem like_command_answer_agrees_with_audit
  e net user_id game_id rest api_key s s' :
  isdigit e game_id = true ->
  net (List.length (b_chat s)) = true ->
  stored_key e = Some api_key ->
  api_key <> "" ->
  storable_response (raw_response e (b_world s) game_id api_key) = true ->
  like_command e net user_id (game_id :: rest) s = (Ok tt, s') ->
  exists row t,
    send_history (b_world s') = send_history (b_world s) ++ [row] /\
    b_chat s' = b_chat s ++ [(ReplyText (TxtWaiting game_id), true); (EditText t, true)] /\
    row_key row = (user_id, game_id) /\
    h_is_auto row = false /\
    h_success row = text_is_success t /\
    h_success row = outcome_success (raw_response e (b_world s) game_id api_key) /\
    row_likes row = outcome_likes (raw_response e (b_world s) game_id api_key).
Proof.
  intros Hd Hn Hk Hne Hst.
  rewrite (like_command_valid e net user_id game_id rest api_key s Hd Hn Hk Hne).
  unfold outcome_success, outcome_likes.
  destruct (success_rule (raw_response e (b_world s) game_id api_key)) as [[|]|x] eqn:Hs.
  - destruct (success_rule_true _ Hs) as (fields & n & Hr & _ & Hl & _).
    rewrite Hr in Hs, Hst.
    rewrite (manual_step_success e api_key user_id game_id (b_world s) fields n Hr Hs Hl).
    unfold storable_response in Hst. rewrite Hs, Hl in Hst.
    apply andb_true_iff in Hst as [Hbl Hbp].
    rewrite stored_rows_bound
      by (apply bind_parameters_ok; cbn [forallb]; now rewrite Hbl, Hbp).
    unfold format_success_message.
    destruct (format_counts (JObj fields)); [|discriminate].
    cbv zeta. destruct (net (S (List.length (b_chat s)))); [|discriminate].
    intros H. injection H as <-.
    do 2 eexists. split; [reflexivity|]. split; [reflexivity|].
    split; [reflexivity|]. split; [reflexivity|]. split; [reflexivity|].
    split; [reflexivity|].
    rewrite Hr. unfold py_get. rewrite Hl. reflexivity.
  - destruct (rule_is_dict _ _ Hs) as (fields & Hr). rewrite Hr in Hs, Hst.
    destruct (partial_rule_dict fields) as ([|] & Hp).
    + rewrite (manual_step_partial e api_key user_id game_id (b_world s) fields Hr Hs Hp).
      unfold storable_response in Hst. rewrite Hs, Hp in Hst.
      apply andb_true_iff in Hst as [Hbl Hbp].
      rewrite stored_rows_bound
        by (apply bind_parameters_ok; cbn [forallb]; now rewrite Hbl, Hbp).
      unfold format_partial_message.
      destruct (format_counts (JObj fields)); [|discriminate].
      cbv zeta. destruct (net (S (List.length (b_chat s)))); [|discriminate].
      intros H. injection H as <-.
      do 2 eexists. split; [reflexivity|]. split; [reflexivity|].
      split; [reflexivity|]. split; [reflexivity|]. split; [reflexivity|].
      split; reflexivity.
    + rewrite (manual_step_error e api_key user_id game_id (b_world s) fields Hr Hs Hp).
      unfold storable_response in Hst. rewrite Hs, Hp in Hst.
      rewrite stored_rows_bound
        by (apply bind_parameters_ok; cbn [forallb]; now rewrite Hst).
      cbv zeta. destruct (net (S (List.length (b_chat s)))); [|discriminate].
      intros H. injection H as <-.
      do 2 eexists. split; [reflexivity|]. split; [reflexivity|].
      split; [reflexivity|]. split; [reflexivity|]. split; [reflexivity|].
      split; reflexivity.
  - rewrite (manual_step_raise e api_key user_id game_id (b_world s) x Hs). discriminate.
Qed.

Lemma like_command_answer_agrees_with_audit_witness :
  exists row t,
    send_history
      (b_world (snd (like_command sample_env (fun _ => true) 1 ["456"] sample_bot)))
    = [row] /\
    h_success row = text_is_success t /\
    h_success row = false.
Proof.
  assert (Hd : isdigit sample_env "456" = true) by (vm_compute; reflexivity).
  assert (Hk : stored_key sample_env = Some "secret-key") by (vm_compute; reflexivity).
  assert (Hne : "secret-key" <> "") by discriminate.
  assert (Hst : storable_response
                  (raw_response sample_env (b_world sample_bot) "456" "secret-key") = true)
    by (vm_compute; reflexivity).
  assert (Hrun : like_command sample_env (fun _ => true) 1 ["456"] sample_bot
                 = (Ok tt, snd (like_command sample_env (fun _ => true) 1 ["456"] sample_bot))).
  { vm_compute. reflexivity. }
  destruct (like_command_answer_agrees_with_audit
              sample_env (fun _ => true) 1 "456" [] "secret-key" sample_bot _
              Hd eq_refl Hk Hne Hst Hrun)
    as (row & t & Hh & _ & _ & _ & Ht & Ho & _).
  exists row, t. split; [exact Hh|]. split; [exact Ht|].
  rewrite Ho. vm_compute. reflexivity.
Defined.

(** X21. [/like] asks and stores only on a valid request. If the command
    has changed the table [game_ids], appended an audit row or called the
    remote endpoint, then it was given an identifier that [isdigit]
    accepts, its waiting note went out and a non-empty key is stored; in
    every other case (no argument, another argument, an undelivered note,
    no key) nothing is requested and nothing is stored. The table [users]
    is never touched. *)
Theorem like_command_asks_only_when_valid e net user_id args s :
  let s' := snd (like_command e net user_id args s) in
  b_users s' = b_users s /\
  (stored (b_world s') <> stored (b_world s) ->
   exists game_id rest,
     args = game_id :: rest /\
     isdigit e game_id = true /\
     net (List.length (b_chat s)) = true /\
     key_missing (stored_key e) = false).
Proof.
  cbv zeta.
  assert (Hrun : exists w' lines,
             snd (like_command e net user_id args s) = said s w' lines /\
             (stored w' <> stored (b_world s) ->
              exists game_id rest,
                args = game_id :: rest /\
                isdigit e game_id = true /\
                net (List.length (b_chat s)) = true /\
                key_missing (stored_key e) = false)).
  { unfold like_command.
    destruct args as [|game_id rest].
    { unfold chat, said. destruct (net _);
        (exists (b_world s); eexists; split; [reflexivity|]; intros H; now destruct H). }
    destruct (isdigit e game_id) eqn:Hd; cbn [negb].
    2:{ unfold chat, said. destruct (net _);
          (exists (b_world s); eexists; split; [reflexivity|]; intros H; now destruct H). }
    unfold bindB at 1. unfold chat at 1.
    destruct (net (List.length (b_chat s))) eqn:Hn.
    2:{ unfold said. exists (b_world s). eexists. split; [reflexivity|].
        intros H. now destruct H. }
    unfold bindB at 1. unfold in_world at 1. unfold load_key, stored_key.
    destruct (key_file e) as [ | | content].
    - unfold ret, key_missing, chat, said. cbn [b_world b_users b_chat b_printed].
      destruct (net (List.length (b_chat s ++ _)));
        (exists (b_world s); eexists; split;
         [rewrite <- app_assoc; reflexivity | intros H; now destruct H]).
    - unfold bind, print, ret, key_missing, chat, said.
      cbn [b_world b_users b_chat b_printed].
      destruct (net (List.length (b_chat s ++ _)));
        (eexists; eexists; split;
         [rewrite <- app_assoc; reflexivity | intros H; exfalso; apply H; reflexivity]).
    - unfold ret. cbn [b_world b_users b_chat b_printed].
      destruct (key_missing (Some (strip content))) eqn:Hm.
      + unfold chat, said. cbn [b_world b_users b_chat b_printed].
        destruct (net (List.length (b_chat s ++ _)));
          (exists (b_world s); eexists; split;
           [rewrite <- app_assoc; reflexivity | intros H; now destruct H]).
      + unfold bindB, in_world, said. cbn [b_world b_users b_chat b_printed].
        destruct (send_likes e game_id (strip content) (b_world s)) as [[r|x] w1];
          cbn [b_world b_users b_chat b_printed].
        2:{ eexists. eexists. split; [reflexivity|].
            intros _. exists game_id, rest. auto. }
        destruct (like_outcome e user_id game_id r w1) as [[t|x] w2];
          cbn [b_world b_users b_chat b_printed].
        2:{ eexists. eexists. split; [reflexivity|].
            intros _. exists game_id, rest. auto. }
        unfold chat. cbn [b_world b_users b_chat b_printed].
        destruct (net (List.length (b_chat s ++ _)));
          (eexists; eexists; split;
           [rewrite <- app_assoc; reflexivity | intros _; exists game_id, rest; auto]). }
  destruct Hrun as (w' & lines & -> & Hvalid).
  split; [reflexivity | exact Hvalid].
Qed.

Lemma like_command_asks_only_when_valid_witness :
  exists game_id rest,
    ["123"] = game_id :: rest /\ isdigit sample_env game_id = true.
Proof.
  destruct (like_command_asks_only_when_valid sample_env (fun _ => true) 1 ["123"] sample_bot)
    as [_ H].
  destruct H as (game_id & rest & Ha & Hd & _).
  - vm_compute. discriminate.
  - exists game_id, rest. split; [exact Ha | exact Hd].
Defined.

(** ** bot.py: [/broadcast] *)

Lemma attempts_targets net body users : forall n,
  map fst (attempts net body n users)
  = map (fun u => SendMessage (u_telegram_id u) (TxtBroadcast body)) users.
Proof.
  induction users as [|u rest IH]; intros n; [reflexivity|].
  cbn [attempts map fst]. now rewrite IH.
Qed.

Lemma attempts_fates net body users : forall n i,
  (i < List.length users)%nat ->
  nth_error (map snd (attempts net body n users)) i = Some (net (n + i)%nat).
Proof.
  induction users as [|u rest IH]; intros n i Hi; cbn [List.length] in Hi; [lia|].
  destruct i as [|i]; cbn [attempts map snd nth_error].
  - now rewrite Nat.add_0_r.
  - rewrite IH by lia. f_equal. f_equal. lia.
Qed.

Lemma attempts_length net body users n :
  List.length (attempts net body n users) = List.length users.
Proof.
  revert n. induction users as [|u rest IH]; intros n; [reflexivity|].
  cbn [attempts List.length]. now rewrite IH.
Qed.

Lemma attempts_counts net body users : forall n,
  let sends := attempts net body n users in
  count_true (map snd sends) + Z.of_nat (List.length (failed_lines sends))
  = Z.of_nat (List.length users) /\
  0 <= count_true (map snd sends).
Proof.
  induction users as [|u rest IH]; intros n; cbv zeta; [split; reflexivity|].
  specialize (IH (S n)). cbv zeta in IH. destruct IH as [IH Hpos].
  cbn [attempts map snd]. rewrite count_true_cons.
  change (failed_lines ((SendMessage (u_telegram_id u) (TxtBroadcast body), net n)
                          :: attempts net body (S n) rest))
    with ((if net n then [] else [LineBroadcastError (u_telegram_id u) TelegramError])
            ++ failed_lines (attempts net body (S n) rest)).
  rewrite length_app. cbn [List.length].
  destruct (net n); cbn [List.length]; split; lia.
Qed.

Lemma broadcast_loop_spec net body users : forall success_count failure_count s,
  let sends := attempts net body (List.length (b_chat s)) users in
  broadcast_loop net body users success_count failure_count s =
    (Ok (success_count + count_true (map snd sends),
         failure_count + Z.of_nat (List.length (failed_lines sends))),
     mk_bot (b_world s) (b_users s) (b_chat s ++ sends)
            (b_printed s ++ failed_lines sends)).
Proof.
  induction users as [|u rest IH]; intros sc fc s; cbv zeta.
  - cbn [broadcast_loop attempts map failed_lines flat_map List.length count_true fold_right].
    unfold retB. rewrite !Z.add_0_r, !app_nil_r. now destruct s.
  - cbn [broadcast_loop attempts]. unfold chat.
    change (failed_lines ((SendMessage (u_telegram_id u) (TxtBroadcast body),
                           net (List.length (b_chat s)))
                            :: attempts net body (S (List.length (b_chat s))) rest))
      with ((if net (List.length (b_chat s)) then []
             else [LineBroadcastError (u_telegram_id u) TelegramError])
              ++ failed_lines (attempts net body (S (List.length (b_chat s))) rest)).
    cbn [map snd]. rewrite count_true_cons.
    destruct (net (List.length (b_chat s))).
    + rewrite IH. cbn [b_world b_users b_chat b_printed].
      rewrite length_app. cbn [List.length]. rewrite Nat.add_1_r.
      rewrite <- app_assoc. cbn [app]. rewrite Z.add_assoc. reflexivity.
    + unfold bindB, printB. rewrite IH. cbn [b_world b_users b_chat b_printed].
      rewrite length_app. cbn [List.length]. rewrite Nat.add_1_r.
      rewrite <- !app_assoc. cbn [app].
      rewrite Z.add_0_l. cbn [List.length]. rewrite Nat2Z.inj_succ. unfold Z.succ.
      rewrite (Z.add_assoc fc), (Z.add_shuffle0 fc 1). reflexivity.
Qed.

Lemma broadcast_command_run net admin_id arg rest s :
  let args := arg :: rest in
  let users := filter u_active (b_users s) in
  let sends := attempts net (String.concat " " args) (List.length (b_chat s)) users in
  let ok := net (List.length (b_chat s) + List.length users)%nat in
  broadcast_command net admin_id admin_id args s =
    (if ok then Ok tt else Raise TelegramError,
     mk_bot (b_world s) (b_users s)
            (b_chat s ++ sends ++
               [(ReplyText (TxtBroadcastReport
                              (count_true (map snd sends))
                              (Z.of_nat (List.length (failed_lines sends)))
                              (Z.of_nat (List.length users))), ok)])
            (b_printed s ++ failed_lines sends)).
Proof.
  cbv zeta. unfold broadcast_command. rewrite Z.eqb_refl. cbn [negb].
  unfold bindB at 1. unfold get_all_users.
  unfold bindB. rewrite broadcast_loop_spec.
  unfold chat. cbn [b_world b_users b_chat b_printed fst snd].
  rewrite length_app, attempts_length, !Z.add_0_l, <- app_assoc.
  destruct (net _); reflexivity.
Qed.

(** X22. A broadcast tries every active user once. For the administrator
    and a non-empty text, [/broadcast] passes the same text to
    [send_message] once for every active user, in table order, whatever
    becomes of the earlier attempts; it then reports how many went through
    and how many failed, the two adding up to the number of active users,
    prints one line per failure, and fails only if the report itself cannot
    be delivered. Nothing is stored. *)
Theorem broadcast_command_tries_every_active_user net admin_id args s :
  args <> [] ->
  let users := filter u_active (b_users s) in
  let total := Z.of_nat (List.length users) in
  let ok := net (List.length (b_chat s) + List.length users)%nat in
  exists sends sent failed,
    broadcast_command net admin_id admin_id args s =
      (if ok then Ok tt else Raise TelegramError,
       mk_bot (b_world s) (b_users s)
              (b_chat s ++ sends ++ [(ReplyText (TxtBroadcastReport sent failed total), ok)])
              (b_printed s ++ failed_lines sends)) /\
    map fst sends
    = map (fun u => SendMessage (u_telegram_id u) (TxtBroadcast (String.concat " " args)))
          users /\
    (forall i, (i < List.length users)%nat ->
               nth_error (map snd sends) i = Some (net (List.length (b_chat s) + i)%nat)) /\
    sent = count_true (map snd sends) /\
    failed = Z.of_nat (List.length (failed_lines sends)) /\
    sent + failed = total /\
    0 <= sent /\ 0 <= failed.
Proof.
  intros Hargs. destruct args as [|arg rest]; [contradiction|]. cbv zeta.
  pose proof (attempts_counts net (String.concat " " (arg :: rest))
                (filter u_active (b_users s)) (List.length (b_chat s))) as Hc.
  cbv zeta in Hc. destruct Hc as [Hsum Hpos].
  do 3 eexists. split; [apply broadcast_command_run|].
  split; [apply attempts_targets|].
  split; [intros i Hi; now apply attempts_fates|].
  split; [reflexivity|]. split; [reflexivity|].
  split; [exact Hsum|]. split; [exact Hpos|]. lia.
Qed.

Lemma broadcast_command_tries_every_active_user_witness :
  exists sends sent failed,
    b_chat (snd (broadcast_command (fun n => Nat.eqb n 1) 9 9 ["hello"; "all"] sample_bot))
    = sends ++ [(ReplyText (TxtBroadcastReport sent failed 2), false)] /\
    map fst sends = [SendMessage 1 (TxtBroadcast "hello all");
                     SendMessage 2 (TxtBroadcast "hello all")] /\
    sent + failed = 2.
Proof.
  assert (Hargs : ["hello"; "all"] <> []) by discriminate.
  destruct (broadcast_command_tries_every_active_user
              (fun n => Nat.eqb n 1) 9 ["hello"; "all"] sample_bot Hargs)
    as (sends & sent & failed & Hrun & Hto & _ & _ & _ & Hsum & _).
  exists sends, sent, failed.
  split; [rewrite Hrun; reflexivity|]. split; [exact Hto | exact Hsum].
Defined.

(** X23. Only the administrator broadcasts. Whoever calls [/broadcast]
    and with whatever arguments, the command stores nothing and only adds
    to the conversation; any message it passes to [send_message] was asked
    for by the administrator with a non-empty text, carries that text and
    goes to an active user. *)
Theorem broadcast_command_is_for_the_administrator net admin_id user_id args s :
  let s' := snd (broadcast_command net admin_id user_id args s) in
  b_world s' = b_world s /\
  b_users s' = b_users s /\
  exists lines,
    b_chat s' = b_chat s ++ lines /\
    forall chat_id t ok,
      In (SendMessage chat_id t, ok) lines ->
      user_id = admin_id /\
      args <> [] /\
      t = TxtBroadcast (String.concat " " args) /\
      exists u, In u (b_users s) /\ u_active u = true /\ u_telegram_id u = chat_id.
Proof.
  cbv zeta. destruct (user_id =? admin_id) eqn:Hadmin.
  - apply Z.eqb_eq in Hadmin. subst user_id.
    destruct args as [|arg rest].
    + unfold broadcast_command. rewrite Z.eqb_refl. cbn [negb]. unfold chat.
      destruct (net (List.length (b_chat s)));
        (split; [reflexivity|]; split; [reflexivity|]; eexists; split; [reflexivity|];
         intros chat_id t ok [H|[]]; discriminate).
    + rewrite broadcast_command_run. cbn [snd b_world b_users b_chat].
      split; [reflexivity|]. split; [reflexivity|]. eexists. split; [reflexivity|].
      intros chat_id t ok Hin. apply in_app_or in Hin as [Hin|[Hin|[]]]; [|discriminate].
      split; [reflexivity|]. split; [discriminate|].
      apply (in_map fst) in Hin. rewrite attempts_targets in Hin. cbn [fst] in Hin.
      apply in_map_iff in Hin as (u & Heq & Hu). injection Heq as <- <-.
      apply filter_In in Hu as [Hu Ha].
      split; [reflexivity|]. exists u. auto.
  - unfold broadcast_command. rewrite Hadmin. cbn [negb]. unfold chat.
    destruct (net (List.length (b_chat s)));
      (split; [reflexivity|]; split; [reflexivity|]; eexists; split; [reflexivity|];
       intros chat_id t ok [H|[]]; discriminate).
Qed.

(** ** bot.py: [/addid] *)

Lemma add_user_run e telegram_id username s :
  exists w' users',
    add_user e telegram_id username s
    = (Ok (negb (existsb (fun u => u_telegram_id u =? telegram_id) (b_users s))),
       mk_bot w' users' (b_chat s) (b_printed s)) /\
    stored w' = stored (b_world s) /\
    In telegram_id (map u_telegram_id users') /\
    (users_keyed (b_users s) -> users_keyed users').
Proof.
  unfold add_user.
  destruct (existsb (fun u => u_telegram_id u =? telegram_id) (b_users s)) eqn:Hex.
  - exists (b_world s), (b_users s). split; [now destruct s|].
    split; [reflexivity|]. split.
    + apply existsb_exists in Hex as (u & Hu & Heq). apply Z.eqb_eq in Heq.
      apply in_map_iff. exists u. auto.
    + auto.
  - unfold bindB, in_world, datetime_now. cbn [b_world b_users b_chat b_printed].
    do 2 eexists. split; [reflexivity|]. split; [reflexivity|].
    assert (Hnew : ~ In telegram_id (map u_telegram_id (b_users s))).
    { intros Hin. apply in_map_iff in Hin as (u & Heq & Hu).
      assert (Ht : existsb (fun u => u_telegram_id u =? telegram_id) (b_users s) = true).
      { apply existsb_exists. exists u. split; [exact Hu|]. now apply Z.eqb_eq. }
      congruence. }
    split.
    + rewrite map_app. apply in_or_app. right. left. reflexivity.
    + unfold users_keyed. intros Hk. rewrite map_app. cbn [map u_telegram_id].
      apply NoDup_app; [exact Hk | repeat constructor; intros [] |].
      intros x Hx [->|[]]. contradiction.
Qed.

Lemma add_game_id_run e telegram_id game_id w :
  exists text w',
    add_game_id e telegram_id game_id w
    = (Ok (negb (existsb (registration_of telegram_id game_id) (game_ids w)), text), w') /\
    In (telegram_id, game_id) (active_pairs (game_ids w')) /\
    (unique_active (game_ids w) -> unique_active (game_ids w')) /\
    send_history w' = send_history w /\
    api_calls w' = api_calls w.
Proof.
  unfold add_game_id.
  destruct (existsb (registration_of telegram_id game_id) (game_ids w)) eqn:Hex.
  - pose proof Hex as Hin. apply active_registration_in_pairs in Hin.
    do 2 eexists. split; [reflexivity|]. split; [exact Hin|]. split; [auto|].
    split; reflexivity.
  - assert (Hnew : ~ In (telegram_id, game_id) (active_pairs (game_ids w))).
    { intros Hin. apply active_registration_in_pairs in Hin. congruence. }
    unfold bind, datetime_now. cbn [game_ids send_history api_calls].
    do 2 eexists. split; [reflexivity|]. cbn [game_ids send_history api_calls].
    rewrite active_pairs_app.
    change (active_pairs [mk_game_id_row telegram_id game_id JNull (now e (clock w))
                                         JNull 0 true])
      with [(telegram_id, game_id)].
    split; [apply in_or_app; right; left; reflexivity|].
    split.
    + unfold unique_active. intros Hu. rewrite active_pairs_app.
      change (active_pairs [mk_game_id_row telegram_id game_id JNull (now e (clock w))
                                           JNull 0 true])
        with [(telegram_id, game_id)].
      apply NoDup_app; [exact Hu | repeat constructor; intros [] |].
      intros x Hx [<-|[]]. contradiction.
    + split; reflexivity.
Qed.

(** X24. [/addid] registers before it answers. Given an identifier that
    [isdigit] accepts, the command leaves the caller in the table [users]
    and the pair (caller, identifier) among the active registrations, so
    the next cycle enumerates the identifier under the caller; this holds
    even when no answer can be delivered. The table [users] keeps one row
    per telegram id and [game_ids] keeps at most one active row per pair.
    The command fails only if its answer cannot be delivered: a failure to
    notify the administrator about a new user is printed and swallowed, and
    nothing else is printed. *)
Theorem addid_command_registers e net admin_id user_id username game_id rest s :
  isdigit e game_id = true ->
  let run := addid_command e net admin_id user_id username (game_id :: rest) s in
  let s' := snd run in
  In user_id (map u_telegram_id (b_users s')) /\
  In (user_id, game_id) (active_pairs (game_ids (b_world s'))) /\
  In game_id (ids_of user_id (enumeration (b_world s'))) /\
  (users_keyed (b_users s) -> users_keyed (b_users s')) /\
  (unique_active (game_ids (b_world s)) -> unique_active (game_ids (b_world s'))) /\
  (fst run = Ok tt <-> net (List.length (b_chat s)) = true) /\
  b_printed s' = b_printed s ++ addid_lines net user_id game_id s.
Proof.
  intros Hd. cbv zeta.
  assert (Hrun : exists res w' users' lines printed,
             addid_command e net admin_id user_id username (game_id :: rest) s
             = (res, mk_bot w' users' lines printed) /\
             In user_id (map u_telegram_id users') /\
             In (user_id, game_id) (active_pairs (game_ids w')) /\
             (users_keyed (b_users s) -> users_keyed users') /\
             (unique_active (game_ids (b_world s)) -> unique_active (game_ids w')) /\
             (res = Ok tt <-> net (List.length (b_chat s)) = true) /\
             printed = b_printed s ++ addid_lines net user_id game_id s).
  { unfold addid_command. rewrite Hd. cbn [negb].
    unfold bindB at 1.
    destruct (add_user_run e user_id username s)
      as (w1 & users1 & -> & Hst1 & Hin1 & Hk1).
    unfold bindB at 1. unfold in_world at 1.
    cbn [b_world b_users b_chat b_printed].
    destruct (add_game_id_run e user_id game_id w1)
      as (text & w2 & -> & Hin2 & Hu2 & _).
    unfold stored in Hst1. injection Hst1 as Hg1 _ _. rewrite Hg1 in *.
    unfold bindB at 1. unfold chat at 1. cbn [b_world b_users b_chat b_printed snd fst].
    unfold addid_lines.
    destruct (net (List.length (b_chat s))) eqn:Hn.
    2:{ do 5 eexists. split; [reflexivity|]. repeat (split; [assumption|]).
        split; [split; discriminate | now rewrite app_nil_r]. }
    destruct (negb (existsb (fun u => u_telegram_id u =? user_id) (b_users s))
              && negb (existsb (registration_of user_id game_id) (game_ids (b_world s)))).
    - unfold try_exceptB, bindB, in_world, datetime_now, chat, printB.
      cbn [b_world b_users b_chat b_printed].
      rewrite length_app, Nat.add_1_r. cbn [List.length].
      destruct (net (S (List.length (b_chat s))));
        (do 5 eexists; split; [reflexivity|]; repeat (split; [assumption|]);
         split; [split; reflexivity | now rewrite ?app_nil_r]).
    - unfold retB. do 5 eexists. split; [reflexivity|]. repeat (split; [assumption|]).
      split; [split; reflexivity | now rewrite app_nil_r]. }
  destruct Hrun
    as (res & w' & users' & lines & printed & -> & Hu & Hp & Hk & Hua & Hres & Hpr).
  cbn [b_world b_users b_printed snd fst].
  split; [exact Hu|]. split; [exact Hp|]. split.
  - rewrite ids_of_flattened, enumeration_flattened.
    apply in_map_iff. exists (user_id, game_id). split; [reflexivity|].
    apply filter_In. split.
    + apply (Permutation_in _ (Permutation_sym (order_by_telegram_id_perm _))).
      exact Hp.
    + cbn [fst]. apply Z.eqb_refl.
  - split; [exact Hk|]. split; [exact Hua|]. split; [exact Hres | exact Hpr].
Qed.

Lemma addid_command_registers_witness :
  In "555" (ids_of 7 (enumeration
                        (b_world (snd (addid_command sample_env (fun _ => false) 9 7
                                                     (JStr "new_user") ["555"]
                                                     sample_bot))))) /\
  b_printed (snd (addid_command sample_env (fun n => (n =? 0)%nat) 9 7
                                (JStr "new_user") ["555"] sample_bot))
  = [LineAdminNotifyError TelegramError].
Proof.
  assert (Hd : isdigit sample_env "555" = true) by (vm_compute; reflexivity).
  split.
  - destruct (addid_command_registers sample_env (fun _ => false) 9 7 (JStr "new_user")
                                      "555" [] sample_bot Hd)
      as (_ & _ & H & _).
    exact H.
  - destruct (addid_command_registers sample_env (fun n => (n =? 0)%nat) 9 7
                                      (JStr "new_user") "555" [] sample_bot Hd)
      as (_ & _ & _ & _ & _ & _ & H).
    rewrite H. vm_compute. reflexivity.
Defined.

(** ** bot.py: the buttons of [/removeids] *)

Lemma digit_is_not_r c : is_digit c || negb (is_ascii c) = true -> c <> "r"%char.
Proof. intros H ->. vm_compute in H. discriminate. Qed.

Lemma drop_occurrences_digits s :
  forallb (fun c => is_digit c || negb (is_ascii c)) (list_ascii_of_string s) = true ->
  drop_occurrences "remove_" 0 s = s.
Proof.
  induction s as [|c s IH]; [reflexivity|].
  cbn [list_ascii_of_string forallb]. intros H. apply andb_true_iff in H as [Hc Hs].
  cbn [drop_occurrences].
  assert (Hp : String.prefix "remove_" (String c s) = false).
  { cbn [String.prefix]. destruct (ascii_dec "r" c) as [<-|_]; [|reflexivity].
    now apply digit_is_not_r in Hc. }
  rewrite Hp, (IH Hs). reflexivity.
Qed.

Lemma remove_button_round_trip e game_id :
  isdigit e game_id = true ->
  String.eqb (remove_button game_id) "remove_cancel" = false /\
  String.prefix "remove_" (remove_button game_id) = true /\
  drop_occurrences "remove_" 0 (remove_button game_id) = game_id.
Proof.
  unfold isdigit. intros H. apply andb_true_iff in H as [H _].
  apply andb_true_iff in H as [_ Hd].
  split; [|split].
  - destruct (String.eqb (remove_button game_id) "remove_cancel") eqn:He; [|reflexivity].
    apply String.eqb_eq in He. unfold remove_button in He. cbn [String.append] in He.
    injection He as ->. vm_compute in Hd. discriminate.
  - unfold remove_button. cbn [String.append]. 
    change (String.prefix "remove_"
              (String "r" (String "e" (String "m" (String "o" (String "v"
                 (String "e" (String "_" game_id))))))))
      with (String.prefix "" game_id).
    now destruct game_id.
  - transitivity (drop_occurrences "remove_" 0 game_id).
    + unfold remove_button. cbn [String.append].
      cbn [drop_occurrences].
      change (String.prefix "remove_"
                (String "r" (String "e" (String "m" (String "o" (String "v"
                   (String "e" (String "_" game_id))))))))
        with (String.prefix "" game_id).
      replace (String.prefix "" game_id) with true by now destruct game_id.
      reflexivity.
    + now apply drop_occurrences_digits.
Qed.

(** X25. A button of [/removeids] removes its identifier. When the button
    that [removeids_command] made for an identifier that [isdigit] accepts
    (as those that [/addid] registers) is pressed and the callback is
    answered, [remove_callback] recovers that
    identifier from the button data and deactivates the caller's
    registration of it: afterwards the pair (caller, identifier) is not
    active, every other pair is active exactly if it was, and the
    confirmation names the identifier. The command fails only if the
    confirmation cannot be delivered. *)
Theorem remove_button_removes_its_identifier e net user_id game_id s :
  isdigit e game_id = true ->
  net (List.length (b_chat s)) = true ->
  let run := remove_callback net user_id (remove_button game_id) s in
  let ok := net (S (List.length (b_chat s))) in
  run = (if ok then Ok tt else Raise TelegramError,
         mk_bot (snd (remove_game_id user_id game_id (b_world s))) (b_users s)
                (b_chat s ++ [(AnswerCallback, true); (EditText (TxtRemoved game_id), ok)])
                (b_printed s)) /\
  ~ In (user_id, game_id) (active_pairs (game_ids (b_world (snd run)))) /\
  (forall p, p <> (user_id, game_id) ->
             (In p (active_pairs (game_ids (b_world (snd run)))) <->
              In p (active_pairs (game_ids (b_world s))))).
Proof.
  intros Hd Hn. cbv zeta.
  destruct (remove_button_round_trip e game_id Hd) as (Hc & Hp & Hg).
  assert (Hrun : remove_callback net user_id (remove_button game_id) s
                 = (if net (S (List.length (b_chat s))) then Ok tt else Raise TelegramError,
                    mk_bot (snd (remove_game_id user_id game_id (b_world s))) (b_users s)
                           (b_chat s ++ [(AnswerCallback, true);
                                         (EditText (TxtRemoved game_id),
                                          net (S (List.length (b_chat s))))])
                           (b_printed s))).
  { unfold remove_callback. rewrite Hc, Hp, Hg.
    unfold bindB, chat, in_world, remove_game_id. rewrite Hn.
    cbn [b_world b_users b_chat b_printed snd].
    rewrite length_app. cbn [List.length]. rewrite Nat.add_1_r, <- app_assoc. cbn [app].
    destruct (net (S (List.length (b_chat s)))); reflexivity. }
  rewrite Hrun. split; [reflexivity|].
  cbn [snd b_world remove_game_id game_ids]. rewrite active_pairs_deactivated.
  split.
  - intros Hin. apply filter_In in Hin as [_ Hne]. cbn [fst snd] in Hne.
    now rewrite Z.eqb_refl, String.eqb_refl in Hne.
  - intros [t g] Hne. rewrite filter_In. cbn [fst snd]. split; [now intros [H _]|].
    intros Hin. split; [exact Hin|].
    destruct (t =? user_id) eqn:Ht; [|reflexivity].
    destruct (String.eqb g game_id) eqn:Hgid; [|reflexivity].
    apply Z.eqb_eq in Ht. apply String.eqb_eq in Hgid. subst. contradiction.
Qed.

Lemma remove_button_removes_its_identifier_witness :
  ~ In (1, "123")
      (active_pairs
         (game_ids (b_world (snd (remove_callback (fun _ => true) 1 (remove_button "123")
                                                  sample_bot))))).
Proof.
  assert (Hd : isdigit sample_env "123" = true) by (vm_compute; reflexivity).
  destruct (remove_button_removes_its_identifier sample_env (fun _ => true) 1 "123"
                                                 sample_bot Hd eq_refl)
    as (_ & H & _).
  exact H.
Defined.
